(** * Cityscapes-style evaluators and the extra-neck model factory

    A shallow embedding of
    [detectron2/evaluation/cityscapes_evaluation.py] and
    [detectron2/modeling/extra_neck/build.py].

    Python values are modelled directly: [str] as [string] (ASCII paths),
    [int] as [Z], [dict] as [gmap], lists as [list].  Exceptions are values
    of [exn]; code that touches the file system or the external scorer
    threads a [world] explicitly and records what it did in a trace. *)

From Stdlib Require Import ZArith QArith String Ascii List Lia Orders Sorting.Mergesort.
From stdpp Require Import base option list strings gmap pretty.

Local Open Scope string_scope.
Local Open Scope Z_scope.

(** ** Python primitives *)

Module Py.

(** The exceptions the modelled code can raise.  [External] stands for
    anything raised inside a collaborator that is not part of this
    repository (scorer, image encoder, accelerator runtime). *)
Inductive exn : Type :=
| IndexError
| ValueError
| KeyError (key : string)
| ZeroDivisionError
| AssertionError
| UnboundLocalError (name : string)
| External (what : string).

Inductive result (A : Type) : Type :=
| Ok (a : A)
| Raise (e : exn).
Arguments Ok {A} a.
Arguments Raise {A} e.

Definition bind {A B} (r : result A) (k : A -> result B) : result B :=
  match r with
  | Ok a => k a
  | Raise e => Raise e
  end.

Definition is_ok {A} (r : result A) : bool :=
  match r with Ok _ => true | Raise _ => false end.

(** [l[i]] with Python's negative indices. *)
Definition getitem {A} (l : list A) (i : Z) : result A :=
  let n := Z.of_nat (length l) in
  let j := if i <? 0 then i + n else i in
  if (0 <=? j) && (j <? n)
  then match nth_error l (Z.to_nat j) with
       | Some x => Ok x
       | None => Raise IndexError
       end
  else Raise IndexError.

(** [d[k]] on a dict. *)
Definition dict_get {V} (d : gmap string V) (k : string) : result V :=
  match d !! k with
  | Some v => Ok v
  | None => Raise (KeyError k)
  end.

(** [a % b] on ints: the remainder takes the sign of the divisor, as
    [Z.modulo] does; a zero divisor raises. *)
Definition mod_ (a b : Z) : result Z :=
  if b =? 0 then Raise ZeroDivisionError else Ok (a mod b).

(** [s.split(sep)] for a one-character separator. *)
Fixpoint split (sep : ascii) (s : string) : list string :=
  match s with
  | EmptyString => [EmptyString]
  | String c s' =>
      if Ascii.eqb c sep then EmptyString :: split sep s'
      else match split sep s' with
           | p :: ps => String c p :: ps
           | [] => [String c EmptyString]
           end
  end.

(** Whitespace that [int()] strips from an ASCII string: tab, line feed,
    vertical tab, form feed, carriage return and space. *)
Definition is_space (c : ascii) : bool :=
  let n := nat_of_ascii c in
  ((9 <=? n) && (n <=? 13) || (n =? 32))%nat.

Definition digit_val (c : ascii) : option Z :=
  let n := Z.of_nat (nat_of_ascii c) in
  if (48 <=? n) && (n <=? 57) then Some (n - 48) else None.

Definition is_digit (c : ascii) : bool :=
  match digit_val c with Some _ => true | None => false end.

Fixpoint lstrip (l : list ascii) : list ascii :=
  match l with
  | c :: l' => if is_space c then lstrip l' else l
  | [] => []
  end.

Definition strip (l : list ascii) : list ascii :=
  rev (lstrip (rev (lstrip l))).

(** Decimal digits, a single underscore allowed between two digits. *)
Fixpoint digits_go (acc : Z) (l : list ascii) : option Z :=
  match l with
  | [] => Some acc
  | c :: l' =>
      if Ascii.eqb c "_"
      then match l' with
           | d :: _ => if is_digit d then digits_go acc l' else None
           | [] => None
           end
      else match digit_val c with
           | Some d => digits_go (10 * acc + d) l'
           | None => None
           end
  end.

Definition digits (l : list ascii) : option Z :=
  match l with
  | c :: _ => if is_digit c then digits_go 0 l else None
  | [] => None
  end.

(** [int(s)] in base ten: surrounding whitespace, an optional sign, then
    digits. *)
Definition int (s : string) : result Z :=
  let body := strip (list_ascii_of_string s) in
  let signed :=
    match body with
    | c :: l' =>
        if Ascii.eqb c "-" then option_map Z.opp (digits l')
        else if Ascii.eqb c "+" then digits l'
        else digits body
    | [] => None
    end in
  match signed with
  | Some z => Ok z
  | None => Raise ValueError
  end.

(** [s.endswith(suf)] and [s.startswith(pre)]. *)
Fixpoint endswith (s suf : string) : bool :=
  String.eqb s suf
  || match s with
     | String _ s' => endswith s' suf
     | EmptyString => false
     end.

Definition startswith (s pre : string) : bool := String.prefix pre s.

(** [os.path.join(a, b)] on POSIX. *)
Definition path_join (a b : string) : string :=
  if startswith b "/" then b
  else if String.eqb a "" then b
  else if endswith a "/" then a +:+ b
  else a +:+ "/" +:+ b.

(** [os.path.basename(p)]: what follows the last slash. *)
Definition basename (p : string) : string :=
  List.last (split "/" p) "".

(** [os.path.splitext(p)[0]]: the path without the extension of its last
    component; leading dots of that component do not start an extension. *)
Fixpoint drop_ext (seen_other : bool) (s : string) : string :=
  match s with
  | EmptyString => EmptyString
  | String c s' =>
      if Ascii.eqb c "/" then String c (drop_ext false s')
      else if Ascii.eqb c "."
      then if seen_other && negb (existsb (fun d => Ascii.eqb d "." || Ascii.eqb d "/")
                                          (list_ascii_of_string s'))
           then EmptyString
           else String c (drop_ext seen_other s')
      else String c (drop_ext true s')
  end.

Definition splitext_root (p : string) : string := drop_ext false p.

(** Lexicographic order on strings by character code, as Python compares
    [str] values. *)
Module StringOrder <: TotalLeBool.
Definition t := string.
Definition leb := String.leb.
Theorem leb_total : forall a1 a2 : t, leb a1 a2 = true \/ leb a2 a1 = true.
Proof. exact String.leb_total. Qed.
End StringOrder.

Module StringSort := Sort StringOrder.

Definition sorted (l : list string) : list string := StringSort.sort l.

End Py.

Import Py.

#[global] Instance result_ret : MRet result := fun A a => Ok a.
#[global] Instance result_bind : MBind result := fun A B k r => Py.bind r k.

(** ** The world the evaluators run in *)

(** A file is either text, kept as the sequence of [write] payloads, or an
    8-bit single-channel image, kept as its rows of pixel values. *)
Inductive file : Type :=
| TextFile (chunks : list string)
| ImageFile (pixels : list (list Z)).

(** What an evaluator does to its surroundings, in order. *)
Inductive event : Type :=
| EvSynchronize
| EvInfo (msg : string)
| EvGlob (pattern : string)
| EvGetPrediction (gt : string)
| EvScore (predictions groundTruths : list string)
| EvCleanup (dir : string).

(** [files] are the files by path; [gt_tree] is the directory below the
    resolved ground-truth directory: its sub-directories in scan order, each
    with its entries in scan order. *)
Record world : Type := World {
  files : gmap string file;
  gt_tree : list (string * list string);
  trace : list event
}.

(** State that survives an exception, as a Python object and the disk do. *)
Definition M (A : Type) : Type := world -> world * result A.

#[global] Instance M_ret : MRet M := fun A a w => (w, Ok a).
#[global] Instance M_bind : MBind M := fun A B k m w =>
  match m w with
  | (w', Ok a) => k a w'
  | (w', Raise e) => (w', Raise e)
  end.

Definition lift {A} (r : result A) : M A := fun w => (w, r).

Definition emit (e : event) : M unit := fun w =>
  (World (files w) (gt_tree w) (trace w ++ [e]), Ok tt).

Definition read_files : M (gmap string file) := fun w => (w, Ok (files w)).

Definition write_file (path : string) (f : file) : M unit := fun w =>
  (World (<[path := f]> (files w)) (gt_tree w) (trace w), Ok tt).

(** [for x in l: body x], stopping at the first exception. *)
Fixpoint for_each {A} (l : list A) (body : A -> M unit) : M unit :=
  match l with
  | [] => mret tt
  | x :: l' => _ ← body x; for_each l' body
  end.

Fixpoint map_M {A B} (f : A -> M B) (l : list A) : M (list B) :=
  match l with
  | [] => mret []
  | x :: l' => y ← f x; ys ← map_M f l'; mret (y :: ys)
  end.

(** [self._working_dir.cleanup()]: the directory and what is below it go. *)
Definition cleanup (dir : string) : M unit := fun w =>
  (World (filter (fun kv => startswith kv.1 (dir +:+ "/") = false) (files w))
         (gt_tree w) (trace w ++ [EvCleanup dir]), Ok tt).

(** [glob.glob(os.path.join(gt_dir, "*", "*" + suffix))]: the entries two
    levels below [gt_dir] whose name ends with [suffix]; a [*] never matches
    a name that starts with a dot.  [gt_dir] is taken free of glob
    metacharacters. *)
Definition ishidden (name : string) : bool := startswith name ".".

Definition fnmatch_star (suffix name : string) : bool :=
  negb (ishidden name) && endswith name suffix.

Definition glob_in (gt_dir suffix : string) (tree : list (string * list string))
  : list string :=
  flat_map (fun entry : string * list string =>
              if ishidden entry.1 then []
              else map (path_join (path_join gt_dir entry.1))
                       (List.filter (fnmatch_star suffix) entry.2))
           tree.

Definition glob (gt_dir suffix : string) : M (list string) := fun w =>
  (World (files w) (gt_tree w)
         (trace w ++ [EvGlob (path_join (path_join gt_dir "*") ("*" +:+ suffix))]),
   Ok (glob_in gt_dir suffix (gt_tree w))).


(** ** Evaluator state and the external scorer *)

(** Metric values: whatever number type the scorer hands back (Python
    floats in practice).  Only the operations the evaluators apply are
    required, and no law is assumed of them. *)
Class Scalar (S : Type) : Type := {
  s_add : S -> S -> S;
  s_mul : S -> S -> S;
  s_div : S -> S -> S;
  s_of_Z : Z -> S
}.

(** The metadata the catalog holds for a dataset. *)
Record metadata : Type := Metadata {
  thing_classes : list string;
  gt_dir : string
}.

(** The fields [CityscapesEvaluator.__init__] and [reset] set.
    [_working_dir] is the name of the directory this process created,
    [_temp_dir] the one agreed on by all workers. *)
Record evaluator : Type := Evaluator {
  dataset_type : string;
  _metadata : metadata;
  inf_start : Z;
  skip_interv : Z;
  _working_dir : string;
  _temp_dir : string
}.

(** The global [args] object of the scorer module. *)
Record scorer_args : Type := ScorerArgs {
  predictionPath : string;
  predictionWalk : option string;
  JSONOutput : bool;
  colorized : bool;
  gtInstancesFile : string;
  span_window : Z
}.

(** The scorer is a black box.  A lookup reads the files and either
    answers or raises.  A comparison also writes (the instance scorer is
    handed [gtInstancesFile] as the file to write), so it hands back the
    files it leaves together with its answer or its exception.  It is
    taken to leave the listing of the ground-truth directory alone. *)
Record scorer (R : Type) : Type := Scorer {
  getPrediction : gmap string file -> scorer_args -> string -> result string;
  evaluateImgLists : gmap string file -> list string -> list string -> scorer_args
                     -> gmap string file * result R
}.
Arguments getPrediction {R} _ _ _ _.
Arguments evaluateImgLists {R} _ _ _ _ _.

Definition get_prediction {R} (sc : scorer R) (a : scorer_args) (gt : string) : M string :=
  _ ← emit (EvGetPrediction gt);
  fs ← read_files;
  lift (getPrediction sc fs a gt).

(** The files are those the comparison leaves, also when it raises. *)
Definition evaluate_img_lists {R} (sc : scorer R) (preds gts : list string)
    (a : scorer_args) : M R :=
  _ ← emit (EvScore preds gts);
  ((fun w => let out := evaluateImgLists sc (files w) preds gts a in
             (World out.1 (gt_tree w) (trace w), out.2)) : M R).

(** [assert len(l), msg] *)
Definition assert_nonempty {A} (l : list A) : M unit :=
  lift (if (length l =? 0)%nat then Raise AssertionError else Ok tt).

Definition info_evaluating (self : evaluator) : M unit :=
  emit (EvInfo ("Evaluating results under " +:+ _temp_dir self +:+ " ...")).

(** The scratch directory comes from [tempfile], so it is already absolute
    and [os.path.abspath] leaves it alone. *)
Definition abspath (p : string) : string := p.

Abbreviation metrics S := (gmap string (gmap string S)).

(** A row of the label table ([cityscapesscripts.helpers.labels.Label],
    without its colour). *)
Record label : Type := Label {
  name : string;
  id : Z;
  trainId : Z;
  hasInstances : bool;
  ignoreInEval : bool
}.

(** 8-bit arrays: a store or a product is reduced modulo 256. *)
Definition astype_uint8 (v : Z) : Z := v mod 256.
Definition mul_uint8 (a k : Z) : Z := (a * k) mod 256.

Definition newline : string := String (ascii_of_nat 10) EmptyString.

Definition append_chunk (path chunk : string) : M unit := fun w =>
  let old := match files w !! path with
             | Some (TextFile cs) => cs
             | _ => []
             end in
  (World (<[path := TextFile (old ++ [chunk])]> (files w)) (gt_tree w) (trace w), Ok tt).

(** ** CityscapesInstanceEvaluator *)

Module CityscapesInstanceEvaluator.
Section Defs.
Context {S : Type} `{Scalar S}.
(** [cityscapesscripts.helpers.labels.name2label], how a score prints
    under ["{}".format], the scorer module and its [args] as found. *)
Variable name2label : gmap string label.
Variable str_of_score : S -> string.
Variable cityscapes_eval : scorer (gmap string (gmap string S)).
Variable args0 : scorer_args.
Variable rank : nat.

(** One detected instance: the [i]-th entries of [pred_classes], [scores]
    and [pred_masks]. *)
Record instance : Type := Instance {
  pred_class : Z;
  score : S;
  pred_mask : list (list Z)
}.

Definition png_name (basename : string) (i : nat) (classes : string) : string :=
  basename +:+ "_" +:+ pretty i +:+ "_" +:+ classes +:+ ".png".

(** The body of [for i in range(num_instances)], from instance [i] on. *)
Fixpoint write_instances (self : evaluator) (basename pred_txt : string)
    (i : nat) (output : list instance) : M unit :=
  match output with
  | [] => mret tt
  | inst :: rest =>
      classes ← lift (getitem (thing_classes (_metadata self)) (pred_class inst));
      lab ← lift (dict_get name2label classes);
      let class_id := id lab in
      let mask := map (map astype_uint8) (pred_mask inst) in
      let png_filename := path_join (_temp_dir self) (png_name basename i classes) in
      _ ← write_file png_filename (ImageFile (map (map (fun v => mul_uint8 v 255)) mask));
      _ ← append_chunk pred_txt
            (Py.basename png_filename +:+ " " +:+ pretty class_id +:+ " "
             +:+ str_of_score (score inst) +:+ newline);
      write_instances self basename pred_txt (Datatypes.S i) rest
  end.

(** The body of [for input, output in zip(inputs, outputs)].  Opening the
    manifest for writing creates it empty. *)
Definition process_one (self : evaluator) (io : string * list instance) : M unit :=
  let file_name := io.1 in
  let basename := splitext_root (Py.basename file_name) in
  let pred_txt := path_join (_temp_dir self) (basename +:+ "_pred.txt") in
  _ ← write_file pred_txt (TextFile []);
  write_instances self basename pred_txt 0 io.2.

Definition process (self : evaluator) (inputs : list string)
    (outputs : list (list instance)) : M unit :=
  for_each (zip inputs outputs) (process_one self).

(** The fields of the scorer's global [args] set before evaluating. *)
Definition set_args (self : evaluator) : scorer_args :=
  ScorerArgs (abspath (_temp_dir self)) None false false
             (path_join (_temp_dir self) "gtInstances.json")
             (span_window args0).

Definition evaluate (self : evaluator) : M (option (metrics S)) :=
  _ ← emit EvSynchronize;
  if (0 <? rank)%nat then mret None else
  _ ← info_evaluating self;
  let args := set_args self in
  groundTruthImgList ← glob (gt_dir (_metadata self)) "_gtFine_instanceIds.png";
  _ ← assert_nonempty groundTruthImgList;
  predictionImgList ← map_M (get_prediction cityscapes_eval args) groundTruthImgList;
  all ← evaluate_img_lists cityscapes_eval predictionImgList groundTruthImgList args;
  results ← lift (dict_get all "averages");
  allAp ← lift (dict_get results "allAp");
  allAp50 ← lift (dict_get results "allAp50%");
  let ret : metrics S :=
    {[ "segm" := <["AP" := s_mul allAp (s_of_Z 100)]>
                   {[ "AP50" := s_mul allAp50 (s_of_Z 100) ]} ]} in
  _ ← cleanup (_working_dir self);
  mret (Some ret).
End Defs.
End CityscapesInstanceEvaluator.

(** ** Semantic label images *)

(** [255 * np.ones(output.shape, dtype=np.uint8)] *)
Definition ones_255 (output : list (list Z)) : list (list Z) :=
  map (map (fun _ => 255)) output.

(** [pred[output == train_id] = v] *)
Definition masked_assign (output : list (list Z)) (train_id v : Z)
    (pred : list (list Z)) : list (list Z) :=
  zip_with (zip_with (fun o p => if o =? train_id then v else p)) output pred.

(** The loop over [trainId2label.items()], a dict given in iteration
    order.  [output] is the per-pixel argmax of the class scores. *)
Definition relabel (trainId2label : list (Z * label)) (output : list (list Z))
  : list (list Z) :=
  fold_left (fun pred (item : Z * label) =>
               if ignoreInEval item.2 then pred
               else masked_assign output item.1 (astype_uint8 (id item.2)) pred)
            trainId2label (ones_255 output).

Definition semseg_process_one (trainId2label : list (Z * label)) (self : evaluator)
    (io : string * list (list Z)) : M unit :=
  let file_name := io.1 in
  let basename := splitext_root (Py.basename file_name) in
  let pred_filename := path_join (_temp_dir self) (basename +:+ "_pred.png") in
  let output := io.2 in
  let pred := relabel trainId2label output in
  write_file pred_filename (ImageFile pred).

(** ** CityscapesSemSegEvaluator *)

Module CityscapesSemSegEvaluator.
Section Defs.
Context {S : Type} `{Scalar S}.
Variable trainId2label : list (Z * label).
Variable cityscapes_eval : scorer (gmap string S).
Variable args0 : scorer_args.
Variable rank : nat.

Definition process (self : evaluator) (inputs : list string)
    (outputs : list (list (list Z))) : M unit :=
  for_each (zip inputs outputs) (semseg_process_one trainId2label self).

(** The fields of the scorer's global [args] set before evaluating. *)
Definition set_args (self : evaluator) : scorer_args :=
  ScorerArgs (abspath (_temp_dir self)) None false false
             (gtInstancesFile args0) (span_window args0).

Definition evaluate (self : evaluator) : M (option (metrics S)) :=
  _ ← emit EvSynchronize;
  if (0 <? rank)%nat then mret None else
  _ ← info_evaluating self;
  let args := set_args self in
  groundTruthImgList ← glob (gt_dir (_metadata self)) "_gtFine_labelIds.png";
  _ ← assert_nonempty groundTruthImgList;
  predictionImgList ← map_M (get_prediction cityscapes_eval args) groundTruthImgList;
  results ← evaluate_img_lists cityscapes_eval predictionImgList groundTruthImgList args;
  IoU ← lift (dict_get results "averageScoreClasses");
  iIoU ← lift (dict_get results "averageScoreInstClasses");
  IoU_sup ← lift (dict_get results "averageScoreCategories");
  iIoU_sup ← lift (dict_get results "averageScoreInstCategories");
  let ret : metrics S :=
    {[ "sem_seg" :=
         <["IoU" := s_mul (s_of_Z 100) IoU]>
         (<["iIoU" := s_mul (s_of_Z 100) iIoU]>
         (<["IoU_sup" := s_mul (s_of_Z 100) IoU_sup]>
         {[ "iIoU_sup" := s_mul (s_of_Z 100) iIoU_sup ]})) ]} in
  _ ← cleanup (_working_dir self);
  mret (Some ret).
End Defs.
End CityscapesSemSegEvaluator.

(** ** ViperCityscapesSemSegEvaluator *)

Module ViperCityscapesSemSegEvaluator.
Section Defs.
Context {S : Type} `{Scalar S}.
(** [detectron2.utils.labels_viper16.trainId2label], which shadows the
    cityscapes table imported first.  The comparison this evaluator calls
    in its scorer module is [evaluateImgLists_video]. *)
Variable trainId2label : list (Z * label).
Variable cityscapes_eval : scorer (gmap string S).
Variable args0 : scorer_args.
Variable rank : nat.

Definition process (self : evaluator) (inputs : list string)
    (outputs : list (list (list Z))) : M unit :=
  for_each (zip inputs outputs) (semseg_process_one trainId2label self).

(** [int(p.split('/')[-1].split('_')[-1].split('.')[0])] *)
Definition frame_index (p : string) : result Z :=
  a ← getitem (split "/" p) (-1);
  b ← getitem (split "_" a) (-1);
  c ← getitem (split "." b) 0;
  int c.

(** The loop [for x in range(len(groundTruthImgList))] from position [x]
    on.  [tmp] is [groundTruthImgList_tmp]: [None] while the name is
    unbound. *)
Fixpoint subsample_loop (self : evaluator) (start_idx : Z) (rest : list string)
    (tmp : option (list string)) : result (option (list string)) :=
  match rest with
  | [] => Ok tmp
  | gt :: rest' =>
      i ← frame_index gt;
      if inf_start self <? i then
        j ← frame_index gt;
        m ← mod_ j (skip_interv self);
        if m =? start_idx then
          match tmp with
          | Some l => subsample_loop self start_idx rest' (Some (l ++ [gt])%list)
          | None => Raise (UnboundLocalError "groundTruthImgList_tmp")
          end
        else subsample_loop self start_idx rest' tmp
      else subsample_loop self start_idx rest' tmp
  end.

(** Lines 249-256: the frame index of the first file, the loop, and the
    rebinding of [groundTruthImgList]. *)
Definition subsample (self : evaluator) (groundTruthImgList : list string)
    (tmp : option (list string)) : result (list string) :=
  first ← getitem groundTruthImgList 0;
  start_idx ← frame_index first;
  tmp' ← subsample_loop self start_idx groundTruthImgList tmp;
  match tmp' with
  | Some l => Ok l
  | None => Raise (UnboundLocalError "groundTruthImgList_tmp")
  end.

Definition enumerate (self : evaluator) : M (list string * option (list string)) :=
  if String.eqb (dataset_type self) "cityscapes" then
    l ← glob (gt_dir (_metadata self)) "_gtFine_labelIds.png";
    mret (sorted l, None)
  else
    l ← glob (gt_dir (_metadata self)) "";
    mret (sorted l, Some []).

(** The fields of the scorer's global [args] set before evaluating;
    [span_window] is 5. *)
Definition set_args (self : evaluator) : scorer_args :=
  ScorerArgs (abspath (_temp_dir self)) None false false
             (gtInstancesFile args0) 5.

(** Lines 260-327: from the assertion on the subsampled list to the
    returned mapping. *)
Definition report (self : evaluator) (groundTruthImgList : list string)
  : M (option (metrics S)) :=
  let args := set_args self in
  _ ← assert_nonempty groundTruthImgList;
  predictionImgList ← map_M (get_prediction cityscapes_eval args) groundTruthImgList;
  results ← evaluate_img_lists cityscapes_eval predictionImgList groundTruthImgList args;
  IoU ← lift (dict_get results "averageScoreClasses");
  IoU_sup ← lift (dict_get results "averageScoreCategories");
  VIoU_5 ← lift (dict_get results "averageScoreClasses_vid5");
  VIoU_sup_5 ← lift (dict_get results "averageScoreCategories_vid5");
  VIoU_10 ← lift (dict_get results "averageScoreClasses_vid10");
  VIoU_sup_10 ← lift (dict_get results "averageScoreCategories_vid10");
  VIoU_15 ← lift (dict_get results "averageScoreClasses_vid15");
  VIoU_sup_15 ← lift (dict_get results "averageScoreCategories_vid15");
  let sem_seg : gmap string S :=
    <["IoU" := s_mul (s_of_Z 100) IoU]>
    (<["IoU_sup" := s_mul (s_of_Z 100) IoU_sup]>
    (<["VIoU_5" := s_mul (s_of_Z 100) VIoU_5]>
    (<["VIoU_sup_5" := s_mul (s_of_Z 100) VIoU_sup_5]>
    (<["VIoU_10" := s_mul (s_of_Z 100) VIoU_10]>
    (<["VIoU_sup_10" := s_mul (s_of_Z 100) VIoU_sup_10]>
    (<["VIoU_15" := s_mul (s_of_Z 100) VIoU_15]>
    {[ "VIoU_sup_15" := s_mul (s_of_Z 100) VIoU_sup_15 ]})))))) in
  let ret1 : metrics S := {[ "sem_seg" := sem_seg ]} in
  d ← lift (dict_get ret1 "sem_seg");
  v5 ← lift (dict_get d "VIoU_5");
  v10 ← lift (dict_get d "VIoU_10");
  v15 ← lift (dict_get d "VIoU_15");
  vs5 ← lift (dict_get d "VIoU_sup_5");
  vs10 ← lift (dict_get d "VIoU_sup_10");
  vs15 ← lift (dict_get d "VIoU_sup_15");
  let ret2 : metrics S :=
    <["sem_seg_Vid" :=
        <["VIoU_total" := s_div (s_add (s_add v5 v10) v15) (s_of_Z 3)]>
        {[ "VIoU_sup_total" := s_div (s_add (s_add vs5 vs10) vs15) (s_of_Z 3) ]}]> ret1 in
  vid ← lift (dict_get ret2 "sem_seg_Vid");
  vt ← lift (dict_get vid "VIoU_total");
  iou ← lift (dict_get d "IoU");
  vst ← lift (dict_get vid "VIoU_sup_total");
  iou_sup ← lift (dict_get d "IoU_sup");
  let ret3 : metrics S :=
    <["sem_seg_ImgVid" :=
        <["ImgVid_IoU_Total" := s_div (s_add (s_mul vt (s_of_Z 3)) iou) (s_of_Z 4)]>
        {[ "ImgVid_sup_IoU_Total" :=
             s_div (s_add (s_mul vst (s_of_Z 3)) iou_sup) (s_of_Z 4) ]}]> ret2 in
  _ ← cleanup (_working_dir self);
  mret (Some ret3).

Definition evaluate (self : evaluator) : M (option (metrics S)) :=
  _ ← emit EvSynchronize;
  if (0 <? rank)%nat then mret None else
  _ ← info_evaluating self;
  found ← enumerate self;
  groundTruthImgList ← lift (subsample self found.1 found.2);
  report self groundTruthImgList.
End Defs.
End ViperCityscapesSemSegEvaluator.

(** ** The extra-neck model factory *)

Module ExtraNeck.
Section Defs.
(** [Net] is what a constructor builds (architecture and parameters),
    [Device] what [torch.device] returns. *)
Variables Net Device : Type.

(** The two fields of the configuration that [build_model] reads; the
    constructor receives the whole configuration. *)
Record cfg : Type := Cfg {
  MODEL_EXTRA_NECK : string;
  MODEL_DEVICE : string
}.

(** An [nn.Module]: its contents and where they live. *)
Record module : Type := Module_ {
  net : Net;
  device : Device
}.

Inductive build_event : Type :=
  | Constructed (key : string)
  | Moved (d : Device).

Definition B (A : Type) : Type := list build_event -> list build_event * result A.

Definition constructor : Type := cfg -> result module.

(** Modelled from the spec: the registry class
    ([detectron2.utils.registry.Registry]) is not among the sources.  It
    is "a global name→constructor registry"; looking up a name "fails if
    the named variant is absent from the registry (unknown-key error)". *)
Definition Registry_get (registry : gmap string constructor) (name : string)
  : result constructor :=
  dict_get registry name.

Variable EXTRA_NECK_REGISTRY : gmap string constructor.
Variable torch_device : string -> result Device.

(** [model.to(d)] moves the module and leaves its contents as they are. *)
Definition to (m : module) (d : Device) : module := Module_ (net m) d.

Definition build_model (c : cfg) : B module := fun log =>
  let meta_arch := MODEL_EXTRA_NECK c in
  match Registry_get EXTRA_NECK_REGISTRY meta_arch with
  | Raise e => (log, Raise e)
  | Ok ctor =>
      let log1 := (log ++ [Constructed meta_arch])%list in
      match ctor c with
      | Raise e => (log1, Raise e)
      | Ok model =>
          match torch_device (MODEL_DEVICE c) with
          | Raise e => (log1, Raise e)
          | Ok d => ((log1 ++ [Moved d])%list, Ok (to model d))
          end
      end
  end.
End Defs.
End ExtraNeck.

(** ** Worlds reached by the evaluators, and concrete inputs *)

(** An exact-arithmetic instance of the metric interface. *)
#[global] Instance Q_scalar : Scalar Q := {
  s_add := Qplus;
  s_mul := Qmult;
  s_div := Qdiv;
  s_of_Z := inject_Z
}.

(** The formulas of the composite metrics: a score as a percentage, the
    mean of three, and the blend of a video average weighted 3:1 against
    an image score. *)
Definition pct {S} `{Scalar S} (x : S) : S := s_mul (s_of_Z 100) x.
Definition mean3 {S} `{Scalar S} (a b c : S) : S := s_div (s_add (s_add a b) c) (s_of_Z 3).
Definition blend {S} `{Scalar S} (video image : S) : S :=
  s_div (s_add (s_mul video (s_of_Z 3)) image) (s_of_Z 4).

(** The same world with another trace. *)
Definition with_trace (w : world) (t : list event) : world :=
  World (files w) (gt_tree w) t.

(** The world on the coordinator once the barrier is passed, the log line
    is written and the ground truth is enumerated with [suffix]. *)
Definition enumerated (self : evaluator) (suffix : string) (w : world) : world :=
  with_trace w
    (trace w ++ [EvSynchronize;
                 EvInfo ("Evaluating results under " +:+ _temp_dir self +:+ " ...");
                 EvGlob (path_join (path_join (gt_dir (_metadata self)) "*") ("*" +:+ suffix))]).

(** What the temporal evaluator enumerates: the suffix depends on the
    dataset type. *)
Definition viper_suffix (self : evaluator) : string :=
  if String.eqb (dataset_type self) "cityscapes" then "_gtFine_labelIds.png" else "".

(** The world after the predictions for [gts] were looked up, the scorer
    compared them, leaving the files [left], and the scratch directory was
    removed. *)
Definition scored (self : evaluator) (gts preds : list string) (left : gmap string file)
    (w : world) : world :=
  World (filter (fun kv => startswith kv.1 (_working_dir self +:+ "/") = false) left)
        (gt_tree w)
        (trace w ++ map EvGetPrediction gts ++ [EvScore preds gts; EvCleanup (_working_dir self)]).

(** [sep] does not occur in [s]. *)
Fixpoint lacks (sep : ascii) (s : string) : bool :=
  match s with
  | EmptyString => true
  | String c s' => negb (Ascii.eqb c sep) && lacks sep s'
  end.

(** [s.split(sep)[-1]] *)
Definition last_seg (sep : ascii) (s : string) : string :=
  List.last (split sep s) EmptyString.

Definition empty_world : world := World ∅ [] [].

Definition no_args : scorer_args := ScorerArgs "" None false false "" 0.

Definition demo_self (kind : string) : evaluator :=
  Evaluator kind (Metadata ["person"; "car"] "/gt") 20 10
            "/tmp/cityscapes_eval_a" "/tmp/cityscapes_eval_a".

(** A scorer that finds every prediction in the prediction directory and
    answers with fixed numbers; the instance one writes the file it is
    handed as [gtInstancesFile]. *)
Definition demo_prediction (fs : gmap string file) (a : scorer_args) (gt : string)
  : result string :=
  Ok (path_join (predictionPath a) (splitext_root (basename gt) +:+ "_pred.png")).

Definition demo_instance_scorer : scorer (gmap string (gmap string Q)) :=
  Scorer _ demo_prediction
         (fun fs _ _ a =>
            (<[gtInstancesFile a := TextFile ["{}"]]> fs,
             Ok {[ "averages" := <["allAp" := 1 # 4]> {[ "allAp50%" := 1 # 2 ]} ]})).

Definition demo_instance_world : world :=
  World ∅ [("aachen", ["aachen_000000_000019_gtFine_instanceIds.png";
                       "aachen_000000_000019_gtFine_labelIds.png"])] [].

Definition demo_semseg_results : gmap string Q :=
  list_to_map
    [("averageScoreClasses", 1 # 2); ("averageScoreInstClasses", 1 # 4);
     ("averageScoreCategories", 3 # 4); ("averageScoreInstCategories", 1 # 8);
     ("averageScoreClasses_vid5", 1 # 5); ("averageScoreCategories_vid5", 2 # 5);
     ("averageScoreClasses_vid10", 3 # 10); ("averageScoreCategories_vid10", 1 # 10);
     ("averageScoreClasses_vid15", 7 # 10); ("averageScoreCategories_vid15", 9 # 10)].

Definition demo_semseg_scorer : scorer (gmap string Q) :=
  Scorer _ demo_prediction (fun fs _ _ _ => (fs, Ok demo_semseg_results)).

(** A video sequence with ground truth for the frames 0, 5, ..., 100. *)
Definition demo_video_frames : list string :=
  ["001_00000.png"; "001_00005.png"; "001_00010.png"; "001_00015.png";
   "001_00020.png"; "001_00025.png"; "001_00030.png"; "001_00035.png";
   "001_00040.png"; "001_00045.png"; "001_00050.png"; "001_00055.png";
   "001_00060.png"; "001_00065.png"; "001_00070.png"; "001_00075.png";
   "001_00080.png"; "001_00085.png"; "001_00090.png"; "001_00095.png";
   "001_00100.png"].

Definition demo_video_world : world := World ∅ [("001", demo_video_frames)] [].

(** The frames 30, 40, ..., 100 of that sequence and where their
    predictions are looked up. *)
Definition demo_video_kept : list string :=
  ["/gt/001/001_00030.png"; "/gt/001/001_00040.png"; "/gt/001/001_00050.png";
   "/gt/001/001_00060.png"; "/gt/001/001_00070.png"; "/gt/001/001_00080.png";
   "/gt/001/001_00090.png"; "/gt/001/001_00100.png"].

Definition demo_video_preds : list string :=
  ["/tmp/cityscapes_eval_a/001_00030_pred.png";
   "/tmp/cityscapes_eval_a/001_00040_pred.png";
   "/tmp/cityscapes_eval_a/001_00050_pred.png";
   "/tmp/cityscapes_eval_a/001_00060_pred.png";
   "/tmp/cityscapes_eval_a/001_00070_pred.png";
   "/tmp/cityscapes_eval_a/001_00080_pred.png";
   "/tmp/cityscapes_eval_a/001_00090_pred.png";
   "/tmp/cityscapes_eval_a/001_00100_pred.png"].

(** A sequence whose first frame index is not below the skip interval. *)
Definition late_video_world : world :=
  World ∅ [("002", ["002_00022.png"; "002_00032.png"; "002_00042.png"])] [].

Definition demo_cityscapes_world : world :=
  World ∅ [("aachen", ["aachen_000000_000019_gtFine_labelIds.png";
                       "aachen_000001_000019_gtFine_labelIds.png"])] [].

(** The frame index of a path, 0 where the name carries none. *)
Definition frame_of (p : string) : Z :=
  match ViperCityscapesSemSegEvaluator.frame_index p with
  | Ok i => i
  | Raise _ => 0
  end.

(** The test the loop applies to a file. *)
Definition kept (self : evaluator) (start_idx : Z) (p : string) : bool :=
  (inf_start self <? frame_of p) && (frame_of p mod skip_interv self =? start_idx).

(** The subsampling as the specification words it: the frames after the
    warm-up offset whose index is congruent to the index of the first file
    modulo the skip interval. *)
Definition congruent (a b m : Z) : bool := (a - b) mod m =? 0.

Definition spec_subsample (self : evaluator) (groundTruthImgList : list string)
  : list string :=
  match groundTruthImgList with
  | [] => []
  | first :: _ =>
      List.filter (fun p => (inf_start self <? frame_of p)
                            && congruent (frame_of p) (frame_of first) (skip_interv self))
                  groundTruthImgList
  end.

(** What one step of the loop over the label table does to a pixel whose
    predicted train-id is [o]. *)
Definition relabel_step (o : Z) (p : Z) (item : Z * label) : Z :=
  if ignoreInEval item.2 then p
  else if o =? item.1 then astype_uint8 (id item.2) else p.

(** The label a predicted train-id stands for: the external id of its
    table entry when that entry is not ignored in evaluation, and 255 when
    the entry is ignored or there is none. *)
Definition external_id (trainId2label : list (Z * label)) (train_id : Z) : Z :=
  match List.find (fun item : Z * label => item.1 =? train_id) trainId2label with
  | Some item => if ignoreInEval item.2 then 255 else id item.2
  | None => 255
  end.

(** Where the label image of an input is written. *)
Definition pred_png (self : evaluator) (file_name : string) : string :=
  path_join (_temp_dir self) (splitext_root (basename file_name) +:+ "_pred.png").

(** [pred] is the label image of the prediction [output]: it has its
    shape, and every pixel is the label the predicted train-id stands
    for. *)
Definition label_image_of (trainId2label : list (Z * label)) (output pred : list (list Z))
  : Prop :=
  map (@length Z) pred = map (@length Z) output
  /\ forall (r c : nat) (row : list Z) (t : Z),
       output !! r = Some row -> row !! c = Some t ->
       exists row', pred !! r = Some row'
                    /\ row' !! c = Some (external_id trainId2label t).

(** A batch writes one label image per input, later inputs overwriting
    earlier ones of the same name. *)
Definition semseg_written (tbl : list (Z * label)) (self : evaluator)
    (batch : list (string * list (list Z))) (fs : gmap string file) : gmap string file :=
  fold_left (fun fs io => <[pred_png self io.1 := ImageFile (relabel tbl io.2)]> fs) batch fs.

(** A small label table in the style of the cityscapes one. *)
Definition demo_labels : list (Z * label) :=
  [(255, Label "unlabeled" 0 255 false true);
   (0, Label "road" 7 0 false false);
   (1, Label "sidewalk" 8 1 false false);
   (-1, Label "license plate" (-1) (-1) false true)].

(** A batch of two images. *)
Definition demo_semseg_inputs : list string :=
  ["leftImg8bit/val/frankfurt/frankfurt_000000_000294_leftImg8bit.png";
   "leftImg8bit/val/frankfurt/frankfurt_000000_000576_leftImg8bit.png"].

Definition demo_semseg_outputs : list (list (list Z)) :=
  [[[0; 1]; [255; 5]]; [[1; 1]; [0; -1]]].

(** The last character of a string. *)
Fixpoint last_char (s : string) : option ascii :=
  match s with
  | EmptyString => None
  | String c EmptyString => Some c
  | String _ s' => last_char s'
  end.

(** Where the manifest and the masks of an input are written. *)
Definition pred_txt_of (self : evaluator) (file_name : string) : string :=
  path_join (_temp_dir self) (splitext_root (basename file_name) +:+ "_pred.txt").

Definition png_of (self : evaluator) (file_name : string) (i : nat) (classes : string)
  : string :=
  path_join (_temp_dir self)
    (CityscapesInstanceEvaluator.png_name (splitext_root (basename file_name)) i classes).

(** An image whose pixels are all 0 or 255, and a file holding one. *)
Definition binary_image (pixels : list (list Z)) : Prop :=
  Forall (Forall (fun v => v = 0 \/ v = 255)) pixels.

Definition is_mask_file (fs : gmap string file) (p : string) : Prop :=
  exists pixels, fs !! p = Some (ImageFile pixels) /\ binary_image pixels.

(** A mask of zeros and ones. *)
Definition binary_mask (mask : list (list Z)) : Prop :=
  Forall (Forall (fun v => v = 0 \/ v = 1)) mask.

(** The class name and the label an instance resolves to, as the loop
    body looks them up. *)
Definition resolve {S} (name2label : gmap string label) (self : evaluator)
    (inst : @CityscapesInstanceEvaluator.instance S) : result (string * label) :=
  classes ← getitem (thing_classes (_metadata self))
                    (CityscapesInstanceEvaluator.pred_class inst);
  lab ← dict_get name2label classes;
  Ok (classes, lab).

(** An instance the loop body can handle: its class resolves to a label
    and its mask is binary. *)
Definition valid_instance {S} (name2label : gmap string label) (self : evaluator)
    (inst : @CityscapesInstanceEvaluator.instance S) : Prop :=
  is_ok (resolve name2label self inst) = true
  /\ binary_mask (CityscapesInstanceEvaluator.pred_mask inst).

(** The manifest line of instance [i]: mask file name, class id, score. *)
Definition manifest_line {S} (str_of_score : S -> string) (self : evaluator)
    (file_name : string) (i : nat) (inst : @CityscapesInstanceEvaluator.instance S)
    (classes : string) (lab : label) : string :=
  basename (png_of self file_name i classes) +:+ " " +:+ pretty (id lab) +:+ " "
  +:+ str_of_score (CityscapesInstanceEvaluator.score inst) +:+ newline.

Definition demo_name2label : gmap string label :=
  list_to_map [("person", Label "person" 24 11 true false);
               ("car", Label "car" 26 13 true false)].

Definition demo_str_of_score (q : Q) : string :=
  pretty (Qnum q) +:+ "/" +:+ pretty (Zpos (Qden q)).

Definition demo_instances : list (@CityscapesInstanceEvaluator.instance Q) :=
  [CityscapesInstanceEvaluator.Instance 1 (9 # 10) [[0; 1]; [1; 1]];
   CityscapesInstanceEvaluator.Instance 0 (1 # 2) [[1; 0]; [0; 0]]].

(** A registry with one constructor; nets and devices are named by
    strings, and every device name is accepted. *)
Definition demo_registry : gmap string (ExtraNeck.constructor string string) :=
  {[ "FPNNeck" := fun c : ExtraNeck.cfg => Ok (ExtraNeck.Module_ string string "fpn neck, fresh parameters" "cpu") ]}.

Definition demo_torch_device (s : string) : result string := Ok s.

(** ** Notions for the further properties *)

(** The files left when the directory [dir] and everything below it are
    removed. *)
Definition removed (dir : string) (fs : gmap string file) : gmap string file :=
  filter (fun kv => startswith kv.1 (dir +:+ "/") = false) fs.

(** A computation that touches neither the files nor the ground truth. *)
Definition keeps_files {A} (m : M A) : Prop :=
  forall w, files (m w).1 = files w /\ gt_tree (m w).1 = gt_tree w.

(** What follows the comparison in a coordinator's [evaluate]: it never
    returns [None], removes the scratch directory [dir] exactly when a
    mapping is returned, and changes no other file. *)
Definition finishes {R} (dir : string) (m : M (option R)) : Prop :=
  forall w,
    match (m w).2 with
    | Ok (Some _) => files (m w).1 = removed dir (files w)
    | Ok None => False
    | Raise _ => files (m w).1 = files w
    end.

(** The file discipline of a coordinator's [evaluate] around the
    comparison of the scorer [sc] with the arguments [a]: it never returns
    [None]; when a mapping is returned the files are those the comparison
    left, less the scratch directory [dir]; when an exception escapes they
    are as they were before the call or as the comparison left them, the
    scratch directory included. *)
Definition disciplined {T R} (sc : scorer T) (a : scorer_args) (dir : string)
    (m : M (option R)) : Prop :=
  forall w,
    match (m w).2 with
    | Ok (Some _) =>
        exists preds gts,
          files (m w).1 = removed dir (evaluateImgLists sc (files w) preds gts a).1
    | Ok None => False
    | Raise _ =>
        files (m w).1 = files w
        \/ exists preds gts, files (m w).1 = (evaluateImgLists sc (files w) preds gts a).1
    end.

(** The comparison of [sc], called with the arguments [a], changes files
    below [dir] only. *)
Definition confined {R} (dir : string) (sc : scorer R) (a : scorer_args) : Prop :=
  forall fs preds gts,
    removed dir (evaluateImgLists sc fs preds gts a).1 = removed dir fs.

(** The comparison of [sc] writes no file but the one it is handed as
    [gtInstancesFile]. *)
Definition writes_instances_file {R} (sc : scorer R) : Prop :=
  forall fs preds gts a p,
    p <> gtInstancesFile a -> (evaluateImgLists sc fs preds gts a).1 !! p = fs !! p.

(** A world with cityscapes ground truth and a file that belongs to no
    evaluator. *)
Definition demo_round_world : world :=
  World {[ "/data/notes.txt" := TextFile ["keep"] ]}
        [("aachen", ["aachen_000000_000019_gtFine_instanceIds.png";
                     "aachen_000000_000019_gtFine_labelIds.png"])] [].

(** The mapping the semantic evaluator returns on the fixed scorer. *)
Definition demo_semseg_ret : metrics Q :=
  {[ "sem_seg" :=
       <["IoU" := pct (1 # 2)]>
       (<["iIoU" := pct (1 # 4)]>
       (<["IoU_sup" := pct (3 # 4)]>
       {[ "iIoU_sup" := pct (1 # 8) ]})) ]}.

(** Scorers that fail: one finds no prediction, one raises in the
    comparison after it wrote a file, one answers with a single average. *)
Definition demo_no_prediction_scorer : scorer (gmap string Q) :=
  Scorer _ (fun _ _ _ => Raise (External "no prediction"))
         (fun fs _ _ _ => (fs, Ok demo_semseg_results)).

Definition demo_raising_scorer : scorer (gmap string Q) :=
  Scorer _ demo_prediction
         (fun fs _ _ a => (<[path_join (predictionPath a) "partial.json" := TextFile []]> fs,
                           Raise (External "comparison"))).

Definition demo_short_scorer : scorer (gmap string Q) :=
  Scorer _ demo_prediction (fun fs _ _ _ => (fs, Ok {[ "averageScoreClasses" := 1 # 2 ]})).

(** A semantic scorer whose comparison writes its results into the
    prediction directory. *)
Definition demo_reporting_scorer : scorer (gmap string Q) :=
  Scorer _ demo_prediction
         (fun fs _ _ a => (<[path_join (predictionPath a) "results.json" := TextFile ["{}"]]> fs,
                           Ok demo_semseg_results)).

Definition demo_label_gt : string := "/gt/aachen/aachen_000000_000019_gtFine_labelIds.png".

Definition demo_label_pred : string :=
  "/tmp/cityscapes_eval_a/aachen_000000_000019_gtFine_labelIds_pred.png".

(** The evaluator of the examples with a skip interval of zero, and a
    ground-truth directory that holds a file which is no frame. *)
Definition zero_skip_self : evaluator :=
  Evaluator "viper" (Metadata ["person"; "car"] "/gt") 20 0
            "/tmp/cityscapes_eval_a" "/tmp/cityscapes_eval_a".

Definition stray_video_world : world :=
  World ∅ [("001", ["README.txt"; "001_00000.png"])] [].

(** The manifest of an input is complete in [fs]: it holds one line per
    instance, the k-th naming the mask file, class id and score of
    instance k, and the mask file of every instance holds a 0/255 image. *)
Definition manifest_complete {S} (name2label : gmap string label)
    (str_of_score : S -> string) (self : evaluator) (fs : gmap string file)
    (file_name : string) (output : list (@CityscapesInstanceEvaluator.instance S)) : Prop :=
  exists lines : list string,
    fs !! pred_txt_of self file_name = Some (TextFile lines)
    /\ length lines = length output
    /\ forall (k : nat) (inst : CityscapesInstanceEvaluator.instance),
         output !! k = Some inst ->
         exists classes lab,
           resolve name2label self inst = Ok (classes, lab)
           /\ lines !! k
              = Some (manifest_line str_of_score self file_name k inst classes lab)
           /\ is_mask_file fs (png_of self file_name k classes).

(** The mapping the temporal evaluator returns on the fixed scorer. *)
Definition demo_video_ret : metrics Q :=
  <["sem_seg_ImgVid" :=
      <["ImgVid_IoU_Total" :=
          blend (mean3 (pct (1 # 5)) (pct (3 # 10)) (pct (7 # 10))) (pct (1 # 2))]>
      {[ "ImgVid_sup_IoU_Total" :=
           blend (mean3 (pct (2 # 5)) (pct (1 # 10)) (pct (9 # 10))) (pct (3 # 4)) ]}]>
  (<["sem_seg_Vid" :=
      <["VIoU_total" := mean3 (pct (1 # 5)) (pct (3 # 10)) (pct (7 # 10))]>
      {[ "VIoU_sup_total" := mean3 (pct (2 # 5)) (pct (1 # 10)) (pct (9 # 10)) ]}]>
  {[ "sem_seg" :=
      <["IoU" := pct (1 # 2)]>
      (<["IoU_sup" := pct (3 # 4)]>
      (<["VIoU_5" := pct (1 # 5)]>
      (<["VIoU_sup_5" := pct (2 # 5)]>
      (<["VIoU_10" := pct (3 # 10)]>
      (<["VIoU_sup_10" := pct (1 # 10)]>
      (<["VIoU_15" := pct (7 # 10)]>
      {[ "VIoU_sup_15" := pct (9 # 10) ]})))))) ]}).

(** The mapping the instance evaluator returns on the fixed scorer. *)
Definition demo_instance_ret : metrics Q :=
  {[ "segm" := <["AP" := s_mul (1 # 4) (s_of_Z 100)]>
                 {[ "AP50" := s_mul (1 # 2) (s_of_Z 100) ]} ]}.

(** ** CityscapesEvaluator.reset *)

Module CityscapesEvaluator.

(** A [tempfile.TemporaryDirectory] object: the name of its directory and
    whether its finalizer is still armed.  [cleanup()] disarms it. *)
Record tempdir : Type := TempDir {
  td_name : string;
  td_armed : bool
}.

(** What [reset] touches: the directories that exist and the log. *)
Record scratch : Type := Scratch {
  dirs : gset string;
  infos : list string
}.

(** Dropping the last reference to a [TemporaryDirectory] runs its
    finalizer at once: an armed one removes its directory. *)
Definition finalize (old : option tempdir) (ds : gset string) : gset string :=
  match old with
  | Some td => if td_armed td then ds ∖ {[ td_name td ]} else ds
  | None => ds
  end.

(** [reset].  [old] is the object bound to [self._working_dir] before the
    call, [None] before the first round; nothing else refers to it, so
    binding the new object at line 38 finalizes it.  [fresh] is the name
    [tempfile.TemporaryDirectory] picks for the directory it creates;
    [gathered] is what [comm.all_gather] answers, one name per worker in
    rank order.  The result holds the directories and the log, the
    evaluator with [_working_dir] and [_temp_dir] set, and the object now
    bound to [self._working_dir]. *)
Definition reset (self : evaluator) (old : option tempdir) (fresh : string)
    (gathered : list string) (st : scratch)
  : (scratch * evaluator * tempdir) * result unit :=
  let bound := finalize old ({[ fresh ]} ∪ dirs st) in
  let named (temp_dir : string) :=
    Evaluator (dataset_type self) (_metadata self) (inf_start self) (skip_interv self)
              fresh temp_dir in
  match getitem gathered 0 with
  | Raise e => ((Scratch bound (infos st), named fresh, TempDir fresh true), Raise e)
  | Ok temp_dir =>
      let differs := negb (String.eqb temp_dir fresh) in
      ((Scratch (if differs then bound ∖ {[ fresh ]} else bound)
                (infos st ++ ["Writing cityscapes results to temporary directory "
                              +:+ temp_dir +:+ " ..."]),
        named temp_dir,
        TempDir fresh (negb differs)),
       Ok tt)
  end.

End CityscapesEvaluator.

(** The directory object of a round whose [evaluate] did not clean up. *)
Definition demo_stale_dir : CityscapesEvaluator.tempdir :=
  CityscapesEvaluator.TempDir "/tmp/cityscapes_eval_a" true.

(** A registry whose constructor fails, and a device parser that accepts
    only "cpu". *)
Definition demo_failing_registry : gmap string (ExtraNeck.constructor string string) :=
  {[ "Broken" := fun c : ExtraNeck.cfg => Raise (External "constructor") ]}.

Definition demo_cpu_only (s : string) : result string :=
  if String.eqb s "cpu" then Ok s else Raise (External "device").

(** * Properties *)

(** ** The Python primitives on examples *)

Example split_path : split "/" "gt/001/001_00030.png" = ["gt"; "001"; "001_00030.png"].
Proof. reflexivity. Qed.

Example split_empty : split "/" "" = [""].
Proof. reflexivity. Qed.

Example int_padded : int "00030" = Ok 30.
Proof. reflexivity. Qed.

Example int_signed : int " -12 " = Ok (-12).
Proof. reflexivity. Qed.

Example int_word : int "labelIds" = Raise ValueError.
Proof. reflexivity. Qed.

Example int_underscore : int "1_000" = Ok 1000 /\ int "1__0" = Raise ValueError.
Proof. split; reflexivity. Qed.

Example splitext_ex :
  splitext_root "a.b/c.tar.gz" = "a.b/c.tar" /\ splitext_root ".bashrc" = ".bashrc"
  /\ splitext_root "x/..a.png" = "x/..a" /\ splitext_root "a.b/c" = "a.b/c".
Proof. repeat split; reflexivity. Qed.

Example sorted_ex : sorted ["b_10"; "a_5"; "a_10"] = ["a_10"; "a_5"; "b_10"].
Proof. reflexivity. Qed.

Example path_join_ex :
  path_join "/tmp/x" "a.png" = "/tmp/x/a.png" /\ path_join "/tmp/x/" "a.png" = "/tmp/x/a.png"
  /\ path_join "" "a.png" = "a.png" /\ path_join "/tmp" "/a" = "/a".
Proof. repeat split; reflexivity. Qed.

Example glob_ex :
  glob_in "/gt" "_gtFine_labelIds.png"
          [("aachen", ["a_000019_gtFine_labelIds.png"; "a_000019_gtFine_color.png"; ".x_gtFine_labelIds.png"]);
           (".git", ["b_gtFine_labelIds.png"])]
  = ["/gt/aachen/a_000019_gtFine_labelIds.png"].
Proof. reflexivity. Qed.

Section Workers.
Context {S : Type} `{Scalar S}.
Variables (inst_eval : scorer (gmap string (gmap string S)))
          (sem_eval vid_eval : scorer (gmap string S))
          (args0 : scorer_args).

(** C7. On a worker of rank greater than zero, [evaluate] of each of the
    three evaluators passes the barrier and returns [None]: the only
    thing it does is the synchronisation, so it enumerates no ground
    truth, scores nothing and leaves the scratch directory in place. *)
Theorem evaluate_on_worker_returns_none (rank : nat) (self : evaluator) (w : world) :
  (0 < rank)%nat ->
  CityscapesInstanceEvaluator.evaluate inst_eval args0 rank self w
    = (with_trace w (trace w ++ [EvSynchronize]), Ok None)
  /\ CityscapesSemSegEvaluator.evaluate sem_eval args0 rank self w
    = (with_trace w (trace w ++ [EvSynchronize]), Ok None)
  /\ ViperCityscapesSemSegEvaluator.evaluate vid_eval args0 rank self w
    = (with_trace w (trace w ++ [EvSynchronize]), Ok None).
Proof.
  intros Hrank.
  assert (Hb : (0 <? rank)%nat = true) by (apply Nat.ltb_lt; exact Hrank).
  unfold CityscapesInstanceEvaluator.evaluate, CityscapesSemSegEvaluator.evaluate,
    ViperCityscapesSemSegEvaluator.evaluate.
  repeat split; cbn [mbind M_bind emit]; rewrite Hb; reflexivity.
Qed.
End Workers.

Lemma evaluate_on_worker_witness :
  CityscapesInstanceEvaluator.evaluate demo_instance_scorer no_args 1 (demo_self "viper") empty_world
    = (with_trace empty_world [EvSynchronize], Ok None)
  /\ CityscapesSemSegEvaluator.evaluate demo_semseg_scorer no_args 1 (demo_self "viper") empty_world
    = (with_trace empty_world [EvSynchronize], Ok None)
  /\ ViperCityscapesSemSegEvaluator.evaluate demo_semseg_scorer no_args 1 (demo_self "viper") empty_world
    = (with_trace empty_world [EvSynchronize], Ok None).
Proof.
  apply (evaluate_on_worker_returns_none demo_instance_scorer demo_semseg_scorer
           demo_semseg_scorer no_args 1 (demo_self "viper") empty_world).
  lia.
Defined.

(** ** Running the monad *)

Lemma bind_run {A B} (m : M A) (k : A -> M B) (w : world) :
  (m ≫= k) w = match m w with
               | (w', Ok a) => k a w'
               | (w', Raise e) => (w', Raise e)
               end.
Proof. reflexivity. Qed.

Lemma ret_run {A} (a : A) (w : world) : (mret a : M A) w = (w, Ok a).
Proof. reflexivity. Qed.

Lemma emit_run (e : event) (w : world) :
  emit e w = (with_trace w (trace w ++ [e]), Ok tt).
Proof. reflexivity. Qed.

Lemma lift_run {A} (r : result A) (w : world) : lift r w = (w, r).
Proof. reflexivity. Qed.

Lemma glob_run (d suffix : string) (w : world) :
  glob d suffix w
    = (with_trace w (trace w ++ [EvGlob (path_join (path_join d "*") ("*" +:+ suffix))]),
       Ok (glob_in d suffix (gt_tree w))).
Proof. reflexivity. Qed.

Lemma with_trace_twice (w : world) (t1 t2 : list event) :
  with_trace (with_trace w t1) t2 = with_trace w t2.
Proof. reflexivity. Qed.

Lemma trace_with_trace (w : world) (t : list event) : trace (with_trace w t) = t.
Proof. reflexivity. Qed.

Lemma files_with_trace (w : world) (t : list event) : files (with_trace w t) = files w.
Proof. reflexivity. Qed.

Lemma gt_tree_with_trace (w : world) (t : list event) : gt_tree (with_trace w t) = gt_tree w.
Proof. reflexivity. Qed.

Create Rewrite HintDb run.
#[global] Hint Rewrite @bind_run @ret_run emit_run @lift_run glob_run with_trace_twice
  trace_with_trace files_with_trace gt_tree_with_trace : run.

Ltac run := repeat (autorewrite with run; cbn beta iota; cbn [fst snd]).

Lemma get_prediction_run {R} (sc : scorer R) (a : scorer_args) (gt : string) (w : world) :
  get_prediction sc a gt w
    = (with_trace w (trace w ++ [EvGetPrediction gt]), getPrediction sc (files w) a gt).
Proof. reflexivity. Qed.

Lemma evaluate_img_lists_run {R} (sc : scorer R) (preds gts : list string)
    (a : scorer_args) (w : world) :
  evaluate_img_lists sc preds gts a w
    = (World (evaluateImgLists sc (files w) preds gts a).1 (gt_tree w)
             (trace w ++ [EvScore preds gts]),
       (evaluateImgLists sc (files w) preds gts a).2).
Proof. reflexivity. Qed.

Lemma map_M_get_prediction {R} (sc : scorer R) (a : scorer_args)
    (gts preds : list string) (w : world) :
  Forall2 (fun gt p => getPrediction sc (files w) a gt = Ok p) gts preds ->
  map_M (get_prediction sc a) gts w
    = (with_trace w (trace w ++ map EvGetPrediction gts), Ok preds).
Proof.
  intros HF. revert w preds HF.
  induction gts as [|gt gts IH]; intros w preds HF.
  - inversion HF; subst. destruct w as [f g t]. cbn. unfold with_trace. cbn.
    rewrite app_nil_r. reflexivity.
  - inversion HF as [|? p ? preds' Hp HF']; subst.
    cbn [map_M]. rewrite bind_run, get_prediction_run, Hp, bind_run.
    rewrite (IH (with_trace w (trace w ++ [EvGetPrediction gt])) preds') by exact HF'.
    run. rewrite <- app_assoc. reflexivity.
Qed.

Lemma assert_nonempty_ok {A} (l : list A) (w : world) :
  l <> [] -> assert_nonempty l w = (w, Ok tt).
Proof. destruct l; [congruence|reflexivity]. Qed.

Lemma assert_nonempty_nil {A} (w : world) :
  assert_nonempty (@nil A) w = (w, Raise AssertionError).
Proof. reflexivity. Qed.

Lemma sorted_nil : sorted [] = [].
Proof. reflexivity. Qed.

(** ** Missing ground truth *)

Section NoGroundTruth.
Context {S : Type} `{Scalar S}.
Variables (inst_eval : scorer (gmap string (gmap string S)))
          (sem_eval vid_eval : scorer (gmap string S))
          (args0 : scorer_args).

(** The instance and the single-image semantic evaluators assert on an
    empty enumeration. *)
Lemma instance_evaluate_no_ground_truth (self : evaluator) (w : world) :
  glob_in (gt_dir (_metadata self)) "_gtFine_instanceIds.png" (gt_tree w) = [] ->
  CityscapesInstanceEvaluator.evaluate inst_eval args0 0 self w
    = (enumerated self "_gtFine_instanceIds.png" w, Raise AssertionError).
Proof.
  intros Hg. unfold CityscapesInstanceEvaluator.evaluate, info_evaluating.
  cbn [Nat.ltb Nat.leb]. run. rewrite Hg, assert_nonempty_nil.
  unfold enumerated. rewrite <- !app_assoc. reflexivity.
Qed.

Lemma semseg_evaluate_no_ground_truth (self : evaluator) (w : world) :
  glob_in (gt_dir (_metadata self)) "_gtFine_labelIds.png" (gt_tree w) = [] ->
  CityscapesSemSegEvaluator.evaluate sem_eval args0 0 self w
    = (enumerated self "_gtFine_labelIds.png" w, Raise AssertionError).
Proof.
  intros Hg. unfold CityscapesSemSegEvaluator.evaluate, info_evaluating.
  cbn [Nat.ltb Nat.leb]. run. rewrite Hg, assert_nonempty_nil.
  unfold enumerated. rewrite <- !app_assoc. reflexivity.
Qed.

(** C3, at the input where it fails.  When the enumeration of the
    temporal evaluator is empty, [evaluate] on the coordinator stops at
    [groundTruthImgList[0]] with an [IndexError]; the assertion that
    follows the subsampling is not reached. *)
Theorem viper_evaluate_no_ground_truth (self : evaluator) (w : world) :
  glob_in (gt_dir (_metadata self)) (viper_suffix self) (gt_tree w) = [] ->
  ViperCityscapesSemSegEvaluator.evaluate vid_eval args0 0 self w
    = (enumerated self (viper_suffix self) w, Raise IndexError).
Proof.
  unfold viper_suffix. intros Hg.
  unfold ViperCityscapesSemSegEvaluator.evaluate, ViperCityscapesSemSegEvaluator.enumerate,
    info_evaluating.
  cbn [Nat.ltb Nat.leb]. run.
  destruct (String.eqb (dataset_type self) "cityscapes");
    run; rewrite Hg; cbn [fst snd]; rewrite sorted_nil; cbn; run;
    unfold enumerated; rewrite <- !app_assoc; reflexivity.
Qed.
End NoGroundTruth.

Lemma viper_evaluate_no_ground_truth_witness :
  ViperCityscapesSemSegEvaluator.evaluate demo_semseg_scorer no_args 0 (demo_self "viper") empty_world
    = (enumerated (demo_self "viper") "" empty_world, Raise IndexError).
Proof.
  apply (viper_evaluate_no_ground_truth demo_semseg_scorer no_args (demo_self "viper") empty_world).
  reflexivity.
Defined.

(** ** The instance metrics *)

Lemma cleanup_run (dir : string) (w : world) :
  cleanup dir w
    = (World (filter (fun kv => startswith kv.1 (dir +:+ "/") = false) (files w))
             (gt_tree w) (trace w ++ [EvCleanup dir]), Ok tt).
Proof. reflexivity. Qed.

Lemma dict_get_Some {V} (d : gmap string V) (k : string) (v : V) :
  d !! k = Some v -> dict_get d k = Ok v.
Proof. intros E. unfold dict_get. rewrite E. reflexivity. Qed.

Section InstanceMetrics.
Context {S : Type} `{Scalar S}.
Variables (cityscapes_eval : scorer (gmap string (gmap string S)))
          (args0 : scorer_args).

(** C6. On the coordinator, when ground truth is found, every
    prediction is located and the scorer answers with averages [allAp]
    and [allAp50%], [evaluate] of the instance evaluator returns a
    mapping with the single group "segm", whose keys are exactly "AP"
    and "AP50", each the scorer's average multiplied by 100.  The files
    are those the scorer left, less the scratch directory. *)
Theorem instance_evaluate_segm (self : evaluator) (w : world)
    (gts preds : list string) (left : gmap string file)
    (all : gmap string (gmap string S))
    (averages : gmap string S) (allAp allAp50 : S) :
  glob_in (gt_dir (_metadata self)) "_gtFine_instanceIds.png" (gt_tree w) = gts ->
  gts <> [] ->
  Forall2 (fun gt p =>
             getPrediction cityscapes_eval (files w)
               (CityscapesInstanceEvaluator.set_args args0 self) gt = Ok p) gts preds ->
  evaluateImgLists cityscapes_eval (files w) preds gts
    (CityscapesInstanceEvaluator.set_args args0 self) = (left, Ok all) ->
  all !! "averages" = Some averages ->
  averages !! "allAp" = Some allAp ->
  averages !! "allAp50%" = Some allAp50 ->
  exists (ret : metrics S) (segm : gmap string S),
    CityscapesInstanceEvaluator.evaluate cityscapes_eval args0 0 self w
      = (scored self gts preds left (enumerated self "_gtFine_instanceIds.png" w),
         Ok (Some ret))
    /\ dom ret = {[ "segm" ]}
    /\ ret !! "segm" = Some segm
    /\ dom segm = {[ "AP"; "AP50" ]}
    /\ segm !! "AP" = Some (s_mul allAp (s_of_Z 100))
    /\ segm !! "AP50" = Some (s_mul allAp50 (s_of_Z 100)).
Proof.
  intros Hg Hne Hpred Hscore Hav Hap Hap50.
  eexists _, _. split; [|split; [|split; [|split; [|split]]]].
  - unfold CityscapesInstanceEvaluator.evaluate, info_evaluating.
    cbn [Nat.ltb Nat.leb]. run. rewrite Hg.
    rewrite assert_nonempty_ok by exact Hne. run.
    rewrite (map_M_get_prediction _ _ gts preds) by (run; exact Hpred). run.
    rewrite evaluate_img_lists_run. run. rewrite Hscore. cbn [fst snd].
    rewrite (dict_get_Some _ _ _ Hav). run.
    rewrite (dict_get_Some _ _ _ Hap). run.
    rewrite (dict_get_Some _ _ _ Hap50). run.
    rewrite cleanup_run. unfold scored, enumerated. run. cbn [files gt_tree trace].
    rewrite <- !app_assoc. reflexivity.
  - apply dom_singleton_L.
  - apply lookup_singleton_eq.
  - rewrite dom_insert_L, dom_singleton_L. reflexivity.
  - apply lookup_insert_eq.
  - rewrite lookup_insert_ne by discriminate. apply lookup_singleton_eq.
Qed.
End InstanceMetrics.

Lemma instance_evaluate_segm_witness :
  exists (ret : metrics Q) (segm : gmap string Q),
    CityscapesInstanceEvaluator.evaluate demo_instance_scorer no_args 0
      (demo_self "cityscapes") demo_instance_world
      = (scored (demo_self "cityscapes")
           ["/gt/aachen/aachen_000000_000019_gtFine_instanceIds.png"]
           ["/tmp/cityscapes_eval_a/aachen_000000_000019_gtFine_instanceIds_pred.png"]
           {[ "/tmp/cityscapes_eval_a/gtInstances.json" := TextFile ["{}"] ]}
           (enumerated (demo_self "cityscapes") "_gtFine_instanceIds.png" demo_instance_world),
         Ok (Some ret))
    /\ dom ret = {[ "segm" ]}
    /\ ret !! "segm" = Some segm
    /\ dom segm = {[ "AP"; "AP50" ]}
    /\ segm !! "AP" = Some (s_mul (1 # 4) (s_of_Z 100))
    /\ segm !! "AP50" = Some (s_mul (1 # 2) (s_of_Z 100)).
Proof.
  apply (instance_evaluate_segm demo_instance_scorer no_args (demo_self "cityscapes")
           demo_instance_world
           ["/gt/aachen/aachen_000000_000019_gtFine_instanceIds.png"]
           ["/tmp/cityscapes_eval_a/aachen_000000_000019_gtFine_instanceIds_pred.png"]
           {[ "/tmp/cityscapes_eval_a/gtInstances.json" := TextFile ["{}"] ]}
           {[ "averages" := <["allAp" := 1 # 4]> {[ "allAp50%" := 1 # 2 ]} ]}
           (<["allAp" := 1 # 4]> {[ "allAp50%" := 1 # 2 ]}) (1 # 4) (1 # 2)).
  - reflexivity.
  - discriminate.
  - repeat constructor.
  - reflexivity.
  - reflexivity.
  - reflexivity.
  - reflexivity.
Defined.

(** ** Strings: segments and suffixes *)

Lemma split_nonempty (sep : ascii) (s : string) : split sep s <> [].
Proof.
  destruct s as [|c s]; cbn; [discriminate|].
  destruct (Ascii.eqb c sep); [discriminate|].
  destruct (split sep s); discriminate.
Qed.

Lemma split_lacks (sep : ascii) (s : string) : lacks sep s = true -> split sep s = [s].
Proof.
  induction s as [|c s IH]; cbn; [reflexivity|].
  intros Hl. apply andb_prop in Hl as [Hc Hs].
  apply negb_true_iff in Hc. rewrite Hc, (IH Hs). reflexivity.
Qed.

Lemma last_seg_cons (sep c : ascii) (s : string) :
  last_seg sep (String c s)
  = if Ascii.eqb c sep then last_seg sep s
    else match split sep s with
         | [p] => String c p
         | _ => last_seg sep s
         end.
Proof.
  unfold last_seg. cbn [split].
  destruct (Ascii.eqb c sep).
  - pose proof (split_nonempty sep s). destruct (split sep s); [congruence|reflexivity].
  - pose proof (split_nonempty sep s).
    destruct (split sep s) as [|p [|q ps]]; [congruence|reflexivity|reflexivity].
Qed.

Lemma getitem_last {A} (l : list A) (d : A) : l <> [] -> getitem l (-1) = Ok (List.last l d).
Proof.
  intros Hne. unfold getitem.
  assert (Hlen : (0 < length l)%nat) by (destruct l; [congruence|cbn; lia]).
  replace (-1 <? 0) with true by reflexivity.
  replace ((0 <=? -1 + Z.of_nat (length l)) && (-1 + Z.of_nat (length l) <? Z.of_nat (length l)))
    with true by (symmetry; apply andb_true_intro; split; [apply Z.leb_le|apply Z.ltb_lt]; lia).
  replace (Z.to_nat (-1 + Z.of_nat (length l))) with (length l - 1)%nat by lia.
  clear Hlen. induction l as [|x l IH]; [congruence|].
  destruct l as [|y l]; [reflexivity|].
  cbn [length List.last]. replace (Datatypes.S (Datatypes.S (length l)) - 1)%nat
    with (Datatypes.S (length l)) by lia.
  cbn [nth_error]. specialize (IH ltac:(discriminate)). cbn [length] in IH.
  replace (Datatypes.S (length l) - 1)%nat with (length l) in IH by lia.
  destruct l as [|z l]; cbn in *; exact IH.
Qed.

Lemma getitem_last_split (sep : ascii) (s : string) :
  getitem (split sep s) (-1) = Ok (last_seg sep s).
Proof. apply getitem_last, split_nonempty. Qed.

Lemma append_nil_l (s : string) : EmptyString +:+ s = s.
Proof. reflexivity. Qed.

Lemma append_cons (c : ascii) (a s : string) : String c a +:+ s = String c (a +:+ s).
Proof. reflexivity. Qed.

(** The last segment of a string that ends with a separator-free suffix
    still ends with that suffix. *)
Lemma last_seg_keeps_suffix (sep : ascii) (a suf : string) :
  lacks sep suf = true -> exists a', last_seg sep (a +:+ suf) = a' +:+ suf.
Proof.
  intros Hs. induction a as [|c a [a' IH]].
  - exists EmptyString. rewrite append_nil_l. unfold last_seg.
    rewrite (split_lacks _ _ Hs). reflexivity.
  - rewrite append_cons, last_seg_cons.
    destruct (Ascii.eqb c sep); [exists a'; exact IH|].
    unfold last_seg in IH.
    destruct (split sep (a +:+ suf)) as [|p [|q ps]] eqn:E.
    + exfalso. exact (split_nonempty _ _ E).
    + cbn in IH. subst p. exists (String c a'). reflexivity.
    + exists a'. unfold last_seg. rewrite E. exact IH.
Qed.

(** What follows the last separator. *)
Lemma last_seg_after_sep (sep : ascii) (a b : string) :
  lacks sep b = true -> last_seg sep (a +:+ String sep b) = b.
Proof.
  intros Hb. induction a as [|c a IH].
  - rewrite append_nil_l, last_seg_cons, Ascii.eqb_refl.
    unfold last_seg. rewrite (split_lacks _ _ Hb). reflexivity.
  - rewrite append_cons, last_seg_cons.
    destruct (Ascii.eqb c sep); [exact IH|].
    unfold last_seg in IH |- *.
    destruct (split sep (a +:+ String sep b)) as [|p [|q ps]] eqn:E; try exact IH.
    cbn in IH. subst p.
    (* a single segment cannot contain the separator *)
    exfalso. clear -E.
    assert (Hlen : forall s, (1 < length (split sep (s +:+ String sep b)))%nat).
    { clear. induction s as [|c s IH]; rewrite ?append_nil_l, ?append_cons; cbn [split].
      - rewrite Ascii.eqb_refl. pose proof (split_nonempty sep b).
        destruct (split sep b); [congruence|cbn; lia].
      - destruct (Ascii.eqb c sep); [cbn; lia|].
        destruct (split sep (s +:+ String sep b)) as [|p [|q ps]]; cbn in *; lia. }
    specialize (Hlen a). rewrite E in Hlen. cbn in Hlen. lia.
Qed.

Lemma endswith_app (s suf : string) :
  endswith s suf = true -> exists a, s = a +:+ suf.
Proof.
  induction s as [|c s IH]; cbn [endswith].
  - rewrite orb_false_r. intros E. apply String.eqb_eq in E. subst. exists EmptyString. reflexivity.
  - intros E. apply orb_prop in E as [E|E].
    + apply String.eqb_eq in E. exists EmptyString. exact E.
    + destruct (IH E) as [a ->]. exists (String c a). reflexivity.
Qed.

Lemma append_assoc (a b c : string) : (a +:+ b) +:+ c = a +:+ (b +:+ c).
Proof.
  induction a as [|x a IH]; [reflexivity|].
  rewrite !append_cons, IH. reflexivity.
Qed.

Lemma path_join_keeps_suffix (d n suf : string) :
  (exists a, n = a +:+ suf) -> exists a, path_join d n = a +:+ suf.
Proof.
  intros [a ->]. unfold path_join.
  destruct (startswith _ _); [exists a; reflexivity|].
  destruct (String.eqb d ""); [exists a; reflexivity|].
  destruct (endswith d "/").
  - exists (d +:+ a). symmetry. apply append_assoc.
  - exists (d +:+ "/" +:+ a). rewrite !append_assoc. reflexivity.
Qed.

(** ** Frame indices *)

Lemma result_bind_ok {A B} (a : A) (k : A -> result B) : (Ok a ≫= k) = k a.
Proof. reflexivity. Qed.

Lemma result_bind_raise {A B} (e : exn) (k : A -> result B) : (Raise e ≫= k) = Raise e.
Proof. reflexivity. Qed.

(** A cityscapes label file carries no frame index where the temporal
    evaluator looks for one. *)
Lemma frame_index_labelIds (a : string) :
  ViperCityscapesSemSegEvaluator.frame_index (a +:+ "_gtFine_labelIds.png") = Raise ValueError.
Proof.
  unfold ViperCityscapesSemSegEvaluator.frame_index.
  rewrite getitem_last_split, result_bind_ok.
  destruct (last_seg_keeps_suffix "/" a "_gtFine_labelIds.png") as [a' E]; [reflexivity|].
  rewrite E, getitem_last_split, result_bind_ok.
  change (a' +:+ "_gtFine_labelIds.png") with (a' +:+ ("_gtFine" +:+ String "_" "labelIds.png")).
  rewrite <- append_assoc, last_seg_after_sep by reflexivity.
  reflexivity.
Qed.

Lemma glob_in_suffix (d suf : string) (tree : list (string * list string)) (p : string) :
  In p (glob_in d suf tree) -> exists a, p = a +:+ suf.
Proof.
  unfold glob_in. rewrite in_flat_map. intros [[sub names] [_ Hp]]. cbn [fst snd] in Hp.
  destruct (ishidden sub); [destruct Hp|].
  apply in_map_iff in Hp as [n [<- Hn]].
  apply filter_In in Hn as [_ Hn]. unfold fnmatch_star in Hn.
  apply andb_prop in Hn as [_ Hn].
  apply path_join_keeps_suffix, endswith_app, Hn.
Qed.

Lemma sorted_In (l : list string) (p : string) : In p (sorted l) -> In p l.
Proof.
  intros Hp. eapply Permutation.Permutation_in; [|exact Hp].
  symmetry. apply StringSort.Permuted_sort.
Qed.

Lemma sorted_nonempty (l : list string) : l <> [] -> sorted l <> [].
Proof.
  intros Hne E. apply Hne.
  apply Permutation.Permutation_nil. symmetry.
  rewrite <- E. apply StringSort.Permuted_sort.
Qed.

Lemma getitem_0 {A} (x : A) (l : list A) : getitem (x :: l) 0 = Ok x.
Proof.
  unfold getitem. cbn [length Z.ltb Z.compare].
  replace (0 <=? 0) with true by reflexivity.
  replace (0 <? Z.of_nat (Datatypes.S (length l))) with true
    by (symmetry; apply Z.ltb_lt; lia).
  reflexivity.
Qed.

Section Cityscapes.
Context {S : Type} `{Scalar S}.
Variables (vid_eval : scorer (gmap string S)) (args0 : scorer_args).

(** C9, as the code has it.  With dataset type 'cityscapes' the temporal
    evaluator's [evaluate] never completes on the coordinator, and stops
    before any prediction is looked up or scored: with no ground-truth
    file it raises [IndexError] at [groundTruthImgList[0]], and otherwise
    [ValueError], because the frame index of the first file is parsed from
    "labelIds".  The unbound accumulator is never reached. *)
Theorem viper_evaluate_cityscapes (self : evaluator) (w : world) :
  dataset_type self = "cityscapes" ->
  ViperCityscapesSemSegEvaluator.evaluate vid_eval args0 0 self w
    = (enumerated self "_gtFine_labelIds.png" w,
       Raise (match glob_in (gt_dir (_metadata self)) "_gtFine_labelIds.png" (gt_tree w) with
              | [] => IndexError
              | _ :: _ => ValueError
              end)).
Proof.
  intros Hd.
  unfold ViperCityscapesSemSegEvaluator.evaluate, ViperCityscapesSemSegEvaluator.enumerate,
    info_evaluating.
  cbn [Nat.ltb Nat.leb]. run. rewrite Hd. cbn [String.eqb Ascii.eqb Bool.eqb]. run.
  set (gts := glob_in _ _ _).
  assert (Hsuf : forall p, In p (sorted gts) -> exists a, p = a +:+ "_gtFine_labelIds.png").
  { intros p Hp. apply sorted_In in Hp. exact (glob_in_suffix _ _ _ _ Hp). }
  assert (Hne : gts <> [] -> sorted gts <> []) by apply sorted_nonempty.
  unfold ViperCityscapesSemSegEvaluator.subsample.
  destruct gts as [|g gts'].
  - rewrite sorted_nil. cbn. unfold enumerated. rewrite <- !app_assoc. reflexivity.
  - destruct (sorted (g :: gts')) as [|p ps]; [exfalso; apply Hne; [discriminate|reflexivity]|].
    rewrite getitem_0, result_bind_ok.
    destruct (Hsuf p (or_introl eq_refl)) as [a ->].
    rewrite frame_index_labelIds, result_bind_raise. run.
    unfold enumerated. rewrite <- !app_assoc. reflexivity.
Qed.
End Cityscapes.

Lemma viper_evaluate_cityscapes_witness :
  ViperCityscapesSemSegEvaluator.evaluate demo_semseg_scorer no_args 0
    (demo_self "cityscapes") demo_cityscapes_world
  = (enumerated (demo_self "cityscapes") "_gtFine_labelIds.png" demo_cityscapes_world,
     Raise ValueError).
Proof.
  apply (viper_evaluate_cityscapes demo_semseg_scorer no_args
           (demo_self "cityscapes") demo_cityscapes_world).
  reflexivity.
Defined.

(** C9 as stated fails: on two cityscapes label files the coordinator's
    [evaluate] does not end in an unbound-name error (it ends in
    [ValueError]). *)
Lemma viper_cityscapes_not_unbound :
  (ViperCityscapesSemSegEvaluator.evaluate demo_semseg_scorer no_args 0
     (demo_self "cityscapes") demo_cityscapes_world).2
  <> Raise (UnboundLocalError "groundTruthImgList_tmp").
Proof. vm_compute. discriminate. Qed.

(** ** Temporal subsampling *)

Lemma frame_of_ok (p : string) (i : Z) :
  ViperCityscapesSemSegEvaluator.frame_index p = Ok i -> frame_of p = i.
Proof. unfold frame_of. intros ->. reflexivity. Qed.

(** Where every name carries a frame index and the skip interval is not
    zero, the loop appends the files that pass [kept], in order. *)
Lemma subsample_loop_filter (self : evaluator) (start_idx : Z) (l acc : list string) :
  skip_interv self <> 0 ->
  Forall (fun p => is_ok (ViperCityscapesSemSegEvaluator.frame_index p) = true) l ->
  ViperCityscapesSemSegEvaluator.subsample_loop self start_idx l (Some acc)
    = Ok (Some (acc ++ List.filter (kept self start_idx) l)%list).
Proof.
  intros Hk Hall. revert acc.
  induction Hall as [|p l Hp Hall IH]; intros acc.
  - cbn. rewrite app_nil_r. reflexivity.
  - cbn [ViperCityscapesSemSegEvaluator.subsample_loop List.filter].
    destruct (ViperCityscapesSemSegEvaluator.frame_index p) as [i|e] eqn:E; [|discriminate].
    rewrite result_bind_ok. unfold kept. rewrite (frame_of_ok _ _ E).
    destruct (inf_start self <? i); cbn [andb]; [|apply IH].
    rewrite result_bind_ok. unfold mod_.
    destruct (skip_interv self =? 0) eqn:Ez; [apply Z.eqb_eq in Ez; contradiction|].
    rewrite result_bind_ok.
    destruct (i mod skip_interv self =? start_idx); [|apply IH].
    rewrite IH, <- app_assoc. reflexivity.
Qed.

Lemma subsample_filter (self : evaluator) (first : string) (l : list string) :
  skip_interv self <> 0 ->
  Forall (fun p => is_ok (ViperCityscapesSemSegEvaluator.frame_index p) = true) (first :: l) ->
  ViperCityscapesSemSegEvaluator.subsample self (first :: l) (Some [])
    = Ok (List.filter (kept self (frame_of first)) (first :: l)).
Proof.
  intros Hk Hall. unfold ViperCityscapesSemSegEvaluator.subsample.
  rewrite getitem_0, result_bind_ok.
  pose proof (Forall_inv Hall) as Hf. cbn beta in Hf.
  destruct (ViperCityscapesSemSegEvaluator.frame_index first) as [i|e] eqn:E; [|discriminate].
  rewrite result_bind_ok, (frame_of_ok _ _ E).
  rewrite (subsample_loop_filter self i (first :: l) [] Hk Hall), result_bind_ok.
  reflexivity.
Qed.

Lemma mod_eq_congruent (i s k : Z) :
  0 <= s < k -> (i mod k =? s) = congruent i s k.
Proof.
  intros Hs. unfold congruent.
  destruct (i mod k =? s) eqn:E1; symmetry.
  - apply Z.eqb_eq in E1. apply Z.eqb_eq.
    rewrite (Z.div_mod i k) at 1 by lia. rewrite E1.
    replace (k * (i / k) + s - s) with ((i / k) * k) by lia.
    apply Z.mod_mul. lia.
  - apply Z.eqb_neq in E1. apply Z.eqb_neq. intros E2. apply E1.
    symmetry. apply (Z.mod_unique i k ((i - s) / k) s); [left; exact Hs|].
    pose proof (Z.div_mod (i - s) k ltac:(lia)) as Hd. rewrite E2 in Hd. lia.
Qed.

(** For a first frame index in [0, skip) the code and the specification
    select the same files. *)
Lemma subsample_is_spec (self : evaluator) (first : string) (l : list string) :
  0 <= frame_of first < skip_interv self ->
  Forall (fun p => is_ok (ViperCityscapesSemSegEvaluator.frame_index p) = true) (first :: l) ->
  ViperCityscapesSemSegEvaluator.subsample self (first :: l) (Some [])
    = Ok (spec_subsample self (first :: l)).
Proof.
  intros Hs Hall. rewrite subsample_filter by (lia || exact Hall).
  unfold spec_subsample. f_equal. apply filter_ext. intros p. unfold kept.
  rewrite (mod_eq_congruent _ _ _ Hs). reflexivity.
Qed.

(** The example of the specification: frames 0, 5, ..., 100, warm-up
    offset 20 and skip interval 10 leave the frames 30, 40, ..., 100. *)
Lemma subsample_example :
  ViperCityscapesSemSegEvaluator.subsample (demo_self "viper")
      (sorted (glob_in "/gt" "" (gt_tree demo_video_world))) (Some [])
    = Ok demo_video_kept
  /\ map frame_of (sorted (glob_in "/gt" "" (gt_tree demo_video_world)))
     = [0; 5; 10; 15; 20; 25; 30; 35; 40; 45; 50; 55; 60; 65; 70; 75; 80; 85; 90; 95; 100]
  /\ map frame_of demo_video_kept = [30; 40; 50; 60; 70; 80; 90; 100].
Proof. repeat split; vm_compute; reflexivity. Qed.

(** C1, at the input where it fails.  The ground truth holds the frames
    22, 32 and 42, the warm-up offset is 20 and the skip interval 10.  All
    three frames lie after the warm-up and are congruent to the first
    frame index modulo 10, so the specification selects all three; the
    code compares [index % 10] with 22 itself, selects none, and
    [evaluate] fails its assertion. *)
Theorem subsample_misses_congruent_frames :
  spec_subsample (demo_self "viper") (sorted (glob_in "/gt" "" (gt_tree late_video_world)))
    = ["/gt/002/002_00022.png"; "/gt/002/002_00032.png"; "/gt/002/002_00042.png"]
  /\ ViperCityscapesSemSegEvaluator.subsample (demo_self "viper")
       (sorted (glob_in "/gt" "" (gt_tree late_video_world))) (Some [])
     = Ok []
  /\ ViperCityscapesSemSegEvaluator.evaluate demo_semseg_scorer no_args 0
       (demo_self "viper") late_video_world
     = (enumerated (demo_self "viper") "" late_video_world, Raise AssertionError).
Proof. repeat split; vm_compute; reflexivity. Qed.

(** ** The composite video metrics *)

Lemma dict_get_insert_eq {V} (d : gmap string V) (k : string) (v : V) :
  dict_get (<[k := v]> d) k = Ok v.
Proof. apply dict_get_Some, lookup_insert_eq. Qed.

Lemma dict_get_insert_ne {V} (d : gmap string V) (k k' : string) (v : V) :
  k <> k' -> dict_get (<[k := v]> d) k' = dict_get d k'.
Proof. intros Hne. unfold dict_get. rewrite lookup_insert_ne by exact Hne. reflexivity. Qed.

Lemma dict_get_singleton_eq {V} (k : string) (v : V) :
  dict_get ({[ k := v ]} : gmap string V) k = Ok v.
Proof. apply dict_get_Some, lookup_singleton_eq. Qed.

Ltac dict :=
  repeat first
    [ rewrite dict_get_insert_eq
    | rewrite dict_get_singleton_eq
    | rewrite dict_get_insert_ne by discriminate ].

Ltac lookups :=
  repeat first
    [ rewrite lookup_insert_eq
    | rewrite lookup_singleton_eq
    | rewrite lookup_insert_ne by discriminate ];
  try reflexivity.

Section VideoMetrics.
Context {S : Type} `{Scalar S}.
Variables (vid_eval : scorer (gmap string S)) (args0 : scorer_args).

(** What [report] does with a non-empty list of ground-truth files when
    every prediction is found and the scorer answers. *)
Lemma report_run (self : evaluator) (w : world) (gts preds : list string)
    (left : gmap string file)
    (results : gmap string S) (IoU IoU_sup V5 Vs5 V10 Vs10 V15 Vs15 : S) :
  gts <> [] ->
  Forall2 (fun gt p =>
             getPrediction vid_eval (files w)
               (ViperCityscapesSemSegEvaluator.set_args args0 self) gt = Ok p) gts preds ->
  evaluateImgLists vid_eval (files w) preds gts
    (ViperCityscapesSemSegEvaluator.set_args args0 self) = (left, Ok results) ->
  results !! "averageScoreClasses" = Some IoU ->
  results !! "averageScoreCategories" = Some IoU_sup ->
  results !! "averageScoreClasses_vid5" = Some V5 ->
  results !! "averageScoreCategories_vid5" = Some Vs5 ->
  results !! "averageScoreClasses_vid10" = Some V10 ->
  results !! "averageScoreCategories_vid10" = Some Vs10 ->
  results !! "averageScoreClasses_vid15" = Some V15 ->
  results !! "averageScoreCategories_vid15" = Some Vs15 ->
  ViperCityscapesSemSegEvaluator.report vid_eval args0 self gts w
  = (scored self gts preds left w,
     Ok (Some
       (<["sem_seg_ImgVid" :=
            <["ImgVid_IoU_Total" := blend (mean3 (pct V5) (pct V10) (pct V15)) (pct IoU)]>
            {[ "ImgVid_sup_IoU_Total" :=
                 blend (mean3 (pct Vs5) (pct Vs10) (pct Vs15)) (pct IoU_sup) ]}]>
        (<["sem_seg_Vid" :=
            <["VIoU_total" := mean3 (pct V5) (pct V10) (pct V15)]>
            {[ "VIoU_sup_total" := mean3 (pct Vs5) (pct Vs10) (pct Vs15) ]}]>
        {[ "sem_seg" :=
            <["IoU" := pct IoU]>
            (<["IoU_sup" := pct IoU_sup]>
            (<["VIoU_5" := pct V5]>
            (<["VIoU_sup_5" := pct Vs5]>
            (<["VIoU_10" := pct V10]>
            (<["VIoU_sup_10" := pct Vs10]>
            (<["VIoU_15" := pct V15]>
            {[ "VIoU_sup_15" := pct Vs15 ]})))))) ]})))).
Proof.
  intros Hne Hpred Hscore H1 H2 H3 H4 H5 H6 H7 H8.
  unfold ViperCityscapesSemSegEvaluator.report. cbn zeta. run.
  rewrite assert_nonempty_ok by exact Hne. run.
  rewrite (map_M_get_prediction _ _ gts preds) by exact Hpred. run.
  rewrite evaluate_img_lists_run. run. rewrite Hscore. cbn [fst snd].
  rewrite (dict_get_Some _ _ _ H1). run. rewrite (dict_get_Some _ _ _ H2). run.
  rewrite (dict_get_Some _ _ _ H3). run. rewrite (dict_get_Some _ _ _ H4). run.
  rewrite (dict_get_Some _ _ _ H5). run. rewrite (dict_get_Some _ _ _ H6). run.
  rewrite (dict_get_Some _ _ _ H7). run. rewrite (dict_get_Some _ _ _ H8). run.
  dict. run. dict. run. dict. run. dict. run.
  rewrite cleanup_run. run. unfold scored. cbn [files gt_tree trace].
  rewrite <- !app_assoc. reflexivity.
Qed.
End VideoMetrics.

Section VideoEvaluate.
Context {S : Type} `{Scalar S}.
Variables (vid_eval : scorer (gmap string S)) (args0 : scorer_args).

(** [evaluate] on the coordinator: enumerate, subsample, report. *)
Lemma viper_evaluate_coordinator (self : evaluator) (w : world) :
  ViperCityscapesSemSegEvaluator.evaluate vid_eval args0 0 self w
  = match ViperCityscapesSemSegEvaluator.subsample self
            (sorted (glob_in (gt_dir (_metadata self)) (viper_suffix self) (gt_tree w)))
            (if String.eqb (dataset_type self) "cityscapes" then None else Some [])
    with
    | Ok gts =>
        ViperCityscapesSemSegEvaluator.report vid_eval args0 self gts
          (enumerated self (viper_suffix self) w)
    | Raise e => (enumerated self (viper_suffix self) w, Raise e)
    end.
Proof.
  unfold ViperCityscapesSemSegEvaluator.evaluate, ViperCityscapesSemSegEvaluator.enumerate,
    info_evaluating, viper_suffix.
  cbn [Nat.ltb Nat.leb]. run.
  destruct (String.eqb (dataset_type self) "cityscapes"); run;
    unfold enumerated; rewrite <- !app_assoc;
    match goal with |- context [ViperCityscapesSemSegEvaluator.subsample ?a ?b ?c] =>
      destruct (ViperCityscapesSemSegEvaluator.subsample a b c) end; reflexivity.
Qed.

(** When files are enumerated but none survives the subsampling, the
    assertion fails. *)
Lemma viper_evaluate_nothing_left (self : evaluator) (w : world) :
  ViperCityscapesSemSegEvaluator.subsample self
    (sorted (glob_in (gt_dir (_metadata self)) (viper_suffix self) (gt_tree w)))
    (if String.eqb (dataset_type self) "cityscapes" then None else Some []) = Ok [] ->
  ViperCityscapesSemSegEvaluator.evaluate vid_eval args0 0 self w
    = (enumerated self (viper_suffix self) w, Raise AssertionError).
Proof.
  intros Hs. rewrite viper_evaluate_coordinator, Hs.
  unfold ViperCityscapesSemSegEvaluator.report. cbn zeta. run.
  rewrite assert_nonempty_nil. reflexivity.
Qed.

(** C2. On the coordinator, for a dataset type other than
    'cityscapes', when the subsampling leaves ground-truth files, every
    prediction is found and the scorer answers with the eight averages,
    [evaluate] returns a mapping in which every "sem_seg" entry is 100
    times the scorer's average, VIoU_total is
    (VIoU_5 + VIoU_10 + VIoU_15) / 3 and ImgVid_IoU_Total is
    (VIoU_total * 3 + IoU) / 4, computed with the operations of the
    number type, and the same for the _sup entries.  The files are
    those the scorer left, less the scratch directory. *)
Theorem viper_evaluate_composites (self : evaluator) (w : world)
    (gts preds : list string) (left : gmap string file) (results : gmap string S)
    (r_IoU r_IoU_sup r_5 r_sup_5 r_10 r_sup_10 r_15 r_sup_15 : S) :
  dataset_type self <> "cityscapes" ->
  ViperCityscapesSemSegEvaluator.subsample self
    (sorted (glob_in (gt_dir (_metadata self)) "" (gt_tree w))) (Some []) = Ok gts ->
  gts <> [] ->
  Forall2 (fun gt p =>
             getPrediction vid_eval (files w)
               (ViperCityscapesSemSegEvaluator.set_args args0 self) gt = Ok p) gts preds ->
  evaluateImgLists vid_eval (files w) preds gts
    (ViperCityscapesSemSegEvaluator.set_args args0 self) = (left, Ok results) ->
  results !! "averageScoreClasses" = Some r_IoU ->
  results !! "averageScoreCategories" = Some r_IoU_sup ->
  results !! "averageScoreClasses_vid5" = Some r_5 ->
  results !! "averageScoreCategories_vid5" = Some r_sup_5 ->
  results !! "averageScoreClasses_vid10" = Some r_10 ->
  results !! "averageScoreCategories_vid10" = Some r_sup_10 ->
  results !! "averageScoreClasses_vid15" = Some r_15 ->
  results !! "averageScoreCategories_vid15" = Some r_sup_15 ->
  exists (ret : metrics S) (sem_seg vid img_vid : gmap string S)
         (IoU IoU_sup VIoU_5 VIoU_sup_5 VIoU_10 VIoU_sup_10 VIoU_15 VIoU_sup_15
          VIoU_total VIoU_sup_total : S),
    ViperCityscapesSemSegEvaluator.evaluate vid_eval args0 0 self w
      = (scored self gts preds left (enumerated self "" w), Ok (Some ret))
    /\ ret !! "sem_seg" = Some sem_seg
    /\ ret !! "sem_seg_Vid" = Some vid
    /\ ret !! "sem_seg_ImgVid" = Some img_vid
    /\ (sem_seg !! "IoU" = Some IoU /\ IoU = pct r_IoU)
    /\ (sem_seg !! "IoU_sup" = Some IoU_sup /\ IoU_sup = pct r_IoU_sup)
    /\ (sem_seg !! "VIoU_5" = Some VIoU_5 /\ VIoU_5 = pct r_5)
    /\ (sem_seg !! "VIoU_sup_5" = Some VIoU_sup_5 /\ VIoU_sup_5 = pct r_sup_5)
    /\ (sem_seg !! "VIoU_10" = Some VIoU_10 /\ VIoU_10 = pct r_10)
    /\ (sem_seg !! "VIoU_sup_10" = Some VIoU_sup_10 /\ VIoU_sup_10 = pct r_sup_10)
    /\ (sem_seg !! "VIoU_15" = Some VIoU_15 /\ VIoU_15 = pct r_15)
    /\ (sem_seg !! "VIoU_sup_15" = Some VIoU_sup_15 /\ VIoU_sup_15 = pct r_sup_15)
    /\ (vid !! "VIoU_total" = Some VIoU_total
        /\ VIoU_total = s_div (s_add (s_add VIoU_5 VIoU_10) VIoU_15) (s_of_Z 3))
    /\ (vid !! "VIoU_sup_total" = Some VIoU_sup_total
        /\ VIoU_sup_total
           = s_div (s_add (s_add VIoU_sup_5 VIoU_sup_10) VIoU_sup_15) (s_of_Z 3))
    /\ img_vid !! "ImgVid_IoU_Total"
       = Some (s_div (s_add (s_mul VIoU_total (s_of_Z 3)) IoU) (s_of_Z 4))
    /\ img_vid !! "ImgVid_sup_IoU_Total"
       = Some (s_div (s_add (s_mul VIoU_sup_total (s_of_Z 3)) IoU_sup) (s_of_Z 4)).
Proof.
  intros Hd Hsub Hne Hpred Hscore H1 H2 H3 H4 H5 H6 H7 H8.
  apply String.eqb_neq in Hd.
  do 4 eexists. exists (pct r_IoU), (pct r_IoU_sup), (pct r_5), (pct r_sup_5),
    (pct r_10), (pct r_sup_10), (pct r_15), (pct r_sup_15),
    (mean3 (pct r_5) (pct r_10) (pct r_15)),
    (mean3 (pct r_sup_5) (pct r_sup_10) (pct r_sup_15)).
  split.
  { rewrite viper_evaluate_coordinator. unfold viper_suffix. rewrite Hd, Hsub.
    apply (report_run vid_eval args0 self (enumerated self "" w) gts preds left results
             r_IoU r_IoU_sup r_5 r_sup_5 r_10 r_sup_10 r_15 r_sup_15); assumption. }
  repeat split; lookups.
Qed.
End VideoEvaluate.

Lemma viper_evaluate_composites_witness :
  exists (ret : metrics Q) (sem_seg vid img_vid : gmap string Q)
         (IoU IoU_sup VIoU_5 VIoU_sup_5 VIoU_10 VIoU_sup_10 VIoU_15 VIoU_sup_15
          VIoU_total VIoU_sup_total : Q),
    ViperCityscapesSemSegEvaluator.evaluate demo_semseg_scorer no_args 0
        (demo_self "viper") demo_video_world
      = (scored (demo_self "viper") demo_video_kept demo_video_preds
           (files demo_video_world)
           (enumerated (demo_self "viper") "" demo_video_world), Ok (Some ret))
    /\ ret !! "sem_seg" = Some sem_seg
    /\ ret !! "sem_seg_Vid" = Some vid
    /\ ret !! "sem_seg_ImgVid" = Some img_vid
    /\ (sem_seg !! "IoU" = Some IoU /\ IoU = pct (1 # 2))
    /\ (sem_seg !! "IoU_sup" = Some IoU_sup /\ IoU_sup = pct (3 # 4))
    /\ (sem_seg !! "VIoU_5" = Some VIoU_5 /\ VIoU_5 = pct (1 # 5))
    /\ (sem_seg !! "VIoU_sup_5" = Some VIoU_sup_5 /\ VIoU_sup_5 = pct (2 # 5))
    /\ (sem_seg !! "VIoU_10" = Some VIoU_10 /\ VIoU_10 = pct (3 # 10))
    /\ (sem_seg !! "VIoU_sup_10" = Some VIoU_sup_10 /\ VIoU_sup_10 = pct (1 # 10))
    /\ (sem_seg !! "VIoU_15" = Some VIoU_15 /\ VIoU_15 = pct (7 # 10))
    /\ (sem_seg !! "VIoU_sup_15" = Some VIoU_sup_15 /\ VIoU_sup_15 = pct (9 # 10))
    /\ (vid !! "VIoU_total" = Some VIoU_total
        /\ VIoU_total = s_div (s_add (s_add VIoU_5 VIoU_10) VIoU_15) (s_of_Z 3))
    /\ (vid !! "VIoU_sup_total" = Some VIoU_sup_total
        /\ VIoU_sup_total
           = s_div (s_add (s_add VIoU_sup_5 VIoU_sup_10) VIoU_sup_15) (s_of_Z 3))
    /\ img_vid !! "ImgVid_IoU_Total"
       = Some (s_div (s_add (s_mul VIoU_total (s_of_Z 3)) IoU) (s_of_Z 4))
    /\ img_vid !! "ImgVid_sup_IoU_Total"
       = Some (s_div (s_add (s_mul VIoU_sup_total (s_of_Z 3)) IoU_sup) (s_of_Z 4)).
Proof.
  apply (viper_evaluate_composites demo_semseg_scorer no_args (demo_self "viper")
           demo_video_world demo_video_kept demo_video_preds (files demo_video_world)
           demo_semseg_results
           (1 # 2) (3 # 4) (1 # 5) (2 # 5) (3 # 10) (1 # 10) (7 # 10) (9 # 10)).
  - discriminate.
  - vm_compute. reflexivity.
  - discriminate.
  - repeat constructor.
  - reflexivity.
  - vm_compute. reflexivity.
  - vm_compute. reflexivity.
  - vm_compute. reflexivity.
  - vm_compute. reflexivity.
  - vm_compute. reflexivity.
  - vm_compute. reflexivity.
  - vm_compute. reflexivity.
  - vm_compute. reflexivity.
Defined.

(** ** Semantic label images *)

Lemma lookup_map {A B} (f : A -> B) (l : list A) (i : nat) :
  map f l !! i = f <$> (l !! i).
Proof.
  revert i. induction l as [|x l IH]; intros [|i]; cbn; try reflexivity. apply IH.
Qed.

Lemma zip_with_map_r {A B} (f : A -> B -> B) (g : A -> B) (l : list A) :
  zip_with f l (map g l) = map (fun x => f x (g x)) l.
Proof. induction l as [|x l IH]; cbn; [reflexivity|]. rewrite IH. reflexivity. Qed.

Lemma masked_assign_map (output : list (list Z)) (t v : Z) (h : Z -> Z) :
  masked_assign output t v (map (map h) output)
  = map (map (fun o => if o =? t then v else h o)) output.
Proof.
  unfold masked_assign.
  rewrite (zip_with_map_r (zip_with (fun o p => if o =? t then v else p)) (map h) output).
  apply map_ext. intros row. apply zip_with_map_r.
Qed.

(** The loop acts on every pixel separately. *)
Lemma relabel_fold (tbl : list (Z * label)) (output : list (list Z)) (h : Z -> Z) :
  fold_left (fun pred (item : Z * label) =>
               if ignoreInEval item.2 then pred
               else masked_assign output item.1 (astype_uint8 (id item.2)) pred)
            tbl (map (map h) output)
  = map (map (fun o => fold_left (relabel_step o) tbl (h o))) output.
Proof.
  revert h. induction tbl as [|[t lab] tbl IH]; intros h; [reflexivity|].
  cbn [fold_left fst snd]. unfold relabel_step at 2. cbn [fst snd].
  destruct (ignoreInEval lab).
  - apply (IH h).
  - rewrite masked_assign_map.
    apply (IH (fun o => if o =? t then astype_uint8 (id lab) else h o)).
Qed.

Lemma relabel_pointwise (tbl : list (Z * label)) (output : list (list Z)) :
  relabel tbl output = map (map (fun o => fold_left (relabel_step o) tbl 255)) output.
Proof. apply (relabel_fold tbl output (fun _ => 255)). Qed.

Lemma relabel_step_other (o : Z) (tbl : list (Z * label)) (p : Z) :
  ~ In o (map fst tbl) -> fold_left (relabel_step o) tbl p = p.
Proof.
  revert p. induction tbl as [|[t lab] tbl IH]; intros p Hni; [reflexivity|].
  cbn [fold_left]. unfold relabel_step at 2. cbn [fst snd map] in *.
  assert (Ht : (o =? t) = false) by (apply Z.eqb_neq; intros ->; apply Hni; left; reflexivity).
  rewrite Ht. destruct (ignoreInEval lab); apply IH; intros Hin; apply Hni; right; exact Hin.
Qed.

(** For a dict (no key twice) whose evaluated labels fit in eight bits,
    the loop computes [external_id]. *)
Lemma relabel_pixel_from (tbl : list (Z * label)) (o p : Z) :
  List.NoDup (map fst tbl) ->
  (forall item, In item tbl -> ignoreInEval item.2 = false -> 0 <= id item.2 < 256) ->
  fold_left (relabel_step o) tbl p
  = match List.find (fun item : Z * label => item.1 =? o) tbl with
    | Some item => if ignoreInEval item.2 then p else id item.2
    | None => p
    end.
Proof.
  revert p. induction tbl as [|[t lab] tbl IH]; intros p Hnd Hfit; [reflexivity|].
  cbn [map fst] in Hnd. apply List.NoDup_cons_iff in Hnd as [Hni Hnd].
  cbn [fold_left List.find fst snd]. unfold relabel_step at 2. cbn [fst snd].
  destruct (t =? o) eqn:Et.
  - apply Z.eqb_eq in Et. subst t. rewrite Z.eqb_refl.
    rewrite relabel_step_other by exact Hni.
    cbn [fst snd].
    destruct (ignoreInEval lab) eqn:Ei; [reflexivity|].
    unfold astype_uint8. apply Z.mod_small.
    apply (Hfit (o, lab)); [left; reflexivity|exact Ei].
  - rewrite Z.eqb_sym, Et.
    assert (Hp : (if ignoreInEval lab then p else p) = p)
      by (destruct (ignoreInEval lab); reflexivity).
    rewrite Hp. apply IH; [exact Hnd|].
    intros item Hin. apply Hfit. right. exact Hin.
Qed.

Lemma relabel_pixel (tbl : list (Z * label)) (o : Z) :
  List.NoDup (map fst tbl) ->
  (forall item, In item tbl -> ignoreInEval item.2 = false -> 0 <= id item.2 < 256) ->
  fold_left (relabel_step o) tbl 255 = external_id tbl o.
Proof. apply relabel_pixel_from. Qed.

Lemma semseg_for_each_run (tbl : list (Z * label)) (self : evaluator)
    (batch : list (string * list (list Z))) (w : world) :
  for_each batch (semseg_process_one tbl self) w
  = (World (semseg_written tbl self batch (files w)) (gt_tree w) (trace w), Ok tt).
Proof.
  revert w. induction batch as [|io batch IH]; intros w.
  - destruct w; reflexivity.
  - cbn [for_each]. rewrite bind_run. unfold semseg_process_one at 1, write_file.
    rewrite IH. reflexivity.
Qed.

Lemma semseg_written_lookup (tbl : list (Z * label)) (self : evaluator)
    (batch : list (string * list (list Z))) (fs : gmap string file) (p : string) :
  semseg_written tbl self batch fs !! p = fs !! p
  \/ exists io, In io batch /\ p = pred_png self io.1
                /\ semseg_written tbl self batch fs !! p = Some (ImageFile (relabel tbl io.2)).
Proof.
  revert fs. induction batch as [|io batch IH]; intros fs; [left; reflexivity|].
  change (semseg_written tbl self (io :: batch) fs)
    with (semseg_written tbl self batch
            (<[pred_png self io.1 := ImageFile (relabel tbl io.2)]> fs)).
  destruct (IH (<[pred_png self io.1 := ImageFile (relabel tbl io.2)]> fs)) as [E|[io' [Hin [Hp E]]]].
  - destruct (decide (pred_png self io.1 = p)) as [<-|Hne].
    + right. exists io. split; [left; reflexivity|]. split; [reflexivity|].
      rewrite E. apply lookup_insert_eq.
    + left. rewrite E. apply lookup_insert_ne. exact Hne.
  - right. exists io'. split; [right; exact Hin|]. split; assumption.
Qed.

(** A path that is the label image of no input is left alone. *)
Lemma semseg_written_other (tbl : list (Z * label)) (self : evaluator)
    (batch : list (string * list (list Z))) (fs : gmap string file) (p : string) :
  (forall io, In io batch -> p <> pred_png self io.1) ->
  semseg_written tbl self batch fs !! p = fs !! p.
Proof.
  intros Hp.
  destruct (semseg_written_lookup tbl self batch fs p) as [E|[io [Hin [E _]]]]; [exact E|].
  exfalso. exact (Hp io Hin E).
Qed.

(** The image at the path of an input is the one written last there. *)
Lemma semseg_written_last (tbl : list (Z * label)) (self : evaluator)
    (before after : list (string * list (list Z))) (io : string * list (list Z))
    (fs : gmap string file) :
  (forall io', In io' after -> pred_png self io'.1 <> pred_png self io.1) ->
  semseg_written tbl self (before ++ io :: after) fs !! pred_png self io.1
  = Some (ImageFile (relabel tbl io.2)).
Proof.
  intros Hlast. unfold semseg_written. rewrite fold_left_app. cbn [fold_left].
  match goal with
  | |- fold_left ?f after ?fs1 !! _ = _ =>
      change (fold_left f after fs1) with (semseg_written tbl self after fs1)
  end.
  rewrite semseg_written_other; [apply lookup_insert_eq|].
  intros io' Hin E. exact (Hlast io' Hin (eq_sym E)).
Qed.

(** Every input finds an image at its path: the one of an input of the
    batch with that path. *)
Lemma semseg_written_input (tbl : list (Z * label)) (self : evaluator)
    (batch : list (string * list (list Z))) (io : string * list (list Z)) :
  forall fs : gmap string file,
    In io batch ->
    exists io', In io' batch /\ pred_png self io'.1 = pred_png self io.1
                /\ semseg_written tbl self batch fs !! pred_png self io.1
                   = Some (ImageFile (relabel tbl io'.2)).
Proof.
  induction batch as [|x batch IH]; intros fs Hin; [destruct Hin|].
  change (semseg_written tbl self (x :: batch) fs)
    with (semseg_written tbl self batch
            (<[pred_png self x.1 := ImageFile (relabel tbl x.2)]> fs)).
  destruct Hin as [->|Hin].
  - destruct (semseg_written_lookup tbl self batch
                (<[pred_png self io.1 := ImageFile (relabel tbl io.2)]> fs)
                (pred_png self io.1)) as [E|[io' [Hin' [Hp E]]]].
    + exists io. split; [left; reflexivity|]. split; [reflexivity|].
      rewrite E. apply lookup_insert_eq.
    + exists io'. split; [right; exact Hin'|]. split; [symmetry; exact Hp|exact E].
  - destruct (IH (<[pred_png self x.1 := ImageFile (relabel tbl x.2)]> fs) Hin)
      as [io' [Hin' [Hp E]]].
    exists io'. split; [right; exact Hin'|]. split; [exact Hp|exact E].
Qed.

Section SemanticLabels.
Variable trainId2label : list (Z * label).
Hypothesis dict_keys : List.NoDup (map fst trainId2label).
Hypothesis ids_fit :
  forall item, In item trainId2label -> ignoreInEval item.2 = false -> 0 <= id item.2 < 256.

(** Every pixel of the relabelled image is [external_id] of the
    predicted train-id at that position. *)
Lemma relabel_lookup (output : list (list Z)) (r c : nat) (row : list Z) (t : Z) :
  output !! r = Some row -> row !! c = Some t ->
  exists row', relabel trainId2label output !! r = Some row'
               /\ row' !! c = Some (external_id trainId2label t).
Proof.
  intros Hr Hc. rewrite relabel_pointwise.
  exists (map (fun o => fold_left (relabel_step o) trainId2label 255) row). split.
  - rewrite lookup_map, Hr. reflexivity.
  - rewrite lookup_map, Hc. cbn. f_equal. apply relabel_pixel; assumption.
Qed.

Lemma relabel_shape (output : list (list Z)) :
  map (@length Z) (relabel trainId2label output) = map (@length Z) output.
Proof.
  rewrite relabel_pointwise, map_map. apply map_ext. intros row. apply length_map.
Qed.

Lemma relabel_label_image (output : list (list Z)) :
  label_image_of trainId2label output (relabel trainId2label output).
Proof.
  split; [apply relabel_shape|]. intros r c row t. apply relabel_lookup.
Qed.

(** C4. A [process] call of either semantic evaluator succeeds and
    writes a label image for every input, changing no other file.  The
    image found at the path of an input is the one written for the last
    input of the batch with that path.  Each written image has the
    shape of its prediction, and each of its pixels is the external id
    of the predicted train-id when the table has a non-ignored entry for
    it, and 255 otherwise. *)
Theorem semseg_process_labels (self : evaluator) (inputs : list string)
    (outputs : list (list (list Z))) (w : world) :
  exists fs' : gmap string file,
    CityscapesSemSegEvaluator.process trainId2label self inputs outputs w
      = (World fs' (gt_tree w) (trace w), Ok tt)
    /\ ViperCityscapesSemSegEvaluator.process trainId2label self inputs outputs w
      = (World fs' (gt_tree w) (trace w), Ok tt)
    /\ (forall (file_name : string) (output : list (list Z)),
          In (file_name, output) (zip inputs outputs) ->
          exists (file_name' : string) (output' pred : list (list Z)),
            In (file_name', output') (zip inputs outputs)
            /\ pred_png self file_name' = pred_png self file_name
            /\ fs' !! pred_png self file_name = Some (ImageFile pred)
            /\ label_image_of trainId2label output' pred)
    /\ (forall (before after : list (string * list (list Z))) (file_name : string)
               (output : list (list Z)),
          zip inputs outputs = (before ++ (file_name, output) :: after)%list ->
          (forall io, In io after -> pred_png self io.1 <> pred_png self file_name) ->
          exists pred : list (list Z),
            fs' !! pred_png self file_name = Some (ImageFile pred)
            /\ label_image_of trainId2label output pred)
    /\ (forall p : string,
          (forall file_name output,
             In (file_name, output) (zip inputs outputs) -> p <> pred_png self file_name) ->
          fs' !! p = files w !! p)
    /\ forall p : string,
         fs' !! p = files w !! p
         \/ exists (file_name : string) (output pred : list (list Z)),
              In (file_name, output) (zip inputs outputs)
              /\ p = pred_png self file_name
              /\ fs' !! p = Some (ImageFile pred)
              /\ label_image_of trainId2label output pred.
Proof.
  exists (semseg_written trainId2label self (zip inputs outputs) (files w)).
  unfold CityscapesSemSegEvaluator.process, ViperCityscapesSemSegEvaluator.process.
  rewrite semseg_for_each_run. split; [reflexivity|]. split; [reflexivity|].
  split; [|split; [|split]].
  - intros file_name output Hin.
    destruct (semseg_written_input trainId2label self (zip inputs outputs)
                (file_name, output) (files w) Hin) as [[file_name' output'] [Hin' [Hp E]]].
    cbn [fst snd] in *.
    exists file_name', output', (relabel trainId2label output').
    split; [exact Hin'|]. split; [exact Hp|]. split; [exact E|].
    apply relabel_label_image.
  - intros before after file_name output Hzip Hlast.
    exists (relabel trainId2label output). split; [|apply relabel_label_image].
    rewrite Hzip.
    exact (semseg_written_last trainId2label self before after (file_name, output)
             (files w) Hlast).
  - intros p Hp. apply semseg_written_other.
    intros [file_name output] Hin. exact (Hp file_name output Hin).
  - intros p.
    destruct (semseg_written_lookup trainId2label self (zip inputs outputs) (files w) p)
      as [E|[[file_name output] [Hin [Hp E]]]]; [left; exact E|].
    right. exists file_name, output, (relabel trainId2label output). cbn [fst snd] in *.
    split; [exact Hin|]. split; [exact Hp|]. split; [exact E|].
    apply relabel_label_image.
Qed.
End SemanticLabels.

Lemma demo_labels_keys : List.NoDup (map fst demo_labels).
Proof.
  repeat constructor; cbn; intros Hin;
    repeat (destruct Hin as [Hin|Hin]; [discriminate Hin|]); exact Hin.
Qed.

Lemma demo_labels_fit (item : Z * label) :
  In item demo_labels -> ignoreInEval item.2 = false -> 0 <= id item.2 < 256.
Proof.
  intros Hin Hig. cbn in Hin.
  repeat (destruct Hin as [<-|Hin]; [cbn in *; first [discriminate Hig | lia]|]).
  destruct Hin.
Qed.

Lemma semseg_process_labels_witness :
  exists fs' : gmap string file,
    CityscapesSemSegEvaluator.process demo_labels (demo_self "cityscapes")
        demo_semseg_inputs demo_semseg_outputs empty_world
      = (World fs' (gt_tree empty_world) (trace empty_world), Ok tt)
    /\ ViperCityscapesSemSegEvaluator.process demo_labels (demo_self "cityscapes")
        demo_semseg_inputs demo_semseg_outputs empty_world
      = (World fs' (gt_tree empty_world) (trace empty_world), Ok tt)
    /\ (forall (file_name : string) (output : list (list Z)),
          In (file_name, output) (zip demo_semseg_inputs demo_semseg_outputs) ->
          exists (file_name' : string) (output' pred : list (list Z)),
            In (file_name', output') (zip demo_semseg_inputs demo_semseg_outputs)
            /\ pred_png (demo_self "cityscapes") file_name'
               = pred_png (demo_self "cityscapes") file_name
            /\ fs' !! pred_png (demo_self "cityscapes") file_name = Some (ImageFile pred)
            /\ label_image_of demo_labels output' pred)
    /\ (forall (before after : list (string * list (list Z))) (file_name : string)
               (output : list (list Z)),
          zip demo_semseg_inputs demo_semseg_outputs
            = (before ++ (file_name, output) :: after)%list ->
          (forall io, In io after ->
                      pred_png (demo_self "cityscapes") io.1
                      <> pred_png (demo_self "cityscapes") file_name) ->
          exists pred : list (list Z),
            fs' !! pred_png (demo_self "cityscapes") file_name = Some (ImageFile pred)
            /\ label_image_of demo_labels output pred)
    /\ (forall p : string,
          (forall file_name output,
             In (file_name, output) (zip demo_semseg_inputs demo_semseg_outputs) ->
             p <> pred_png (demo_self "cityscapes") file_name) ->
          fs' !! p = files empty_world !! p)
    /\ forall p : string,
         fs' !! p = files empty_world !! p
         \/ exists (file_name : string) (output pred : list (list Z)),
              In (file_name, output) (zip demo_semseg_inputs demo_semseg_outputs)
              /\ p = pred_png (demo_self "cityscapes") file_name
              /\ fs' !! p = Some (ImageFile pred)
              /\ label_image_of demo_labels output pred.
Proof.
  apply (semseg_process_labels demo_labels demo_labels_keys demo_labels_fit
           (demo_self "cityscapes") demo_semseg_inputs demo_semseg_outputs empty_world).
Defined.

(** The label image of that run. *)
Lemma semseg_process_example :
  (CityscapesSemSegEvaluator.process demo_labels (demo_self "cityscapes")
     ["leftImg8bit/val/frankfurt/frankfurt_000000_000294_leftImg8bit.png"]
     [[[0; 1]; [255; 5]]] empty_world).1
  = World {[ "/tmp/cityscapes_eval_a/frankfurt_000000_000294_leftImg8bit_pred.png"
               := ImageFile [[7; 8]; [255; 255]] ]} [] [].
Proof. vm_compute. reflexivity. Qed.

(** ** Instance masks and manifests *)

Lemma last_char_app (a b : string) : b <> EmptyString -> last_char (a +:+ b) = last_char b.
Proof.
  intros Hb. induction a as [|c a IH]; [reflexivity|].
  rewrite append_cons. cbn [last_char]. rewrite IH.
  destruct (a +:+ b) eqn:E; [|reflexivity].
  destruct a; [rewrite append_nil_l in E; contradiction|discriminate E].
Qed.

Lemma last_char_path_join (d n : string) :
  n <> EmptyString -> last_char (path_join d n) = last_char n.
Proof.
  intros Hn. unfold path_join.
  destruct (startswith n "/"); [reflexivity|].
  destruct (String.eqb d ""); [reflexivity|].
  destruct (endswith d "/").
  - apply last_char_app, Hn.
  - rewrite last_char_app; [apply last_char_app, Hn|].
    destruct n; [contradiction|discriminate].
Qed.

Lemma append_nonempty_r (a b : string) : b <> EmptyString -> a +:+ b <> EmptyString.
Proof. intros Hb. destruct a; [exact Hb|discriminate]. Qed.

Lemma last_char_pred_txt (self : evaluator) (file_name : string) :
  last_char (pred_txt_of self file_name) = Some "t"%char.
Proof.
  unfold pred_txt_of.
  rewrite last_char_path_join by (apply append_nonempty_r; discriminate).
  rewrite last_char_app by discriminate. reflexivity.
Qed.

Lemma last_char_png (self : evaluator) (file_name : string) (i : nat) (classes : string) :
  last_char (png_of self file_name i classes) = Some "g"%char.
Proof.
  unfold png_of, CityscapesInstanceEvaluator.png_name.
  rewrite last_char_path_join by (repeat apply append_nonempty_r; discriminate).
  repeat (rewrite last_char_app by (repeat apply append_nonempty_r; discriminate)).
  reflexivity.
Qed.

(** A mask image never lands on the manifest. *)
Lemma png_not_pred_txt (self : evaluator) (file_name : string) (i : nat) (classes : string) :
  png_of self file_name i classes <> pred_txt_of self file_name.
Proof.
  intros E. pose proof (last_char_png self file_name i classes) as Hg.
  rewrite E, last_char_pred_txt in Hg. discriminate Hg.
Qed.

Lemma mask_pixel_binary (v : Z) :
  v = 0 \/ v = 1 -> mul_uint8 (astype_uint8 v) 255 = 0 \/ mul_uint8 (astype_uint8 v) 255 = 255.
Proof. intros [->| ->]; [left|right]; reflexivity. Qed.

Lemma mask_image_binary (mask : list (list Z)) :
  binary_mask mask ->
  binary_image (map (map (fun v => mul_uint8 v 255)) (map (map astype_uint8) mask)).
Proof.
  unfold binary_mask, binary_image. intros Hm.
  rewrite map_map. apply List.Forall_map.
  eapply List.Forall_impl; [|exact Hm]. intros row Hrow. cbn beta.
  rewrite map_map. apply List.Forall_map.
  eapply List.Forall_impl; [|exact Hrow]. intros v Hv. apply mask_pixel_binary, Hv.
Qed.

Lemma write_file_run (p : string) (f : file) (w : world) :
  write_file p f w = (World (<[p := f]> (files w)) (gt_tree w) (trace w), Ok tt).
Proof. reflexivity. Qed.

Lemma append_chunk_run (p chunk : string) (w : world) (cs : list string) :
  files w !! p = Some (TextFile cs) ->
  append_chunk p chunk w
    = (World (<[p := TextFile (cs ++ [chunk])]> (files w)) (gt_tree w) (trace w), Ok tt).
Proof. intros E. unfold append_chunk. rewrite E. reflexivity. Qed.

Lemma resolve_ok {S} (name2label : gmap string label) (self : evaluator)
    (inst : @CityscapesInstanceEvaluator.instance S) (classes : string) (lab : label) :
  resolve name2label self inst = Ok (classes, lab) ->
  getitem (thing_classes (_metadata self)) (CityscapesInstanceEvaluator.pred_class inst)
    = Ok classes
  /\ dict_get name2label classes = Ok lab.
Proof.
  unfold resolve.
  destruct (getitem _ _) as [c|e]; [|discriminate].
  rewrite result_bind_ok.
  destruct (dict_get name2label c) as [l|e] eqn:E; [|discriminate].
  rewrite result_bind_ok. intros [= <- <-]. split; [reflexivity|exact E].
Qed.

Section InstanceProcess.
Context {S : Type}.
Variables (name2label : gmap string label) (str_of_score : S -> string)
          (self : evaluator) (file_name : string).

Let instance := @CityscapesInstanceEvaluator.instance S.

(** The loop from instance [i] on, started with the manifest holding
    [ls]: one line is appended and one mask written per instance; mask
    files stay mask files; nothing else is touched. *)
Lemma write_instances_ok (output : list instance) :
  forall (i : nat) (w : world) (ls : list string),
    Forall (valid_instance name2label self) output ->
    files w !! pred_txt_of self file_name = Some (TextFile ls) ->
    exists (fs' : gmap string file) (lines : list string),
      CityscapesInstanceEvaluator.write_instances name2label str_of_score self
          (splitext_root (basename file_name)) (pred_txt_of self file_name) i output w
        = (World fs' (gt_tree w) (trace w), Ok tt)
      /\ fs' !! pred_txt_of self file_name = Some (TextFile (ls ++ lines)%list)
      /\ length lines = length output
      /\ (forall (k : nat) (inst : instance),
            output !! k = Some inst ->
            exists classes lab,
              resolve name2label self inst = Ok (classes, lab)
              /\ lines !! k
                 = Some (manifest_line str_of_score self file_name (i + k) inst classes lab)
              /\ is_mask_file fs' (png_of self file_name (i + k) classes))
      /\ (forall p, p <> pred_txt_of self file_name ->
                    is_mask_file (files w) p -> is_mask_file fs' p)
      /\ (forall p, fs' !! p = files w !! p
                    \/ p = pred_txt_of self file_name
                    \/ exists k classes, p = png_of self file_name (i + k) classes).
Proof.
  induction output as [|inst rest IH]; intros i w ls Hvalid Htxt.
  - exists (files w), []. cbn [CityscapesInstanceEvaluator.write_instances].
    rewrite ret_run. destruct w as [fs g t]. cbn [files gt_tree trace] in *.
    split; [reflexivity|]. split; [rewrite app_nil_r; exact Htxt|].
    split; [reflexivity|]. split; [intros k inst' Hk; destruct k; discriminate Hk|].
    split; [intros p _ Hp; exact Hp|]. intros p. left. reflexivity.
  - apply Forall_cons in Hvalid as [[Hres Hmask] Hvalid].
    destruct (resolve name2label self inst) as [[classes lab]|e] eqn:Er; [|discriminate Hres].
    destruct (resolve_ok _ _ _ _ _ Er) as [Hcls Hlab].
    set (png := png_of self file_name i classes).
    set (img := ImageFile (map (map (fun v => mul_uint8 v 255))
                             (map (map astype_uint8)
                                (CityscapesInstanceEvaluator.pred_mask inst)))).
    set (line := manifest_line str_of_score self file_name i inst classes lab).
    set (w1 := World (<[pred_txt_of self file_name := TextFile (ls ++ [line])%list]>
                        (<[png := img]> (files w))) (gt_tree w) (trace w)).
    assert (Hne : png <> pred_txt_of self file_name) by apply png_not_pred_txt.
    destruct (IH (Datatypes.S i) w1 (ls ++ [line])%list Hvalid) as
      (fs' & lines & Hrun & Hfile & Hlen & Hlines & Hkeep & Hframe).
    { cbn [w1 files]. apply lookup_insert_eq. }
    exists fs', (line :: lines).
    split.
    { cbn [CityscapesInstanceEvaluator.write_instances].
      rewrite bind_run, lift_run, Hcls. cbn beta iota.
      rewrite bind_run, lift_run, Hlab. cbn beta iota zeta.
      rewrite bind_run, write_file_run. cbn beta iota.
      rewrite bind_run.
      rewrite (append_chunk_run _ _ _ ls)
        by (cbn [files]; rewrite lookup_insert_ne by exact Hne; exact Htxt).
      cbn beta iota. cbn [files gt_tree trace].
      exact Hrun. }
    split; [rewrite Hfile, <- app_assoc; reflexivity|].
    split; [cbn [length]; rewrite Hlen; reflexivity|].
    split.
    { intros [|k] inst' Hk.
      - cbn in Hk. injection Hk as <-. exists classes, lab.
        split; [exact Er|]. rewrite Nat.add_0_r. split; [reflexivity|].
        apply Hkeep; [exact Hne|]. exists (match img with ImageFile px => px | _ => [] end).
        cbn [w1 files img]. rewrite lookup_insert_ne by (intros E; apply Hne; symmetry; exact E).
        rewrite lookup_insert_eq. split; [reflexivity|]. apply mask_image_binary, Hmask.
      - cbn in Hk. destruct (Hlines k inst' Hk) as (c' & l' & Hr' & Hl' & Hm').
        exists c', l'. replace (i + Datatypes.S k)%nat with (Datatypes.S i + k)%nat by lia.
        split; [exact Hr'|]. split; [exact Hl'|exact Hm']. }
    split.
    { intros p Hp Hmf. apply Hkeep; [exact Hp|]. cbn [w1 files].
      destruct Hmf as [px [Hpx Hbin]].
      destruct (decide (png = p)) as [<-|Hpp].
      - eexists. rewrite lookup_insert_ne by (intros E; apply Hne; symmetry; exact E).
        rewrite lookup_insert_eq. split; [reflexivity|]. apply mask_image_binary, Hmask.
      - exists px. rewrite lookup_insert_ne by (intros E; apply Hp; symmetry; exact E).
        rewrite lookup_insert_ne by exact Hpp. split; assumption. }
    intros p. destruct (Hframe p) as [E|[E|[k [c' E]]]].
    + cbn [w1 files] in E.
      destruct (decide (pred_txt_of self file_name = p)) as [<-|Hp1]; [right; left; reflexivity|].
      destruct (decide (png = p)) as [<-|Hp2].
      * right. right. exists 0%nat, classes. rewrite Nat.add_0_r. reflexivity.
      * left. rewrite E, lookup_insert_ne by exact Hp1. apply lookup_insert_ne. exact Hp2.
    + right. left. exact E.
    + right. right. exists (Datatypes.S k), c'.
      replace (i + Datatypes.S k)%nat with (Datatypes.S i + k)%nat by lia. exact E.
Qed.
End InstanceProcess.

Section InstanceManifest.
Context {S : Type}.
Variables (name2label : gmap string label) (str_of_score : S -> string)
          (self : evaluator).

Let instance := @CityscapesInstanceEvaluator.instance S.

Lemma process_one_run (file_name : string) (output : list instance) (w : world) :
  CityscapesInstanceEvaluator.process_one name2label str_of_score self (file_name, output) w
  = CityscapesInstanceEvaluator.write_instances name2label str_of_score self
      (splitext_root (basename file_name)) (pred_txt_of self file_name) 0 output
      (World (<[pred_txt_of self file_name := TextFile []]> (files w)) (gt_tree w) (trace w)).
Proof. reflexivity. Qed.

Lemma process_single (file_name : string) (output : list instance) (w : world) :
  CityscapesInstanceEvaluator.process name2label str_of_score self [file_name] [output] w
  = CityscapesInstanceEvaluator.process_one name2label str_of_score self
      (file_name, output) w.
Proof.
  unfold CityscapesInstanceEvaluator.process. cbn [zip zip_with for_each].
  rewrite bind_run.
  destruct (CityscapesInstanceEvaluator.process_one _ _ _ _ w) as [w' [[]|e]]; reflexivity.
Qed.

(** C5. Processing an image with N instances whose classes resolve and
    whose masks are binary leaves a manifest of exactly N lines, the
    k-th naming the mask file, the class id and the score of instance k,
    and the mask file of every instance holds an image whose pixels are
    all 0 or 255. *)
Theorem instance_process_manifest (file_name : string) (output : list instance)
    (w : world) :
  Forall (valid_instance name2label self) output ->
  exists (fs' : gmap string file) (lines : list string),
    CityscapesInstanceEvaluator.process name2label str_of_score self
        [file_name] [output] w
      = (World fs' (gt_tree w) (trace w), Ok tt)
    /\ fs' !! pred_txt_of self file_name = Some (TextFile lines)
    /\ length lines = length output
    /\ forall (k : nat) (inst : instance),
         output !! k = Some inst ->
         exists classes lab,
           resolve name2label self inst = Ok (classes, lab)
           /\ lines !! k
              = Some (manifest_line str_of_score self file_name k inst classes lab)
           /\ is_mask_file fs' (png_of self file_name k classes).
Proof.
  intros Hvalid. rewrite process_single, process_one_run.
  destruct (write_instances_ok name2label str_of_score self file_name output 0%nat
              (World (<[pred_txt_of self file_name := TextFile []]> (files w))
                     (gt_tree w) (trace w)) [] Hvalid)
    as (fs' & lines & Hrun & Hfile & Hlen & Hlines & _ & _).
  { cbn [files]. apply lookup_insert_eq. }
  exists fs', lines. split; [exact Hrun|]. split; [exact Hfile|]. split; [exact Hlen|].
  exact Hlines.
Qed.

(** Whatever happens in the loop, the manifest stays a text file. *)
Lemma write_instances_keeps_manifest (file_name : string) (output : list instance) :
  forall (i : nat) (w : world) (ls : list string),
    files w !! pred_txt_of self file_name = Some (TextFile ls) ->
    exists ls',
      files (CityscapesInstanceEvaluator.write_instances name2label str_of_score self
               (splitext_root (basename file_name)) (pred_txt_of self file_name)
               i output w).1
        !! pred_txt_of self file_name = Some (TextFile ls').
Proof.
  induction output as [|inst rest IH]; intros i w ls Htxt.
  - exists ls. exact Htxt.
  - cbn [CityscapesInstanceEvaluator.write_instances].
    rewrite bind_run, lift_run.
    destruct (getitem _ _) as [classes|e]; [|exists ls; exact Htxt].
    cbn beta iota. rewrite bind_run, lift_run.
    destruct (dict_get name2label classes) as [lab|e]; [|exists ls; exact Htxt].
    cbn beta iota zeta. rewrite bind_run, write_file_run. cbn beta iota.
    rewrite bind_run.
    assert (Hne : png_of self file_name i classes <> pred_txt_of self file_name)
      by apply png_not_pred_txt.
    rewrite (append_chunk_run _ _ _ ls)
      by (cbn [files]; rewrite lookup_insert_ne by exact Hne; exact Htxt).
    cbn beta iota. cbn [files gt_tree trace].
    eapply IH. cbn [files]. apply lookup_insert_eq.
Qed.

(** C10. Processing an image leaves its manifest [{basename}_pred.txt]
    in the scratch directory as a text file, whatever the instances are;
    with no instance the manifest is empty and it is the only file
    written. *)
Theorem instance_process_creates_manifest (file_name : string) (output : list instance)
    (w : world) :
  (exists lines,
     files (CityscapesInstanceEvaluator.process name2label str_of_score self
              [file_name] [output] w).1
       !! path_join (_temp_dir self) (splitext_root (basename file_name) +:+ "_pred.txt")
     = Some (TextFile lines))
  /\ CityscapesInstanceEvaluator.process name2label str_of_score self [file_name] [[]] w
     = (World (<[path_join (_temp_dir self)
                   (splitext_root (basename file_name) +:+ "_pred.txt") := TextFile []]>
                 (files w))
              (gt_tree w) (trace w), Ok tt).
Proof.
  split.
  - rewrite process_single, process_one_run.
    apply (write_instances_keeps_manifest file_name output 0%nat _ []).
    cbn [files]. apply lookup_insert_eq.
  - rewrite process_single. reflexivity.
Qed.
End InstanceManifest.

Lemma demo_instances_valid :
  Forall (valid_instance demo_name2label (demo_self "cityscapes")) demo_instances.
Proof.
  unfold valid_instance, binary_mask, demo_instances.
  repeat first [ apply List.Forall_nil | apply List.Forall_cons | split
               | reflexivity | (left; reflexivity) | (right; reflexivity) ].
Qed.

Lemma instance_process_manifest_witness :
  exists (fs' : gmap string file) (lines : list string),
    CityscapesInstanceEvaluator.process demo_name2label demo_str_of_score
        (demo_self "cityscapes") ["val/munster/munster_000173_000019_leftImg8bit.png"]
        [demo_instances] empty_world
      = (World fs' (gt_tree empty_world) (trace empty_world), Ok tt)
    /\ fs' !! pred_txt_of (demo_self "cityscapes")
               "val/munster/munster_000173_000019_leftImg8bit.png" = Some (TextFile lines)
    /\ length lines = length demo_instances
    /\ forall (k : nat) (inst : CityscapesInstanceEvaluator.instance),
         demo_instances !! k = Some inst ->
         exists classes lab,
           resolve demo_name2label (demo_self "cityscapes") inst = Ok (classes, lab)
           /\ lines !! k
              = Some (manifest_line demo_str_of_score (demo_self "cityscapes")
                        "val/munster/munster_000173_000019_leftImg8bit.png" k inst classes lab)
           /\ is_mask_file fs'
                (png_of (demo_self "cityscapes")
                   "val/munster/munster_000173_000019_leftImg8bit.png" k classes).
Proof.
  apply (instance_process_manifest demo_name2label demo_str_of_score
           (demo_self "cityscapes") "val/munster/munster_000173_000019_leftImg8bit.png"
           demo_instances empty_world).
  exact demo_instances_valid.
Defined.

(** ** The model factory *)

Section BuildModel.
Variables Net Device : Type.
Variable EXTRA_NECK_REGISTRY : gmap string (ExtraNeck.constructor Net Device).
Variable torch_device : string -> result Device.

(** C8. For a variant name that is not a key of the registry,
    [build_model] raises the lookup error and calls no constructor.  For
    a registered name whose constructor and device are accepted, it
    returns what the constructor built, moved to the configured device
    and otherwise as built: one constructor call, one move, nothing
    loaded. *)
Theorem build_model_registry (c : ExtraNeck.cfg) (log : list (ExtraNeck.build_event Device)) :
  (EXTRA_NECK_REGISTRY !! ExtraNeck.MODEL_EXTRA_NECK c = None ->
   ExtraNeck.build_model Net Device EXTRA_NECK_REGISTRY torch_device c log
     = (log, Raise (KeyError (ExtraNeck.MODEL_EXTRA_NECK c))))
  /\ (forall (ctor : ExtraNeck.constructor Net Device)
             (model : ExtraNeck.module Net Device) (d : Device),
        EXTRA_NECK_REGISTRY !! ExtraNeck.MODEL_EXTRA_NECK c = Some ctor ->
        ctor c = Ok model ->
        torch_device (ExtraNeck.MODEL_DEVICE c) = Ok d ->
        ExtraNeck.build_model Net Device EXTRA_NECK_REGISTRY torch_device c log
          = ((log ++ [ExtraNeck.Constructed Device (ExtraNeck.MODEL_EXTRA_NECK c);
                      ExtraNeck.Moved Device d])%list,
             Ok (ExtraNeck.Module_ Net Device (ExtraNeck.net Net Device model) d))).
Proof.
  split.
  - intros Hnone. unfold ExtraNeck.build_model, ExtraNeck.Registry_get, dict_get.
    rewrite Hnone. reflexivity.
  - intros ctor model d Hreg Hctor Hdev.
    unfold ExtraNeck.build_model, ExtraNeck.Registry_get, dict_get.
    rewrite Hreg, Hctor, Hdev. unfold ExtraNeck.to.
    rewrite <- app_assoc. reflexivity.
Qed.
End BuildModel.

Lemma build_model_registry_witness :
  ExtraNeck.build_model string string demo_registry demo_torch_device
      (ExtraNeck.Cfg "Unknown" "cuda") []
    = ([], Raise (KeyError "Unknown"))
  /\ ExtraNeck.build_model string string demo_registry demo_torch_device
       (ExtraNeck.Cfg "FPNNeck" "cuda") []
     = ([ExtraNeck.Constructed string "FPNNeck"; ExtraNeck.Moved string "cuda"],
        Ok (ExtraNeck.Module_ string string "fpn neck, fresh parameters" "cuda")).
Proof.
  split.
  - apply (build_model_registry string string demo_registry demo_torch_device
             (ExtraNeck.Cfg "Unknown" "cuda") []).
    reflexivity.
  - apply (proj2 (build_model_registry string string demo_registry demo_torch_device
                    (ExtraNeck.Cfg "FPNNeck" "cuda") [])
             (fun c => Ok (ExtraNeck.Module_ string string "fpn neck, fresh parameters" "cpu"))
             (ExtraNeck.Module_ string string "fpn neck, fresh parameters" "cpu") "cuda");
      reflexivity.
Defined.

(** The files of a run on two instances. *)
Lemma instance_process_example :
  (CityscapesInstanceEvaluator.process demo_name2label demo_str_of_score
     (demo_self "cityscapes") ["val/munster/munster_000173_000019_leftImg8bit.png"]
     [demo_instances] empty_world).1
  = World (list_to_map
      [("/tmp/cityscapes_eval_a/munster_000173_000019_leftImg8bit_pred.txt",
        TextFile ["munster_000173_000019_leftImg8bit_0_car.png 26 9/10" +:+ newline;
                  "munster_000173_000019_leftImg8bit_1_person.png 24 1/2" +:+ newline]);
       ("/tmp/cityscapes_eval_a/munster_000173_000019_leftImg8bit_0_car.png",
        ImageFile [[0; 255]; [255; 255]]);
       ("/tmp/cityscapes_eval_a/munster_000173_000019_leftImg8bit_1_person.png",
        ImageFile [[255; 0]; [0; 0]])]) [] [].
Proof. vm_compute. reflexivity. Qed.

(** An instance whose class index is out of range stops the loop; the
    manifest is there all the same, with the lines written so far. *)
Lemma instance_process_bad_class :
  CityscapesInstanceEvaluator.process demo_name2label demo_str_of_score
     (demo_self "cityscapes") ["a.png"]
     [[CityscapesInstanceEvaluator.Instance 1 (9 # 10) [[1]];
       CityscapesInstanceEvaluator.Instance 7 (1 # 2) [[1]]]] empty_world
  = (World (list_to_map
       [("/tmp/cityscapes_eval_a/a_pred.txt", TextFile ["a_0_car.png 26 9/10" +:+ newline]);
        ("/tmp/cityscapes_eval_a/a_0_car.png", ImageFile [[255]])]) [] [],
     Raise IndexError).
Proof. vm_compute. reflexivity. Qed.

(** ** The manifest lies in the scratch directory *)

Lemma split_segments_lack (sep : ascii) (s : string) :
  Forall (fun seg => lacks sep seg = true) (split sep s).
Proof.
  induction s as [|c s IH]; cbn [split].
  - repeat constructor.
  - destruct (Ascii.eqb c sep) eqn:Ec.
    + constructor; [reflexivity|exact IH].
    + destruct (split sep s) as [|p ps].
      * constructor; [cbn; rewrite Ec; reflexivity|constructor].
      * apply Forall_cons in IH as [Hp Hps].
        constructor; [cbn; rewrite Ec, Hp; reflexivity|exact Hps].
Qed.

Lemma basename_lacks_slash (p : string) : lacks "/" (basename p) = true.
Proof.
  unfold basename. pose proof (split_segments_lack "/" p) as HF.
  induction HF as [|x l Hx HF IH]; [reflexivity|].
  destruct l; [exact Hx|exact IH].
Qed.

Lemma drop_ext_lacks_slash (seen : bool) (s : string) :
  lacks "/" s = true -> lacks "/" (drop_ext seen s) = true.
Proof.
  revert seen. induction s as [|c s IH]; intros seen Hl; [reflexivity|].
  cbn [lacks] in Hl. apply andb_prop in Hl as [Hc Hs].
  apply negb_true_iff in Hc. cbn [drop_ext]. rewrite Hc.
  destruct (Ascii.eqb c ".").
  - destruct (seen && _); [reflexivity|].
    cbn [lacks]. rewrite Hc, (IH seen Hs). reflexivity.
  - cbn [lacks]. rewrite Hc, (IH true Hs). reflexivity.
Qed.

Lemma startswith_slash_lacks (b rest : string) :
  lacks "/" b = true -> startswith rest "/" = false -> startswith (b +:+ rest) "/" = false.
Proof.
  intros Hb Hr. destruct b as [|c b]; [exact Hr|].
  cbn [lacks] in Hb. apply andb_prop in Hb as [Hc _]. apply negb_true_iff in Hc.
  rewrite append_cons. unfold startswith. cbn [String.prefix].
  destruct (Ascii.ascii_dec "/" c) as [<-|_]; [discriminate Hc|reflexivity].
Qed.

(** With a scratch directory name that is not empty and has no trailing
    slash, the manifest of an input is [{scratch}/{basename}_pred.txt]. *)
Lemma pred_txt_in_scratch (self : evaluator) (file_name : string) :
  _temp_dir self <> EmptyString ->
  endswith (_temp_dir self) "/" = false ->
  pred_txt_of self file_name
  = _temp_dir self +:+ "/" +:+ splitext_root (basename file_name) +:+ "_pred.txt".
Proof.
  intros Hne Hslash. unfold pred_txt_of, path_join.
  rewrite startswith_slash_lacks;
    [|apply drop_ext_lacks_slash, basename_lacks_slash|reflexivity].
  destruct (String.eqb (_temp_dir self) "") eqn:E;
    [apply String.eqb_eq in E; contradiction|].
  rewrite Hslash. reflexivity.
Qed.

(** * Further properties *)

(** ** The file discipline of [evaluate] *)

Lemma keeps_files_ret {A} (a : A) : keeps_files (mret a : M A).
Proof. intros w. split; reflexivity. Qed.

Lemma keeps_files_bind {A B} (m : M A) (k : A -> M B) :
  keeps_files m -> (forall a, keeps_files (k a)) -> keeps_files (m ≫= k).
Proof.
  intros Hm Hk w. rewrite bind_run. specialize (Hm w).
  destruct (m w) as [w1 [a|e]]; cbn [fst snd] in *; [|exact Hm].
  destruct (Hk a w1) as [Hf Hg]. destruct Hm as [Hf1 Hg1].
  split; congruence.
Qed.

Lemma keeps_files_emit (e : event) : keeps_files (emit e).
Proof. intros w. split; reflexivity. Qed.

Lemma keeps_files_lift {A} (r : result A) : keeps_files (lift r).
Proof. intros w. split; reflexivity. Qed.

Lemma keeps_files_glob (d suffix : string) : keeps_files (glob d suffix).
Proof. intros w. split; reflexivity. Qed.

Lemma keeps_files_read : keeps_files read_files.
Proof. intros w. split; reflexivity. Qed.

Lemma keeps_files_get_prediction {R} (sc : scorer R) (a : scorer_args) (gt : string) :
  keeps_files (get_prediction sc a gt).
Proof. intros w. rewrite get_prediction_run. split; reflexivity. Qed.

Lemma keeps_files_map_M {A B} (f : A -> M B) (l : list A) :
  (forall x, keeps_files (f x)) -> keeps_files (map_M f l).
Proof.
  intros Hf. induction l as [|x l IH]; cbn [map_M]; [apply keeps_files_ret|].
  apply keeps_files_bind; [apply Hf|]. intros y.
  apply keeps_files_bind; [exact IH|]. intros ys. apply keeps_files_ret.
Qed.

Lemma finishes_bind {A R} (dir : string) (m : M A) (k : A -> M (option R)) :
  keeps_files m -> (forall x, finishes dir (k x)) -> finishes dir (m ≫= k).
Proof.
  intros Hm Hk w. rewrite bind_run. destruct (Hm w) as [Hf _].
  destruct (m w) as [w1 [x|e]]; cbn [fst snd] in *; [|exact Hf].
  specialize (Hk x w1). rewrite Hf in Hk. exact Hk.
Qed.

Lemma finishes_cleanup {R} (dir : string) (ret : R) :
  finishes dir (cleanup dir ≫= fun _ => mret (Some ret)).
Proof. intros w. reflexivity. Qed.

Lemma disciplined_bind {A T R} (sc : scorer T) (a : scorer_args) (dir : string)
    (m : M A) (k : A -> M (option R)) :
  keeps_files m -> (forall x, disciplined sc a dir (k x)) -> disciplined sc a dir (m ≫= k).
Proof.
  intros Hm Hk w. rewrite bind_run. destruct (Hm w) as [Hf _].
  destruct (m w) as [w1 [x|e]]; cbn [fst snd] in *; [|left; exact Hf].
  specialize (Hk x w1). rewrite Hf in Hk. exact Hk.
Qed.

(** From the comparison on, the files are those the comparison left. *)
Lemma disciplined_score {T R} (sc : scorer T) (a : scorer_args) (dir : string)
    (preds gts : list string) (k : T -> M (option R)) :
  (forall r, finishes dir (k r)) ->
  disciplined sc a dir (evaluate_img_lists sc preds gts a ≫= k).
Proof.
  intros Hk w. rewrite bind_run, evaluate_img_lists_run.
  destruct (evaluateImgLists sc (files w) preds gts a) as [left [r|e]] eqn:E;
    cbn [fst snd].
  - specialize (Hk r (World left (gt_tree w) (trace w ++ [EvScore preds gts]))).
    cbn [files] in Hk.
    destruct ((k r (World left (gt_tree w) (trace w ++ [EvScore preds gts]))).2)
      as [[ret|]|e]; [| exact Hk |].
    + exists preds, gts. rewrite E. exact Hk.
    + right. exists preds, gts. rewrite E. exact Hk.
  - right. exists preds, gts. rewrite E. reflexivity.
Qed.

Ltac discipline :=
  repeat first
    [ apply finishes_cleanup
    | apply disciplined_score; intros ?
    | apply keeps_files_get_prediction
    | apply keeps_files_emit
    | apply keeps_files_lift
    | apply keeps_files_glob
    | apply keeps_files_read
    | apply keeps_files_ret
    | apply keeps_files_map_M; intros ?
    | apply disciplined_bind; [|intros ?]
    | apply finishes_bind; [|intros ?]
    | apply keeps_files_bind; [|intros ?] ].

Section FileDiscipline.
Context {S : Type} `{Scalar S}.
Variables (inst_eval : scorer (gmap string (gmap string S)))
          (sem_eval vid_eval : scorer (gmap string S))
          (args0 : scorer_args).

Lemma keeps_files_enumerate (self : evaluator) :
  keeps_files (ViperCityscapesSemSegEvaluator.enumerate self).
Proof.
  unfold ViperCityscapesSemSegEvaluator.enumerate.
  destruct (String.eqb (dataset_type self) "cityscapes"); discipline.
Qed.

Lemma instance_evaluate_disciplined (self : evaluator) :
  disciplined inst_eval (CityscapesInstanceEvaluator.set_args args0 self)
    (_working_dir self) (CityscapesInstanceEvaluator.evaluate inst_eval args0 0 self).
Proof.
  unfold CityscapesInstanceEvaluator.evaluate, info_evaluating, assert_nonempty.
  cbn [Nat.ltb Nat.leb]. cbn zeta. discipline.
Qed.

Lemma semseg_evaluate_disciplined (self : evaluator) :
  disciplined sem_eval (CityscapesSemSegEvaluator.set_args args0 self)
    (_working_dir self) (CityscapesSemSegEvaluator.evaluate sem_eval args0 0 self).
Proof.
  unfold CityscapesSemSegEvaluator.evaluate, info_evaluating, assert_nonempty.
  cbn [Nat.ltb Nat.leb]. cbn zeta. discipline.
Qed.

Lemma viper_evaluate_disciplined (self : evaluator) :
  disciplined vid_eval (ViperCityscapesSemSegEvaluator.set_args args0 self)
    (_working_dir self) (ViperCityscapesSemSegEvaluator.evaluate vid_eval args0 0 self).
Proof.
  unfold ViperCityscapesSemSegEvaluator.evaluate, ViperCityscapesSemSegEvaluator.report,
    info_evaluating, assert_nonempty.
  cbn [Nat.ltb Nat.leb]. cbn zeta. discipline. apply keeps_files_enumerate.
Qed.

(** X1.  On the coordinator, [evaluate] of each evaluator never returns
    [None] and writes no file of its own.  When it returns a mapping, the
    files are those the scorer's comparison left, less the scratch
    directory.  When an exception escapes, the scratch directory is not
    removed: the files are as they were before the call, or as the
    comparison left them. *)
Theorem evaluate_files_discipline (self : evaluator) :
  disciplined inst_eval (CityscapesInstanceEvaluator.set_args args0 self)
    (_working_dir self) (CityscapesInstanceEvaluator.evaluate inst_eval args0 0 self)
  /\ disciplined sem_eval (CityscapesSemSegEvaluator.set_args args0 self)
       (_working_dir self) (CityscapesSemSegEvaluator.evaluate sem_eval args0 0 self)
  /\ disciplined vid_eval (ViperCityscapesSemSegEvaluator.set_args args0 self)
       (_working_dir self) (ViperCityscapesSemSegEvaluator.evaluate vid_eval args0 0 self).
Proof.
  split; [|split].
  - apply instance_evaluate_disciplined.
  - apply semseg_evaluate_disciplined.
  - apply viper_evaluate_disciplined.
Qed.
End FileDiscipline.

(** ** A round of [process] and [evaluate] *)

Lemma removed_lookup (dir : string) (fs : gmap string file) (p : string) :
  removed dir fs !! p = if startswith p (dir +:+ "/") then None else fs !! p.
Proof.
  unfold removed. destruct (startswith p (dir +:+ "/")) eqn:E.
  - apply map_lookup_filter_None. right. intros x _ HP. cbn [fst] in HP.
    rewrite E in HP. discriminate HP.
  - destruct (fs !! p) as [x|] eqn:Ep.
    + apply map_lookup_filter_Some. split; [exact Ep|exact E].
    + apply map_lookup_filter_None. left. exact Ep.
Qed.

Lemma startswith_app (a b : string) : startswith (a +:+ b) a = true.
Proof.
  unfold startswith. induction a as [|c a IH]; [destruct b; reflexivity|].
  rewrite append_cons. cbn [String.prefix].
  destruct (Ascii.ascii_dec c c) as [_|Hne]; [exact IH|contradiction].
Qed.

(** With a scratch directory name that is not empty and has no trailing
    slash, what [process] writes for an input lies below it. *)
Lemma scratch_path (self : evaluator) (file_name suffix : string) :
  _temp_dir self <> EmptyString ->
  endswith (_temp_dir self) "/" = false ->
  startswith suffix "/" = false ->
  startswith (path_join (_temp_dir self) (splitext_root (basename file_name) +:+ suffix))
             (_temp_dir self +:+ "/") = true.
Proof.
  intros Hne Hslash Hsuf. unfold path_join.
  rewrite startswith_slash_lacks;
    [|apply drop_ext_lacks_slash, basename_lacks_slash|exact Hsuf].
  destruct (String.eqb (_temp_dir self) "") eqn:E;
    [apply String.eqb_eq in E; contradiction|].
  rewrite Hslash, <- append_assoc. apply startswith_app.
Qed.

Section SemanticRound.
Context {S : Type} `{Scalar S}.
Variables (trainId2label : list (Z * label))
          (cityscapes_eval : scorer (gmap string S)) (args0 : scorer_args).

(** [process] of the semantic evaluators changes files below the scratch
    directory only. *)
Lemma semseg_written_outside (self : evaluator) (batch : list (string * list (list Z)))
    (fs : gmap string file) :
  _temp_dir self <> EmptyString ->
  endswith (_temp_dir self) "/" = false ->
  removed (_temp_dir self) (semseg_written trainId2label self batch fs)
  = removed (_temp_dir self) fs.
Proof.
  intros Hne Hslash. apply map_eq. intros p. rewrite !removed_lookup.
  destruct (startswith p (_temp_dir self +:+ "/")) eqn:E; [reflexivity|].
  destruct (semseg_written_lookup trainId2label self batch fs p)
    as [Hp|[io [_ [Hp _]]]]; [exact Hp|].
  subst p. unfold pred_png in E.
  rewrite scratch_path in E by (assumption || reflexivity). discriminate E.
Qed.

(** X2.  When the scorer's comparison, called as [evaluate] calls it,
    changes files below the scratch directory only, a round of the
    semantic evaluator on the coordinator, [process] on a batch and then
    an [evaluate] that returns a mapping, leaves the files as they were
    before the round, less the scratch directory: the label images written
    by [process] and what the comparison wrote are gone, and no other
    file is touched. *)
Theorem semseg_round_leaves_no_files (self : evaluator) (inputs : list string)
    (outputs : list (list (list Z))) (w w' : world) (ret : metrics S) :
  _working_dir self = _temp_dir self ->
  _temp_dir self <> EmptyString ->
  endswith (_temp_dir self) "/" = false ->
  confined (_temp_dir self) cityscapes_eval (CityscapesSemSegEvaluator.set_args args0 self) ->
  CityscapesSemSegEvaluator.evaluate cityscapes_eval args0 0 self
    (CityscapesSemSegEvaluator.process trainId2label self inputs outputs w).1
    = (w', Ok (Some ret)) ->
  files w' = removed (_temp_dir self) (files w).
Proof.
  intros Hdir Hne Hslash Hconf Hrun.
  unfold CityscapesSemSegEvaluator.process in Hrun.
  rewrite semseg_for_each_run in Hrun. cbn [fst] in Hrun.
  pose proof (semseg_evaluate_disciplined cityscapes_eval args0 self
                (World (semseg_written trainId2label self (zip inputs outputs) (files w))
                       (gt_tree w) (trace w))) as Hd.
  rewrite Hrun in Hd. cbn [fst snd files] in Hd. destruct Hd as (preds & gts & Hd).
  rewrite Hd, Hdir, Hconf. apply semseg_written_outside; assumption.
Qed.
End SemanticRound.

Lemma removed_insert_inside (dir p : string) (f : file) (fs : gmap string file) :
  startswith p (dir +:+ "/") = true -> removed dir (<[p := f]> fs) = removed dir fs.
Proof.
  intros Hp. apply map_eq. intros q. rewrite !removed_lookup.
  destruct (startswith q (dir +:+ "/")) eqn:E; [reflexivity|].
  apply lookup_insert_ne. intros ->. rewrite Hp in E. discriminate E.
Qed.

Lemma semseg_round_leaves_no_files_witness :
  files (CityscapesSemSegEvaluator.evaluate demo_reporting_scorer no_args 0
           (demo_self "cityscapes")
           (CityscapesSemSegEvaluator.process demo_labels (demo_self "cityscapes")
              ["leftImg8bit/val/aachen/aachen_000000_000019_leftImg8bit.png"]
              [[[0; 1]; [255; 5]]] demo_round_world).1).1
  = removed (_temp_dir (demo_self "cityscapes")) (files demo_round_world).
Proof.
  apply (semseg_round_leaves_no_files demo_labels demo_reporting_scorer no_args
           (demo_self "cityscapes")
           ["leftImg8bit/val/aachen/aachen_000000_000019_leftImg8bit.png"]
           [[[0; 1]; [255; 5]]] demo_round_world _ demo_semseg_ret).
  - reflexivity.
  - discriminate.
  - reflexivity.
  - intros fs preds gts. apply removed_insert_inside. reflexivity.
  - vm_compute. reflexivity.
Defined.

(** ** What a returned mapping tells *)

Lemma bind_ok_inv {A B} (m : M A) (k : A -> M B) (w w' : world) (b : B) :
  (m ≫= k) w = (w', Ok b) ->
  exists w1 a, m w = (w1, Ok a) /\ k a w1 = (w', Ok b).
Proof.
  rewrite bind_run. destruct (m w) as [w1 [a|e]]; [|discriminate].
  intros Hk. exists w1, a. split; [reflexivity|exact Hk].
Qed.

Lemma lift_ok_inv {A} (r : result A) (w w' : world) (a : A) :
  lift r w = (w', Ok a) -> r = Ok a /\ w' = w.
Proof. unfold lift. intros [= -> ->]. split; reflexivity. Qed.

Lemma dict_get_ok_inv {V} (d : gmap string V) (k : string) (v : V) :
  dict_get d k = Ok v -> d !! k = Some v.
Proof. unfold dict_get. destruct (d !! k); [intros [= ->]; reflexivity|discriminate]. Qed.

Lemma assert_nonempty_ok_inv {A} (l : list A) (w w' : world) :
  assert_nonempty l w = (w', Ok tt) -> l <> [] /\ w' = w.
Proof.
  unfold assert_nonempty. intros Hl. apply lift_ok_inv in Hl as [Hl ->].
  split; [|reflexivity]. destruct l; [discriminate Hl|discriminate].
Qed.

Lemma map_M_get_prediction_inv {R} (sc : scorer R) (a : scorer_args)
    (gts preds : list string) (w w' : world) :
  map_M (get_prediction sc a) gts w = (w', Ok preds) ->
  Forall2 (fun gt p => getPrediction sc (files w) a gt = Ok p) gts preds
  /\ w' = with_trace w (trace w ++ map EvGetPrediction gts).
Proof.
  revert preds w w'. induction gts as [|gt gts IH]; intros preds w w' Hrun.
  - cbn in Hrun. injection Hrun as <- <-. split; [constructor|].
    destruct w. unfold with_trace. cbn. rewrite app_nil_r. reflexivity.
  - cbn [map_M] in Hrun.
    apply bind_ok_inv in Hrun as (w1 & p & Hp & Hrun).
    rewrite get_prediction_run in Hp. injection Hp as <- Hp.
    apply bind_ok_inv in Hrun as (w2 & ps & Hps & Hrun).
    rewrite ret_run in Hrun. injection Hrun as <- <-.
    apply IH in Hps as [HF ->]. split.
    + constructor; [exact Hp|exact HF].
    + unfold with_trace. cbn. rewrite <- app_assoc. reflexivity.
Qed.

Lemma evaluate_img_lists_ok_inv {R} (sc : scorer R) (preds gts : list string)
    (a : scorer_args) (w w' : world) (r : R) :
  evaluate_img_lists sc preds gts a w = (w', Ok r) ->
  exists left,
    evaluateImgLists sc (files w) preds gts a = (left, Ok r)
    /\ w' = World left (gt_tree w) (trace w ++ [EvScore preds gts]).
Proof.
  rewrite evaluate_img_lists_run.
  destruct (evaluateImgLists sc (files w) preds gts a) as [left r']. cbn [fst snd].
  intros [= <- ->]. exists left. split; reflexivity.
Qed.

Lemma cleanup_ok_inv (dir : string) (w w' : world) :
  cleanup dir w = (w', Ok tt) -> files w' = removed dir (files w).
Proof. rewrite cleanup_run. intros [= <-]. reflexivity. Qed.

Section SemSegMetrics.
Context {S : Type} `{Scalar S}.
Variables (cityscapes_eval : scorer (gmap string S)) (args0 : scorer_args).

(** X3.  Whenever [evaluate] of the single-image semantic evaluator returns a
    mapping, it ran on the coordinator, the ground truth it enumerated was
    not empty, a prediction was found for every ground-truth file, the
    scorer compared all of them, the files are those the comparison left
    less the scratch directory, and the mapping is the single group
    "sem_seg" with exactly the keys IoU, iIoU, IoU_sup and iIoU_sup, each
    100 times the scorer's average. *)
Theorem semseg_evaluate_returns (rank : nat) (self : evaluator) (w w' : world)
    (ret : metrics S) :
  CityscapesSemSegEvaluator.evaluate cityscapes_eval args0 rank self w
    = (w', Ok (Some ret)) ->
  rank = 0%nat
  /\ exists (preds : list string) (left : gmap string file) (results : gmap string S)
            (IoU iIoU IoU_sup iIoU_sup : S),
       glob_in (gt_dir (_metadata self)) "_gtFine_labelIds.png" (gt_tree w) <> []
       /\ Forall2 (fun gt p =>
                     getPrediction cityscapes_eval (files w)
                       (CityscapesSemSegEvaluator.set_args args0 self) gt = Ok p)
                  (glob_in (gt_dir (_metadata self)) "_gtFine_labelIds.png" (gt_tree w)) preds
       /\ evaluateImgLists cityscapes_eval (files w) preds
            (glob_in (gt_dir (_metadata self)) "_gtFine_labelIds.png" (gt_tree w))
            (CityscapesSemSegEvaluator.set_args args0 self) = (left, Ok results)
       /\ files w' = removed (_working_dir self) left
       /\ results !! "averageScoreClasses" = Some IoU
       /\ results !! "averageScoreInstClasses" = Some iIoU
       /\ results !! "averageScoreCategories" = Some IoU_sup
       /\ results !! "averageScoreInstCategories" = Some iIoU_sup
       /\ ret = {[ "sem_seg" :=
                     <["IoU" := pct IoU]>
                     (<["iIoU" := pct iIoU]>
                     (<["IoU_sup" := pct IoU_sup]>
                     {[ "iIoU_sup" := pct iIoU_sup ]})) ]}
       /\ dom ret = {[ "sem_seg" ]}
       /\ (forall m, ret !! "sem_seg" = Some m ->
                     dom m = {[ "IoU"; "iIoU"; "IoU_sup"; "iIoU_sup" ]}).
Proof.
  unfold CityscapesSemSegEvaluator.evaluate. intros Hrun.
  apply bind_ok_inv in Hrun as (w1 & [] & Hsync & Hrun).
  rewrite emit_run in Hsync. injection Hsync as <-.
  destruct rank as [|rank]; [|cbn in Hrun; discriminate Hrun].
  split; [reflexivity|]. cbn [Nat.ltb Nat.leb] in Hrun.
  apply bind_ok_inv in Hrun as (w2 & [] & Hinfo & Hrun).
  unfold info_evaluating in Hinfo. rewrite emit_run in Hinfo. injection Hinfo as <-.
  cbn zeta in Hrun.
  apply bind_ok_inv in Hrun as (w3 & gts & Hglob & Hrun).
  rewrite glob_run in Hglob. injection Hglob as <- <-.
  apply bind_ok_inv in Hrun as (w4 & [] & Hne & Hrun).
  apply assert_nonempty_ok_inv in Hne as [Hne ->].
  apply bind_ok_inv in Hrun as (w5 & preds & Hpreds & Hrun).
  apply map_M_get_prediction_inv in Hpreds as [Hpreds ->].
  apply bind_ok_inv in Hrun as (w6 & results & Hscore & Hrun).
  apply evaluate_img_lists_ok_inv in Hscore as (left & Hscore & ->).
  apply bind_ok_inv in Hrun as (w7 & IoU & H1 & Hrun).
  apply lift_ok_inv in H1 as [H1 ->]. apply dict_get_ok_inv in H1.
  apply bind_ok_inv in Hrun as (w7 & iIoU & H2 & Hrun).
  apply lift_ok_inv in H2 as [H2 ->]. apply dict_get_ok_inv in H2.
  apply bind_ok_inv in Hrun as (w7 & IoU_sup & H3 & Hrun).
  apply lift_ok_inv in H3 as [H3 ->]. apply dict_get_ok_inv in H3.
  apply bind_ok_inv in Hrun as (w7 & iIoU_sup & H4 & Hrun).
  apply lift_ok_inv in H4 as [H4 ->]. apply dict_get_ok_inv in H4.
  apply bind_ok_inv in Hrun as (w7 & [] & Hclean & Hrun).
  apply cleanup_ok_inv in Hclean. cbn [files] in Hclean.
  rewrite ret_run in Hrun. injection Hrun as <- <-.
  exists preds, left, results, IoU, iIoU, IoU_sup, iIoU_sup.
  repeat (rewrite ?files_with_trace, ?gt_tree_with_trace in * ).
  split; [exact Hne|]. split; [exact Hpreds|]. split; [exact Hscore|].
  split; [exact Hclean|].
  split; [exact H1|]. split; [exact H2|]. split; [exact H3|]. split; [exact H4|].
  split; [reflexivity|]. split; [apply dom_singleton_L|].
  intros m Hm. rewrite lookup_singleton_eq in Hm. injection Hm as <-.
  rewrite !dom_insert_L, dom_singleton_L. set_solver.
Qed.
End SemSegMetrics.

Lemma semseg_evaluate_returns_witness :
  0%nat = 0%nat
  /\ exists (preds : list string) (left : gmap string file) (results : gmap string Q)
            (IoU iIoU IoU_sup iIoU_sup : Q),
       glob_in "/gt" "_gtFine_labelIds.png" (gt_tree demo_round_world) <> []
       /\ Forall2 (fun gt p =>
                     getPrediction demo_semseg_scorer (files demo_round_world)
                       (CityscapesSemSegEvaluator.set_args no_args (demo_self "cityscapes")) gt
                     = Ok p)
                  (glob_in "/gt" "_gtFine_labelIds.png" (gt_tree demo_round_world)) preds
       /\ evaluateImgLists demo_semseg_scorer (files demo_round_world) preds
            (glob_in "/gt" "_gtFine_labelIds.png" (gt_tree demo_round_world))
            (CityscapesSemSegEvaluator.set_args no_args (demo_self "cityscapes"))
          = (left, Ok results)
       /\ files (CityscapesSemSegEvaluator.evaluate demo_semseg_scorer no_args 0
                   (demo_self "cityscapes") demo_round_world).1
          = removed (_working_dir (demo_self "cityscapes")) left
       /\ results !! "averageScoreClasses" = Some IoU
       /\ results !! "averageScoreInstClasses" = Some iIoU
       /\ results !! "averageScoreCategories" = Some IoU_sup
       /\ results !! "averageScoreInstCategories" = Some iIoU_sup
       /\ demo_semseg_ret = {[ "sem_seg" :=
                     <["IoU" := pct IoU]>
                     (<["iIoU" := pct iIoU]>
                     (<["IoU_sup" := pct IoU_sup]>
                     {[ "iIoU_sup" := pct iIoU_sup ]})) ]}
       /\ dom demo_semseg_ret = {[ "sem_seg" ]}
       /\ (forall m, demo_semseg_ret !! "sem_seg" = Some m ->
                     dom m = {[ "IoU"; "iIoU"; "IoU_sup"; "iIoU_sup" ]}).
Proof.
  apply (semseg_evaluate_returns demo_semseg_scorer no_args 0 (demo_self "cityscapes")
           demo_round_world
           (CityscapesSemSegEvaluator.evaluate demo_semseg_scorer no_args 0
              (demo_self "cityscapes") demo_round_world).1
           demo_semseg_ret).
  vm_compute. reflexivity.
Defined.

(** ** Failures of the scorer *)

Lemma map_M_get_prediction_fails {R} (sc : scorer R) (a : scorer_args)
    (found : list string) (gt : string) (later preds : list string) (e : exn) (w : world) :
  Forall2 (fun gt p => getPrediction sc (files w) a gt = Ok p) found preds ->
  getPrediction sc (files w) a gt = Raise e ->
  map_M (get_prediction sc a) (found ++ gt :: later) w
    = (with_trace w (trace w ++ map EvGetPrediction (found ++ [gt])), Raise e).
Proof.
  intros HF. revert w HF. revert preds.
  induction found as [|g found IH]; intros preds w HF He.
  - cbn [app map_M map]. rewrite bind_run, get_prediction_run, He. reflexivity.
  - inversion HF as [|? p ? preds' Hp HF']; subst.
    cbn [app map_M]. rewrite bind_run, get_prediction_run, Hp, bind_run.
    rewrite (IH preds' (with_trace w (trace w ++ [EvGetPrediction g]))) by assumption.
    run. cbn [map app]. rewrite <- app_assoc. reflexivity.
Qed.

Section SemSegFailures.
Context {S : Type} `{Scalar S}.
Variables (cityscapes_eval : scorer (gmap string S)) (args0 : scorer_args).

(** X4.  When the prediction of some ground-truth file cannot be located, the
    exception of the lookup escapes [evaluate] unchanged: no later file is
    looked up, the scorer's comparison is never started and the files
    stay as they are. *)
Theorem semseg_evaluate_prediction_missing (self : evaluator) (w : world)
    (found : list string) (gt : string) (later preds : list string) (e : exn) :
  glob_in (gt_dir (_metadata self)) "_gtFine_labelIds.png" (gt_tree w)
    = (found ++ gt :: later)%list ->
  Forall2 (fun gt p =>
             getPrediction cityscapes_eval (files w)
               (CityscapesSemSegEvaluator.set_args args0 self) gt = Ok p) found preds ->
  getPrediction cityscapes_eval (files w)
    (CityscapesSemSegEvaluator.set_args args0 self) gt = Raise e ->
  CityscapesSemSegEvaluator.evaluate cityscapes_eval args0 0 self w
    = (with_trace (enumerated self "_gtFine_labelIds.png" w)
         (trace (enumerated self "_gtFine_labelIds.png" w)
          ++ map EvGetPrediction (found ++ [gt])),
       Raise e).
Proof.
  intros Hg Hfound He.
  unfold CityscapesSemSegEvaluator.evaluate, info_evaluating.
  cbn [Nat.ltb Nat.leb]. run. rewrite Hg.
  rewrite assert_nonempty_ok by (destruct found; discriminate). run.
  rewrite (map_M_get_prediction_fails _ _ found gt later preds e) by (run; assumption).
  run. unfold enumerated. run. rewrite <- !app_assoc. reflexivity.
Qed.

(** X5.  When the scorer's comparison raises, the exception escapes [evaluate]
    unchanged, after every prediction was looked up; nothing is removed:
    the files are as the comparison left them. *)
Theorem semseg_evaluate_scorer_error (self : evaluator) (w : world)
    (preds : list string) (left : gmap string file) (e : exn) :
  glob_in (gt_dir (_metadata self)) "_gtFine_labelIds.png" (gt_tree w) <> [] ->
  Forall2 (fun gt p =>
             getPrediction cityscapes_eval (files w)
               (CityscapesSemSegEvaluator.set_args args0 self) gt = Ok p)
          (glob_in (gt_dir (_metadata self)) "_gtFine_labelIds.png" (gt_tree w)) preds ->
  evaluateImgLists cityscapes_eval (files w) preds
    (glob_in (gt_dir (_metadata self)) "_gtFine_labelIds.png" (gt_tree w))
    (CityscapesSemSegEvaluator.set_args args0 self) = (left, Raise e) ->
  CityscapesSemSegEvaluator.evaluate cityscapes_eval args0 0 self w
    = (World left (gt_tree w)
         (trace (enumerated self "_gtFine_labelIds.png" w)
          ++ map EvGetPrediction
               (glob_in (gt_dir (_metadata self)) "_gtFine_labelIds.png" (gt_tree w))
          ++ [EvScore preds
                (glob_in (gt_dir (_metadata self)) "_gtFine_labelIds.png" (gt_tree w))]),
       Raise e).
Proof.
  intros Hne Hpreds He.
  unfold CityscapesSemSegEvaluator.evaluate, info_evaluating.
  cbn [Nat.ltb Nat.leb]. run.
  rewrite assert_nonempty_ok by exact Hne. run.
  rewrite (map_M_get_prediction _ _ _ preds) by (run; exact Hpreds). run.
  rewrite evaluate_img_lists_run. run. rewrite He. cbn [fst snd].
  unfold enumerated. run. rewrite <- !app_assoc. reflexivity.
Qed.

(** X6.  When the scorer's answer lacks one of the four averages, [evaluate]
    raises [KeyError] for a key the answer lacks, after the comparison
    and without removing the scratch directory: the files are as the
    comparison left them. *)
Theorem semseg_evaluate_missing_average (self : evaluator) (w : world)
    (preds : list string) (left : gmap string file) (results : gmap string S)
    (missing : string) :
  glob_in (gt_dir (_metadata self)) "_gtFine_labelIds.png" (gt_tree w) <> [] ->
  Forall2 (fun gt p =>
             getPrediction cityscapes_eval (files w)
               (CityscapesSemSegEvaluator.set_args args0 self) gt = Ok p)
          (glob_in (gt_dir (_metadata self)) "_gtFine_labelIds.png" (gt_tree w)) preds ->
  evaluateImgLists cityscapes_eval (files w) preds
    (glob_in (gt_dir (_metadata self)) "_gtFine_labelIds.png" (gt_tree w))
    (CityscapesSemSegEvaluator.set_args args0 self) = (left, Ok results) ->
  In missing ["averageScoreClasses"; "averageScoreInstClasses";
              "averageScoreCategories"; "averageScoreInstCategories"] ->
  results !! missing = None ->
  exists key : string,
    results !! key = None
    /\ CityscapesSemSegEvaluator.evaluate cityscapes_eval args0 0 self w
       = (World left (gt_tree w)
            (trace (enumerated self "_gtFine_labelIds.png" w)
             ++ map EvGetPrediction
                  (glob_in (gt_dir (_metadata self)) "_gtFine_labelIds.png" (gt_tree w))
             ++ [EvScore preds
                   (glob_in (gt_dir (_metadata self)) "_gtFine_labelIds.png" (gt_tree w))]),
          Raise (KeyError key)).
Proof.
  intros Hne Hpreds Hscore Hin Hmiss.
  set (w1 := World left (gt_tree w)
            (trace (enumerated self "_gtFine_labelIds.png" w)
             ++ map EvGetPrediction
                  (glob_in (gt_dir (_metadata self)) "_gtFine_labelIds.png" (gt_tree w))
             ++ [EvScore preds
                   (glob_in (gt_dir (_metadata self)) "_gtFine_labelIds.png" (gt_tree w))])).
  assert (Hstart :
    CityscapesSemSegEvaluator.evaluate cityscapes_eval args0 0 self w
    = ((IoU ← lift (dict_get results "averageScoreClasses");
        iIoU ← lift (dict_get results "averageScoreInstClasses");
        IoU_sup ← lift (dict_get results "averageScoreCategories");
        iIoU_sup ← lift (dict_get results "averageScoreInstCategories");
        _ ← cleanup (_working_dir self);
        mret (Some ({[ "sem_seg" :=
           <["IoU" := s_mul (s_of_Z 100) IoU]>
           (<["iIoU" := s_mul (s_of_Z 100) iIoU]>
           (<["IoU_sup" := s_mul (s_of_Z 100) IoU_sup]>
           {[ "iIoU_sup" := s_mul (s_of_Z 100) iIoU_sup ]})) ]} : metrics S))) : M _) w1).
  { unfold CityscapesSemSegEvaluator.evaluate, info_evaluating.
    cbn [Nat.ltb Nat.leb]. run.
    rewrite assert_nonempty_ok by exact Hne. run.
    rewrite (map_M_get_prediction _ _ _ preds) by (run; exact Hpreds). run.
    rewrite evaluate_img_lists_run. run. rewrite Hscore. cbn [fst snd].
    unfold w1, enumerated. run. rewrite <- !app_assoc. reflexivity. }
  rewrite Hstart. clearbody w1. clear Hstart.
  destruct (results !! "averageScoreClasses") as [v1|] eqn:E1.
  2:{ exists "averageScoreClasses". split; [exact E1|].
      rewrite bind_run, lift_run. unfold dict_get. rewrite E1. reflexivity. }
  destruct (results !! "averageScoreInstClasses") as [v2|] eqn:E2.
  2:{ exists "averageScoreInstClasses". split; [exact E2|].
      rewrite bind_run, lift_run. unfold dict_get. rewrite E1. cbn beta iota.
      rewrite bind_run, lift_run. rewrite E2. reflexivity. }
  destruct (results !! "averageScoreCategories") as [v3|] eqn:E3.
  2:{ exists "averageScoreCategories". split; [exact E3|].
      rewrite bind_run, lift_run. unfold dict_get. rewrite E1. cbn beta iota.
      rewrite bind_run, lift_run. rewrite E2. cbn beta iota.
      rewrite bind_run, lift_run. rewrite E3. reflexivity. }
  destruct (results !! "averageScoreInstCategories") as [v4|] eqn:E4.
  2:{ exists "averageScoreInstCategories". split; [exact E4|].
      rewrite bind_run, lift_run. unfold dict_get. rewrite E1. cbn beta iota.
      rewrite bind_run, lift_run. rewrite E2. cbn beta iota.
      rewrite bind_run, lift_run. rewrite E3. cbn beta iota.
      rewrite bind_run, lift_run. rewrite E4. reflexivity. }
  exfalso. cbn in Hin.
  destruct Hin as [<-|[<-|[<-|[<-|[]]]]]; congruence.
Qed.
End SemSegFailures.

Lemma semseg_evaluate_prediction_missing_witness :
  CityscapesSemSegEvaluator.evaluate demo_no_prediction_scorer no_args 0
    (demo_self "cityscapes") demo_round_world
  = (with_trace (enumerated (demo_self "cityscapes") "_gtFine_labelIds.png" demo_round_world)
       (trace (enumerated (demo_self "cityscapes") "_gtFine_labelIds.png" demo_round_world)
        ++ map EvGetPrediction ([] ++ [demo_label_gt])),
     Raise (External "no prediction")).
Proof.
  apply (semseg_evaluate_prediction_missing demo_no_prediction_scorer no_args
           (demo_self "cityscapes") demo_round_world [] demo_label_gt [] []
           (External "no prediction")).
  - reflexivity.
  - constructor.
  - reflexivity.
Defined.

Lemma semseg_evaluate_scorer_error_witness :
  CityscapesSemSegEvaluator.evaluate demo_raising_scorer no_args 0
    (demo_self "cityscapes") demo_round_world
  = (World (<["/tmp/cityscapes_eval_a/partial.json" := TextFile []]> (files demo_round_world))
       (gt_tree demo_round_world)
       (trace (enumerated (demo_self "cityscapes") "_gtFine_labelIds.png" demo_round_world)
        ++ map EvGetPrediction
             (glob_in (gt_dir (_metadata (demo_self "cityscapes"))) "_gtFine_labelIds.png"
                (gt_tree demo_round_world))
        ++ [EvScore [demo_label_pred]
              (glob_in (gt_dir (_metadata (demo_self "cityscapes"))) "_gtFine_labelIds.png"
                 (gt_tree demo_round_world))]),
     Raise (External "comparison")).
Proof.
  apply (semseg_evaluate_scorer_error demo_raising_scorer no_args
           (demo_self "cityscapes") demo_round_world [demo_label_pred]
           (<["/tmp/cityscapes_eval_a/partial.json" := TextFile []]> (files demo_round_world))
           (External "comparison")).
  - discriminate.
  - repeat constructor.
  - reflexivity.
Defined.

Lemma semseg_evaluate_missing_average_witness :
  exists key : string,
    ({[ "averageScoreClasses" := 1 # 2 ]} : gmap string Q) !! key = None
    /\ CityscapesSemSegEvaluator.evaluate demo_short_scorer no_args 0
         (demo_self "cityscapes") demo_round_world
       = (World (files demo_round_world) (gt_tree demo_round_world)
            (trace (enumerated (demo_self "cityscapes") "_gtFine_labelIds.png"
                      demo_round_world)
             ++ map EvGetPrediction
                  (glob_in (gt_dir (_metadata (demo_self "cityscapes")))
                     "_gtFine_labelIds.png" (gt_tree demo_round_world))
             ++ [EvScore [demo_label_pred]
                   (glob_in (gt_dir (_metadata (demo_self "cityscapes")))
                      "_gtFine_labelIds.png" (gt_tree demo_round_world))]),
          Raise (KeyError key)).
Proof.
  apply (semseg_evaluate_missing_average demo_short_scorer no_args
           (demo_self "cityscapes") demo_round_world [demo_label_pred]
           (files demo_round_world)
           {[ "averageScoreClasses" := 1 # 2 ]} "averageScoreInstCategories").
  - discriminate.
  - repeat constructor.
  - reflexivity.
  - cbn. tauto.
  - vm_compute. reflexivity.
Defined.

(** ** The subsampling of the temporal evaluator *)

Lemma frame_index_error (p : string) :
  is_ok (ViperCityscapesSemSegEvaluator.frame_index p) = false ->
  ViperCityscapesSemSegEvaluator.frame_index p = Raise ValueError.
Proof.
  unfold ViperCityscapesSemSegEvaluator.frame_index.
  rewrite getitem_last_split, result_bind_ok, getitem_last_split, result_bind_ok.
  pose proof (split_nonempty "." (last_seg "_" (last_seg "/" p))) as Hne.
  destruct (split "." (last_seg "_" (last_seg "/" p))) as [|c cs]; [congruence|].
  rewrite getitem_0, result_bind_ok. unfold int.
  match goal with |- context [match ?x with Some _ => _ | None => _ end] => destruct x end;
    [discriminate|reflexivity].
Qed.

Lemma subsample_loop_inv (self : evaluator) (start_idx : Z) (l acc : list string)
    (r : option (list string)) :
  ViperCityscapesSemSegEvaluator.subsample_loop self start_idx l (Some acc) = Ok r ->
  Forall (fun p => is_ok (ViperCityscapesSemSegEvaluator.frame_index p) = true) l
  /\ r = Some (acc ++ List.filter (kept self start_idx) l)%list.
Proof.
  revert acc. induction l as [|p l IH]; intros acc Hrun.
  - cbn in Hrun. injection Hrun as <-. split; [constructor|]. rewrite app_nil_r. reflexivity.
  - cbn [ViperCityscapesSemSegEvaluator.subsample_loop] in Hrun.
    destruct (ViperCityscapesSemSegEvaluator.frame_index p) as [i|e] eqn:E;
      [|discriminate Hrun].
    rewrite result_bind_ok in Hrun.
    cbn [List.filter]. unfold kept at 1. rewrite (frame_of_ok _ _ E).
    destruct (inf_start self <? i); cbn [andb].
    + rewrite result_bind_ok in Hrun. unfold mod_ in Hrun.
      destruct (skip_interv self =? 0); [discriminate Hrun|].
      rewrite result_bind_ok in Hrun.
      destruct (i mod skip_interv self =? start_idx).
      * apply IH in Hrun as [HF ->]. split; [constructor; [rewrite E; reflexivity|exact HF]|].
        rewrite <- app_assoc. reflexivity.
      * apply IH in Hrun as [HF ->]. split; [constructor; [rewrite E; reflexivity|exact HF]|].
        reflexivity.
    + apply IH in Hrun as [HF ->]. split; [constructor; [rewrite E; reflexivity|exact HF]|].
      reflexivity.
Qed.

Lemma filter_kept_Forall (self : evaluator) (start_idx : Z) (l : list string) :
  Forall (fun p => inf_start self < frame_of p
                   /\ frame_of p mod skip_interv self = start_idx)
         (List.filter (kept self start_idx) l).
Proof.
  apply List.Forall_forall. intros p Hp. apply filter_In in Hp as [_ Hp].
  unfold kept in Hp. apply andb_prop in Hp as [H1 H2].
  split; [apply Z.ltb_lt, H1|apply Z.eqb_eq, H2].
Qed.

(** X7.  Whenever the subsampling returns, every enumerated name carried a
    frame index, and the result is the enumerated list filtered, in order,
    by the loop's test against the first file's frame index: each kept
    frame lies after the warm-up offset and leaves the remainder
    [start_idx] modulo the skip interval. *)
Theorem subsample_returns_filter (self : evaluator) (groundTruthImgList kept_list : list string) :
  ViperCityscapesSemSegEvaluator.subsample self groundTruthImgList (Some []) = Ok kept_list ->
  Forall (fun p => is_ok (ViperCityscapesSemSegEvaluator.frame_index p) = true)
         groundTruthImgList
  /\ exists first rest,
       groundTruthImgList = first :: rest
       /\ kept_list = List.filter (kept self (frame_of first)) groundTruthImgList
       /\ Forall (fun p => inf_start self < frame_of p
                           /\ frame_of p mod skip_interv self = frame_of first) kept_list.
Proof.
  unfold ViperCityscapesSemSegEvaluator.subsample. intros Hrun.
  destruct groundTruthImgList as [|first rest]; [discriminate Hrun|].
  rewrite getitem_0, result_bind_ok in Hrun.
  destruct (ViperCityscapesSemSegEvaluator.frame_index first) as [i|e] eqn:E;
    [|discriminate Hrun].
  rewrite result_bind_ok in Hrun.
  destruct (ViperCityscapesSemSegEvaluator.subsample_loop self i (first :: rest) (Some []))
    as [r|e] eqn:El; [|discriminate Hrun].
  apply subsample_loop_inv in El as [HF ->]. rewrite result_bind_ok in Hrun.
  injection Hrun as <-. split; [exact HF|].
  exists first, rest. rewrite (frame_of_ok _ _ E). split; [reflexivity|].
  split; [reflexivity|]. exact (filter_kept_Forall self i (first :: rest)).
Qed.

Lemma subsample_returns_filter_witness :
  Forall (fun p => is_ok (ViperCityscapesSemSegEvaluator.frame_index p) = true)
         (sorted (glob_in "/gt" "" (gt_tree demo_video_world)))
  /\ exists first rest,
       sorted (glob_in "/gt" "" (gt_tree demo_video_world)) = first :: rest
       /\ demo_video_kept
          = List.filter (kept (demo_self "viper") (frame_of first))
              (sorted (glob_in "/gt" "" (gt_tree demo_video_world)))
       /\ Forall (fun p => inf_start (demo_self "viper") < frame_of p
                           /\ frame_of p mod skip_interv (demo_self "viper") = frame_of first)
                 demo_video_kept.
Proof.
  apply (subsample_returns_filter (demo_self "viper")
           (sorted (glob_in "/gt" "" (gt_tree demo_video_world))) demo_video_kept).
  vm_compute. reflexivity.
Defined.

Lemma subsample_loop_zero_skip (self : evaluator) (start_idx : Z) (l : list string)
    (tmp : option (list string)) :
  skip_interv self = 0 ->
  Forall (fun p => is_ok (ViperCityscapesSemSegEvaluator.frame_index p) = true) l ->
  Exists (fun p => inf_start self < frame_of p) l ->
  ViperCityscapesSemSegEvaluator.subsample_loop self start_idx l tmp = Raise ZeroDivisionError.
Proof.
  intros Hz Hall Hex. induction Hall as [|p l Hp Hall IH]; [inversion Hex|].
  cbn [ViperCityscapesSemSegEvaluator.subsample_loop].
  destruct (ViperCityscapesSemSegEvaluator.frame_index p) as [i|e] eqn:E; [|discriminate Hp].
  rewrite result_bind_ok.
  destruct (inf_start self <? i) eqn:Ei.
  - rewrite result_bind_ok. unfold mod_. rewrite Hz. reflexivity.
  - apply IH. apply Exists_cons in Hex as [Hex|Hex]; [|exact Hex].
    rewrite (frame_of_ok _ _ E) in Hex. apply Z.ltb_ge in Ei. lia.
Qed.

Lemma subsample_loop_app (self : evaluator) (start_idx : Z) (l1 l2 acc : list string) :
  skip_interv self <> 0 ->
  Forall (fun p => is_ok (ViperCityscapesSemSegEvaluator.frame_index p) = true) l1 ->
  ViperCityscapesSemSegEvaluator.subsample_loop self start_idx (l1 ++ l2) (Some acc)
  = ViperCityscapesSemSegEvaluator.subsample_loop self start_idx l2
      (Some (acc ++ List.filter (kept self start_idx) l1)%list).
Proof.
  intros Hk Hall. revert acc. induction Hall as [|p l Hp Hall IH]; intros acc.
  - cbn. rewrite app_nil_r. reflexivity.
  - cbn [app ViperCityscapesSemSegEvaluator.subsample_loop List.filter].
    destruct (ViperCityscapesSemSegEvaluator.frame_index p) as [i|e] eqn:E; [|discriminate].
    rewrite result_bind_ok. unfold kept at 1. rewrite (frame_of_ok _ _ E).
    destruct (inf_start self <? i); cbn [andb]; [|apply IH].
    rewrite result_bind_ok. unfold mod_.
    destruct (skip_interv self =? 0) eqn:Ez; [apply Z.eqb_eq in Ez; contradiction|].
    rewrite result_bind_ok.
    destruct (i mod skip_interv self =? start_idx); [|apply IH].
    rewrite IH, <- app_assoc. reflexivity.
Qed.

Lemma filter_none {A} (f : A -> bool) (l : list A) :
  (forall x, In x l -> f x = false) -> List.filter f l = [].
Proof.
  induction l as [|x l IH]; intros Hf; [reflexivity|].
  cbn [List.filter]. rewrite (Hf x (or_introl eq_refl)).
  apply IH. intros y Hy. apply Hf. right. exact Hy.
Qed.

Lemma Forall_forallb {A} (f : A -> bool) (l : list A) :
  forallb f l = true -> Forall (fun x => f x = true) l.
Proof.
  induction l as [|x l IH]; cbn [forallb]; intros Hf; [constructor|].
  apply andb_prop in Hf as [Hx Hl]. constructor; [exact Hx|exact (IH Hl)].
Qed.

Lemma Exists_existsb (bound : Z) (l : list string) :
  existsb (fun p => bound <? frame_of p) l = true ->
  Exists (fun p => bound < frame_of p) l.
Proof.
  induction l as [|x l IH]; cbn [existsb]; intros Hf; [discriminate Hf|].
  apply orb_prop in Hf as [Hx|Hl].
  - apply Exists_cons_hd. apply Z.ltb_lt. exact Hx.
  - apply Exists_cons_tl. exact (IH Hl).
Qed.

Section SubsampleFailures.
Context {S : Type} `{Scalar S}.
Variables (vid_eval : scorer (gmap string S)) (args0 : scorer_args).

(** X8.  With a skip interval of zero, as soon as one enumerated frame lies
    after the warm-up offset the temporal [evaluate] raises
    [ZeroDivisionError] on the coordinator, before any prediction is
    looked up. *)
Theorem viper_evaluate_zero_skip (self : evaluator) (w : world) :
  skip_interv self = 0 ->
  Forall (fun p => is_ok (ViperCityscapesSemSegEvaluator.frame_index p) = true)
         (sorted (glob_in (gt_dir (_metadata self)) (viper_suffix self) (gt_tree w))) ->
  Exists (fun p => inf_start self < frame_of p)
         (sorted (glob_in (gt_dir (_metadata self)) (viper_suffix self) (gt_tree w))) ->
  ViperCityscapesSemSegEvaluator.evaluate vid_eval args0 0 self w
    = (enumerated self (viper_suffix self) w, Raise ZeroDivisionError).
Proof.
  intros Hz Hall Hex. rewrite viper_evaluate_coordinator.
  unfold ViperCityscapesSemSegEvaluator.subsample.
  destruct (sorted (glob_in (gt_dir (_metadata self)) (viper_suffix self) (gt_tree w)))
    as [|first rest] eqn:El; [inversion Hex|].
  rewrite getitem_0, result_bind_ok.
  pose proof (Forall_inv Hall) as Hf. cbn beta in Hf.
  destruct (ViperCityscapesSemSegEvaluator.frame_index first) as [i|e]; [|discriminate Hf].
  rewrite result_bind_ok, (subsample_loop_zero_skip self i _ _ Hz Hall Hex).
  reflexivity.
Qed.

(** X9.  For a dataset type other than 'cityscapes' every entry two levels
    below the ground-truth directory is enumerated, and one whose name
    carries no frame index makes the temporal [evaluate] raise
    [ValueError] on the coordinator (skip interval not zero, the entries
    sorted before it being frames). *)
Theorem viper_evaluate_stray_file (self : evaluator) (w : world)
    (frames : list string) (stray : string) (later : list string) :
  dataset_type self <> "cityscapes" ->
  skip_interv self <> 0 ->
  sorted (glob_in (gt_dir (_metadata self)) "" (gt_tree w)) = (frames ++ stray :: later)%list ->
  Forall (fun p => is_ok (ViperCityscapesSemSegEvaluator.frame_index p) = true) frames ->
  is_ok (ViperCityscapesSemSegEvaluator.frame_index stray) = false ->
  ViperCityscapesSemSegEvaluator.evaluate vid_eval args0 0 self w
    = (enumerated self "" w, Raise ValueError).
Proof.
  intros Hd Hk Hl Hall Hstray. apply String.eqb_neq in Hd.
  apply frame_index_error in Hstray.
  rewrite viper_evaluate_coordinator. unfold viper_suffix. rewrite Hd, Hl.
  unfold ViperCityscapesSemSegEvaluator.subsample.
  destruct frames as [|first frames].
  - cbn [app]. rewrite getitem_0, result_bind_ok, Hstray. reflexivity.
  - cbn [app]. rewrite getitem_0, result_bind_ok.
    pose proof (Forall_inv Hall) as Hf. cbn beta in Hf.
    destruct (ViperCityscapesSemSegEvaluator.frame_index first) as [i|e]; [|discriminate Hf].
    rewrite result_bind_ok.
    change (first :: (frames ++ stray :: later)%list)
      with ((first :: frames) ++ stray :: later)%list.
    rewrite (subsample_loop_app self i (first :: frames) (stray :: later) [] Hk Hall).
    cbn [ViperCityscapesSemSegEvaluator.subsample_loop]. rewrite Hstray. reflexivity.
Qed.

(** X10.  For a dataset type other than 'cityscapes' and a positive skip
    interval, when the frame index of the first enumerated file is not
    in [0, skip interval), no file passes the loop's test, whatever the
    other frame indices are, and the temporal [evaluate] fails its
    assertion on the coordinator. *)
Theorem viper_evaluate_late_start (self : evaluator) (w : world)
    (first : string) (rest : list string) :
  dataset_type self <> "cityscapes" ->
  0 < skip_interv self ->
  sorted (glob_in (gt_dir (_metadata self)) "" (gt_tree w)) = first :: rest ->
  Forall (fun p => is_ok (ViperCityscapesSemSegEvaluator.frame_index p) = true)
         (first :: rest) ->
  ~ (0 <= frame_of first < skip_interv self) ->
  ViperCityscapesSemSegEvaluator.subsample self (first :: rest) (Some []) = Ok []
  /\ ViperCityscapesSemSegEvaluator.evaluate vid_eval args0 0 self w
     = (enumerated self "" w, Raise AssertionError).
Proof.
  intros Hd Hk Hl Hall Hlate.
  assert (Hsub : ViperCityscapesSemSegEvaluator.subsample self (first :: rest) (Some [])
                 = Ok []).
  { rewrite subsample_filter by (lia || exact Hall). f_equal.
    apply filter_none. intros p _. unfold kept.
    destruct (frame_of p mod skip_interv self =? frame_of first) eqn:E;
      [|apply andb_false_r].
    apply Z.eqb_eq in E.
    pose proof (Z.mod_pos_bound (frame_of p) (skip_interv self) Hk). lia. }
  split; [exact Hsub|].
  apply String.eqb_neq in Hd.
  pose proof (viper_evaluate_nothing_left vid_eval args0 self w) as Hn.
  unfold viper_suffix in Hn. rewrite Hd, Hl in Hn. exact (Hn Hsub).
Qed.
End SubsampleFailures.

Lemma viper_evaluate_zero_skip_witness :
  ViperCityscapesSemSegEvaluator.evaluate demo_semseg_scorer no_args 0 zero_skip_self
    demo_video_world
  = (enumerated zero_skip_self (viper_suffix zero_skip_self) demo_video_world,
     Raise ZeroDivisionError).
Proof.
  apply (viper_evaluate_zero_skip demo_semseg_scorer no_args zero_skip_self demo_video_world).
  - reflexivity.
  - apply Forall_forallb. vm_compute. reflexivity.
  - apply Exists_existsb. vm_compute. reflexivity.
Defined.

Lemma viper_evaluate_stray_file_witness :
  ViperCityscapesSemSegEvaluator.evaluate demo_semseg_scorer no_args 0 (demo_self "viper")
    stray_video_world
  = (enumerated (demo_self "viper") "" stray_video_world, Raise ValueError).
Proof.
  apply (viper_evaluate_stray_file demo_semseg_scorer no_args (demo_self "viper")
           stray_video_world ["/gt/001/001_00000.png"] "/gt/001/README.txt" []).
  - discriminate.
  - discriminate.
  - reflexivity.
  - repeat constructor.
  - reflexivity.
Defined.

Lemma viper_evaluate_late_start_witness :
  ViperCityscapesSemSegEvaluator.subsample (demo_self "viper")
    ["/gt/002/002_00022.png"; "/gt/002/002_00032.png"; "/gt/002/002_00042.png"] (Some [])
  = Ok []
  /\ ViperCityscapesSemSegEvaluator.evaluate demo_semseg_scorer no_args 0 (demo_self "viper")
       late_video_world
     = (enumerated (demo_self "viper") "" late_video_world, Raise AssertionError).
Proof.
  apply (viper_evaluate_late_start demo_semseg_scorer no_args (demo_self "viper")
           late_video_world "/gt/002/002_00022.png"
           ["/gt/002/002_00032.png"; "/gt/002/002_00042.png"]).
  - discriminate.
  - reflexivity.
  - reflexivity.
  - repeat constructor.
  - vm_compute. intros [_ Hc]. discriminate Hc.
Defined.

(** ** Batches of the instance evaluator *)

Section InstanceBatch.
Context {S : Type}.
Variables (name2label : gmap string label) (str_of_score : S -> string)
          (self : evaluator).

Local Abbreviation instance := (@CityscapesInstanceEvaluator.instance S).

Lemma process_batch_ok (batch : list (string * list instance)) :
  forall w : world,
    Forall (fun io => Forall (valid_instance name2label self) io.2) batch ->
    List.NoDup (map (fun io => pred_txt_of self io.1) batch) ->
    exists fs' : gmap string file,
      for_each batch (CityscapesInstanceEvaluator.process_one name2label str_of_score self) w
        = (World fs' (gt_tree w) (trace w), Ok tt)
      /\ (forall io, In io batch ->
            manifest_complete name2label str_of_score self fs' io.1 io.2)
      /\ (forall p, (forall io, In io batch -> p <> pred_txt_of self io.1) ->
                    is_mask_file (files w) p -> is_mask_file fs' p)
      /\ (forall p, fs' !! p = files w !! p
                    \/ (exists io, In io batch /\ p = pred_txt_of self io.1)
                    \/ (exists file_name k classes, p = png_of self file_name k classes)).
Proof.
  induction batch as [|[file_name output] rest IH]; intros w Hvalid Hnd.
  - exists (files w). cbn [for_each]. rewrite ret_run. destruct w as [fs g t].
    cbn [files gt_tree trace]. split; [reflexivity|]. split; [intros io []|].
    split; [intros p _ Hp; exact Hp|]. intros p. left. reflexivity.
  - apply Forall_cons in Hvalid as [Hout Hvalid]. cbn [snd] in Hout.
    cbn [map fst] in Hnd. apply List.NoDup_cons_iff in Hnd as [Hfresh Hnd].
    set (w0 := World (<[pred_txt_of self file_name := TextFile []]> (files w))
                     (gt_tree w) (trace w)).
    destruct (write_instances_ok name2label str_of_score self file_name output 0%nat w0 []
                Hout) as (fs1 & lines & Hrun1 & Hfile & Hlen & Hlines & Hkeep & Hframe).
    { cbn [w0 files]. apply lookup_insert_eq. }
    destruct (IH (World fs1 (gt_tree w) (trace w)) Hvalid Hnd)
      as (fs' & Hrun & Hdone & Hpres & Hfr).
    cbn [files gt_tree trace] in *.
    assert (Hpng : forall fn k c io, In io rest -> png_of self fn k c <> pred_txt_of self io.1).
    { intros fn k c io _ E. pose proof (last_char_png self fn k c) as Hg.
      rewrite E, last_char_pred_txt in Hg. discriminate Hg. }
    exists fs'. split.
    { cbn [for_each]. rewrite bind_run, process_one_run. fold w0. rewrite Hrun1.
      cbn beta iota. exact Hrun. }
    split.
    { intros io [<-|Hin]; [|apply Hdone, Hin]. cbn [fst snd].
      exists lines. split.
      - destruct (Hfr (pred_txt_of self file_name)) as [E|[[io [Hin E]]|[fn [k [c E]]]]].
        + rewrite E. exact Hfile.
        + exfalso. apply Hfresh. apply in_map_iff. exists io. split; [symmetry; exact E|exact Hin].
        + exfalso. pose proof (last_char_png self fn k c) as Hg.
          rewrite <- E, last_char_pred_txt in Hg. discriminate Hg.
      - split; [exact Hlen|]. intros k inst Hk.
        destruct (Hlines k inst Hk) as (classes & lab & Hr & Hl & Hm).
        exists classes, lab. split; [exact Hr|]. split; [exact Hl|].
        apply Hpres; [|exact Hm]. intros io Hin. apply Hpng, Hin. }
    split.
    { intros p Hp Hmask. apply Hpres; [intros io Hin; apply Hp; right; exact Hin|].
      apply Hkeep; [apply (Hp (file_name, output)); left; reflexivity|].
      destruct Hmask as [px [Hpx Hbin]]. exists px. split; [|exact Hbin].
      cbn [w0 files]. rewrite lookup_insert_ne; [exact Hpx|].
      intros E. apply (Hp (file_name, output)); [left; reflexivity|symmetry; exact E]. }
    intros p. destruct (Hfr p) as [E|[[io [Hin E]]|E]].
    + destruct (Hframe p) as [E1|[E1|[k [c E1]]]].
      * destruct (decide (pred_txt_of self file_name = p)) as [<-|Hne].
        -- right. left. exists (file_name, output). split; [left; reflexivity|reflexivity].
        -- left. rewrite E, E1. cbn [w0 files]. apply lookup_insert_ne. exact Hne.
      * right. left. exists (file_name, output). split; [left; reflexivity|exact E1].
      * right. right. exists file_name, (0 + k)%nat, c. exact E1.
    + right. left. exists io. split; [right; exact Hin|exact E].
    + right. right. exact E.
Qed.

(** X11.  [process] on a batch whose instances are valid and whose inputs have
    pairwise different manifests succeeds and leaves every manifest
    complete: the images of a batch do not disturb each other. *)
Theorem instance_process_batch (inputs : list string) (outputs : list (list instance))
    (w : world) :
  Forall (fun io => Forall (valid_instance name2label self) io.2) (zip inputs outputs) ->
  List.NoDup (map (fun io => pred_txt_of self io.1) (zip inputs outputs)) ->
  exists fs' : gmap string file,
    CityscapesInstanceEvaluator.process name2label str_of_score self inputs outputs w
      = (World fs' (gt_tree w) (trace w), Ok tt)
    /\ forall file_name output,
         In (file_name, output) (zip inputs outputs) ->
         manifest_complete name2label str_of_score self fs' file_name output.
Proof.
  intros Hvalid Hnd.
  destruct (process_batch_ok (zip inputs outputs) w Hvalid Hnd)
    as (fs' & Hrun & Hdone & _ & _).
  exists fs'. split; [exact Hrun|].
  intros file_name output Hin. exact (Hdone (file_name, output) Hin).
Qed.
End InstanceBatch.

Lemma instance_process_batch_witness :
  exists fs' : gmap string file,
    CityscapesInstanceEvaluator.process demo_name2label demo_str_of_score
        (demo_self "cityscapes") ["val/munster/munster_000173_000019_leftImg8bit.png";
                                  "val/munster/munster_000174_000019_leftImg8bit.png"]
        [demo_instances; []] empty_world
      = (World fs' (gt_tree empty_world) (trace empty_world), Ok tt)
    /\ forall file_name output,
         In (file_name, output)
            (zip ["val/munster/munster_000173_000019_leftImg8bit.png";
                  "val/munster/munster_000174_000019_leftImg8bit.png"]
                 [demo_instances; []]) ->
         manifest_complete demo_name2label demo_str_of_score (demo_self "cityscapes") fs'
           file_name output.
Proof.
  apply (instance_process_batch demo_name2label demo_str_of_score (demo_self "cityscapes")
           ["val/munster/munster_000173_000019_leftImg8bit.png";
            "val/munster/munster_000174_000019_leftImg8bit.png"]
           [demo_instances; []] empty_world).
  - repeat constructor; exact demo_instances_valid.
  - vm_compute. repeat constructor; cbn; intros Hin;
      repeat (destruct Hin as [Hin|Hin]; [discriminate Hin|]); exact Hin.
Defined.

(** ** An instance that cannot be written *)

Lemma resolve_raise {S} (name2label : gmap string label) (self : evaluator)
    (inst : @CityscapesInstanceEvaluator.instance S) (e : exn) :
  resolve name2label self inst = Raise e ->
  getitem (thing_classes (_metadata self)) (CityscapesInstanceEvaluator.pred_class inst)
    = Raise e
  \/ exists classes,
       getitem (thing_classes (_metadata self)) (CityscapesInstanceEvaluator.pred_class inst)
         = Ok classes
       /\ dict_get name2label classes = Raise e.
Proof.
  unfold resolve.
  destruct (getitem _ _) as [c|e1]; [|intros [= ->]; left; reflexivity].
  rewrite result_bind_ok.
  destruct (dict_get name2label c) as [l|e1] eqn:E; [discriminate|].
  intros [= ->]. right. exists c. split; [reflexivity|exact E].
Qed.

Section InstanceFailure.
Context {S : Type}.
Variables (name2label : gmap string label) (str_of_score : S -> string)
          (self : evaluator) (file_name : string).

Local Abbreviation instance := (@CityscapesInstanceEvaluator.instance S).

(** The loop on a list that continues another: the second part starts
    where the first ended, if it ended well. *)
Lemma write_instances_app (first rest : list instance) :
  forall (i : nat) (w : world),
    CityscapesInstanceEvaluator.write_instances name2label str_of_score self
        (splitext_root (basename file_name)) (pred_txt_of self file_name) i
        (first ++ rest) w
    = match CityscapesInstanceEvaluator.write_instances name2label str_of_score self
              (splitext_root (basename file_name)) (pred_txt_of self file_name) i first w
      with
      | (w1, Ok _) =>
          CityscapesInstanceEvaluator.write_instances name2label str_of_score self
            (splitext_root (basename file_name)) (pred_txt_of self file_name)
            (i + length first) rest w1
      | (w1, Raise e) => (w1, Raise e)
      end.
Proof.
  induction first as [|inst first IH]; intros i w.
  - cbn [app length CityscapesInstanceEvaluator.write_instances].
    rewrite ret_run, Nat.add_0_r. reflexivity.
  - cbn [app length CityscapesInstanceEvaluator.write_instances].
    rewrite !bind_run, !lift_run.
    destruct (getitem _ _) as [classes|e]; [|reflexivity].
    cbn beta iota. rewrite !bind_run, !lift_run.
    destruct (dict_get name2label classes) as [lab|e]; [|reflexivity].
    cbn beta iota zeta. rewrite !bind_run, write_file_run. cbn beta iota.
    rewrite !bind_run. unfold append_chunk at 1 2. cbn beta iota zeta.
    rewrite IH. replace (Datatypes.S i + length first)%nat
      with (i + Datatypes.S (length first))%nat by lia.
    reflexivity.
Qed.

(** The loop stops at an instance whose class does not resolve and
    writes nothing for it. *)
Lemma write_instances_bad (bad : instance) (later : list instance) (e : exn)
    (i : nat) (w : world) :
  resolve name2label self bad = Raise e ->
  CityscapesInstanceEvaluator.write_instances name2label str_of_score self
      (splitext_root (basename file_name)) (pred_txt_of self file_name) i
      (bad :: later) w
  = (w, Raise e).
Proof.
  intros Hbad. cbn [CityscapesInstanceEvaluator.write_instances].
  rewrite bind_run, lift_run.
  destruct (resolve_raise _ _ _ _ Hbad) as [Hg|[c [Hg Hd]]]; rewrite Hg; [reflexivity|].
  cbn beta iota. rewrite bind_run, lift_run, Hd. reflexivity.
Qed.

(** X12.  When instance number [length good] of an image has a class index
    outside [thing_classes], or a class name the label table lacks,
    [process] stops with that [IndexError] or [KeyError] and leaves the
    files exactly as processing the instances before it leaves them:
    the manifest holds the lines of those instances and no other, their
    masks are written, nothing is written for the failing instance or a
    later one, and the remaining inputs of the batch are not processed. *)
Theorem instance_process_stops (good : list instance) (bad : instance)
    (later : list instance) (e : exn) (inputs : list string)
    (outputs : list (list instance)) (w : world) :
  Forall (valid_instance name2label self) good ->
  resolve name2label self bad = Raise e ->
  exists fs' : gmap string file,
    CityscapesInstanceEvaluator.process name2label str_of_score self
        [file_name] [good] w
      = (World fs' (gt_tree w) (trace w), Ok tt)
    /\ CityscapesInstanceEvaluator.process name2label str_of_score self
        (file_name :: inputs) ((good ++ bad :: later)%list :: outputs) w
      = (World fs' (gt_tree w) (trace w), Raise e)
    /\ manifest_complete name2label str_of_score self fs' file_name good.
Proof.
  intros Hvalid Hbad.
  destruct (write_instances_ok name2label str_of_score self file_name good 0%nat
              (World (<[pred_txt_of self file_name := TextFile []]> (files w))
                     (gt_tree w) (trace w)) [] Hvalid)
    as (fs' & lines & Hrun & Hfile & Hlen & Hlines & _ & _).
  { cbn [files]. apply lookup_insert_eq. }
  cbn [files gt_tree trace] in Hrun.
  exists fs'. split; [|split].
  - rewrite process_single, process_one_run. exact Hrun.
  - unfold CityscapesInstanceEvaluator.process. cbn [zip zip_with for_each].
    rewrite bind_run, process_one_run, write_instances_app, Hrun.
    rewrite (write_instances_bad bad later e _ _ Hbad). reflexivity.
  - exists lines. split; [exact Hfile|]. split; [exact Hlen|]. exact Hlines.
Qed.
End InstanceFailure.

Lemma instance_process_stops_witness :
  exists fs' : gmap string file,
    CityscapesInstanceEvaluator.process demo_name2label demo_str_of_score
        (demo_self "cityscapes") ["a.png"] [demo_instances] empty_world
      = (World fs' (gt_tree empty_world) (trace empty_world), Ok tt)
    /\ CityscapesInstanceEvaluator.process demo_name2label demo_str_of_score
        (demo_self "cityscapes") ("a.png" :: ["b.png"])
        ((demo_instances ++ CityscapesInstanceEvaluator.Instance 7 (1 # 2) [[1]] :: [])%list
           :: [demo_instances]) empty_world
      = (World fs' (gt_tree empty_world) (trace empty_world), Raise IndexError)
    /\ manifest_complete demo_name2label demo_str_of_score (demo_self "cityscapes") fs'
         "a.png" demo_instances.
Proof.
  apply (instance_process_stops demo_name2label demo_str_of_score (demo_self "cityscapes")
           "a.png" demo_instances (CityscapesInstanceEvaluator.Instance 7 (1 # 2) [[1]]) []
           IndexError ["b.png"] [demo_instances] empty_world).
  - exact demo_instances_valid.
  - reflexivity.
Defined.

(** ** Every mapping the temporal evaluator returns *)

Lemma subsample_cityscapes_fails (self : evaluator) (l : list string)
    (tmp : option (list string)) :
  (forall p, In p l -> exists a, p = a +:+ "_gtFine_labelIds.png") ->
  is_ok (ViperCityscapesSemSegEvaluator.subsample self l tmp) = false.
Proof.
  intros Hsuf. unfold ViperCityscapesSemSegEvaluator.subsample.
  destruct l as [|p l]; [reflexivity|].
  rewrite getitem_0, result_bind_ok.
  destruct (Hsuf p (or_introl eq_refl)) as [a ->].
  rewrite frame_index_labelIds. reflexivity.
Qed.

Section VideoReturns.
Context {S : Type} `{Scalar S}.
Variables (vid_eval : scorer (gmap string S)) (args0 : scorer_args).

(** X13.  Whenever the temporal [evaluate] returns a mapping, it ran on the
    coordinator for a dataset type other than 'cityscapes', and the
    mapping has the three groups "sem_seg", "sem_seg_Vid" and
    "sem_seg_ImgVid" whose entries obey the composite law: VIoU_total is
    the mean of the three VIoU entries of "sem_seg", ImgVid_IoU_Total is
    (VIoU_total * 3 + IoU) / 4, and the same for the _sup entries. *)
Theorem viper_evaluate_returns (rank : nat) (self : evaluator) (w w' : world)
    (ret : metrics S) :
  ViperCityscapesSemSegEvaluator.evaluate vid_eval args0 rank self w
    = (w', Ok (Some ret)) ->
  rank = 0%nat
  /\ dataset_type self <> "cityscapes"
  /\ dom ret = {[ "sem_seg"; "sem_seg_Vid"; "sem_seg_ImgVid" ]}
  /\ exists (sem_seg : gmap string S)
            (IoU IoU_sup VIoU_5 VIoU_sup_5 VIoU_10 VIoU_sup_10 VIoU_15 VIoU_sup_15 : S),
       ret !! "sem_seg" = Some sem_seg
       /\ dom sem_seg = {[ "IoU"; "IoU_sup"; "VIoU_5"; "VIoU_sup_5"; "VIoU_10";
                           "VIoU_sup_10"; "VIoU_15"; "VIoU_sup_15" ]}
       /\ sem_seg !! "IoU" = Some IoU
       /\ sem_seg !! "IoU_sup" = Some IoU_sup
       /\ sem_seg !! "VIoU_5" = Some VIoU_5
       /\ sem_seg !! "VIoU_sup_5" = Some VIoU_sup_5
       /\ sem_seg !! "VIoU_10" = Some VIoU_10
       /\ sem_seg !! "VIoU_sup_10" = Some VIoU_sup_10
       /\ sem_seg !! "VIoU_15" = Some VIoU_15
       /\ sem_seg !! "VIoU_sup_15" = Some VIoU_sup_15
       /\ ret !! "sem_seg_Vid"
          = Some (<["VIoU_total" := mean3 VIoU_5 VIoU_10 VIoU_15]>
                  {[ "VIoU_sup_total" := mean3 VIoU_sup_5 VIoU_sup_10 VIoU_sup_15 ]})
       /\ ret !! "sem_seg_ImgVid"
          = Some (<["ImgVid_IoU_Total" := blend (mean3 VIoU_5 VIoU_10 VIoU_15) IoU]>
                  {[ "ImgVid_sup_IoU_Total" :=
                       blend (mean3 VIoU_sup_5 VIoU_sup_10 VIoU_sup_15) IoU_sup ]}).
Proof.
  intros Hrun.
  assert (Hrank : rank = 0%nat).
  { destruct rank as [|rank]; [reflexivity|].
    unfold ViperCityscapesSemSegEvaluator.evaluate in Hrun.
    apply bind_ok_inv in Hrun as (w1 & [] & _ & Hrun). cbn in Hrun. discriminate Hrun. }
  subst rank. split; [reflexivity|].
  rewrite viper_evaluate_coordinator in Hrun.
  assert (Hd : String.eqb (dataset_type self) "cityscapes" = false).
  { destruct (String.eqb (dataset_type self) "cityscapes") eqn:Hd; [|reflexivity].
    exfalso.
    pose proof (subsample_cityscapes_fails self
                  (sorted (glob_in (gt_dir (_metadata self)) (viper_suffix self) (gt_tree w)))
                  None) as Hf.
    unfold viper_suffix in Hf, Hrun. rewrite Hd in Hf, Hrun.
    destruct (ViperCityscapesSemSegEvaluator.subsample _ _ _) as [l|e];
      [|discriminate Hrun].
    discriminate Hf.
    intros p Hp. apply sorted_In in Hp. exact (glob_in_suffix _ _ _ _ Hp). }
  split; [apply String.eqb_neq, Hd|].
  rewrite Hd in Hrun.
  destruct (ViperCityscapesSemSegEvaluator.subsample _ _ _) as [gts|e]; [|discriminate Hrun].
  set (w0 := enumerated self (viper_suffix self) w) in Hrun.
  pose proof Hrun as Hrep.
  unfold ViperCityscapesSemSegEvaluator.report in Hrun. cbn zeta in Hrun.
  apply bind_ok_inv in Hrun as (w1 & [] & Hne & Hrun).
  apply assert_nonempty_ok_inv in Hne as [Hne ->].
  apply bind_ok_inv in Hrun as (w2 & preds & Hpreds & Hrun).
  apply map_M_get_prediction_inv in Hpreds as [Hpreds ->].
  apply bind_ok_inv in Hrun as (w3 & results & Hscore & Hrun).
  apply evaluate_img_lists_ok_inv in Hscore as (left & Hscore & ->).
  unfold with_trace in Hscore. cbn [files] in Hscore.
  apply bind_ok_inv in Hrun as (w4 & r1 & H1 & Hrun).
  apply lift_ok_inv in H1 as [H1 ->]. apply dict_get_ok_inv in H1.
  apply bind_ok_inv in Hrun as (w4 & r2 & H2 & Hrun).
  apply lift_ok_inv in H2 as [H2 ->]. apply dict_get_ok_inv in H2.
  apply bind_ok_inv in Hrun as (w4 & r3 & H3 & Hrun).
  apply lift_ok_inv in H3 as [H3 ->]. apply dict_get_ok_inv in H3.
  apply bind_ok_inv in Hrun as (w4 & r4 & H4 & Hrun).
  apply lift_ok_inv in H4 as [H4 ->]. apply dict_get_ok_inv in H4.
  apply bind_ok_inv in Hrun as (w4 & r5 & H5 & Hrun).
  apply lift_ok_inv in H5 as [H5 ->]. apply dict_get_ok_inv in H5.
  apply bind_ok_inv in Hrun as (w4 & r6 & H6 & Hrun).
  apply lift_ok_inv in H6 as [H6 ->]. apply dict_get_ok_inv in H6.
  apply bind_ok_inv in Hrun as (w4 & r7 & H7 & Hrun).
  apply lift_ok_inv in H7 as [H7 ->]. apply dict_get_ok_inv in H7.
  apply bind_ok_inv in Hrun as (w4 & r8 & H8 & _).
  apply lift_ok_inv in H8 as [H8 ->]. apply dict_get_ok_inv in H8.
  rewrite (report_run vid_eval args0 self w0 gts preds left results r1 r2 r3 r4 r5 r6 r7 r8
             Hne Hpreds Hscore H1 H2 H3 H4 H5 H6 H7 H8) in Hrep.
  injection Hrep as _ <-.
  split; [rewrite !dom_insert_L, dom_singleton_L; set_solver|].
  eexists _, (pct r1), (pct r2), (pct r3), (pct r4), (pct r5), (pct r6), (pct r7), (pct r8).
  split; [lookups|].
  split; [rewrite !dom_insert_L, dom_singleton_L; set_solver|].
  repeat split; lookups.
Qed.
End VideoReturns.

Lemma viper_evaluate_returns_witness :
  0%nat = 0%nat
  /\ dataset_type (demo_self "viper") <> "cityscapes"
  /\ dom demo_video_ret = {[ "sem_seg"; "sem_seg_Vid"; "sem_seg_ImgVid" ]}
  /\ exists (sem_seg : gmap string Q)
            (IoU IoU_sup VIoU_5 VIoU_sup_5 VIoU_10 VIoU_sup_10 VIoU_15 VIoU_sup_15 : Q),
       demo_video_ret !! "sem_seg" = Some sem_seg
       /\ dom sem_seg = {[ "IoU"; "IoU_sup"; "VIoU_5"; "VIoU_sup_5"; "VIoU_10";
                           "VIoU_sup_10"; "VIoU_15"; "VIoU_sup_15" ]}
       /\ sem_seg !! "IoU" = Some IoU
       /\ sem_seg !! "IoU_sup" = Some IoU_sup
       /\ sem_seg !! "VIoU_5" = Some VIoU_5
       /\ sem_seg !! "VIoU_sup_5" = Some VIoU_sup_5
       /\ sem_seg !! "VIoU_10" = Some VIoU_10
       /\ sem_seg !! "VIoU_sup_10" = Some VIoU_sup_10
       /\ sem_seg !! "VIoU_15" = Some VIoU_15
       /\ sem_seg !! "VIoU_sup_15" = Some VIoU_sup_15
       /\ demo_video_ret !! "sem_seg_Vid"
          = Some (<["VIoU_total" := mean3 VIoU_5 VIoU_10 VIoU_15]>
                  {[ "VIoU_sup_total" := mean3 VIoU_sup_5 VIoU_sup_10 VIoU_sup_15 ]})
       /\ demo_video_ret !! "sem_seg_ImgVid"
          = Some (<["ImgVid_IoU_Total" := blend (mean3 VIoU_5 VIoU_10 VIoU_15) IoU]>
                  {[ "ImgVid_sup_IoU_Total" :=
                       blend (mean3 VIoU_sup_5 VIoU_sup_10 VIoU_sup_15) IoU_sup ]}).
Proof.
  apply (viper_evaluate_returns demo_semseg_scorer no_args 0 (demo_self "viper")
           demo_video_world
           (ViperCityscapesSemSegEvaluator.evaluate demo_semseg_scorer no_args 0
              (demo_self "viper") demo_video_world).1
           demo_video_ret).
  vm_compute. reflexivity.
Defined.

(** ** Every mapping the instance evaluator returns *)

Section InstanceReturns.
Context {S : Type} `{Scalar S}.
Variables (cityscapes_eval : scorer (gmap string (gmap string S))) (args0 : scorer_args).

(** X14.  Whenever [evaluate] of the instance evaluator returns a mapping, it
    ran on the coordinator, ground truth was found, a prediction was
    located for every ground-truth file, the scorer compared all of them
    and answered with averages [allAp] and [allAp50%], the files are
    those the comparison left less the scratch directory, and the mapping
    is the single group "segm" holding AP and AP50, the two averages
    multiplied by 100. *)
Theorem instance_evaluate_returns (rank : nat) (self : evaluator) (w w' : world)
    (ret : metrics S) :
  CityscapesInstanceEvaluator.evaluate cityscapes_eval args0 rank self w
    = (w', Ok (Some ret)) ->
  rank = 0%nat
  /\ exists (preds : list string) (left : gmap string file)
            (all : gmap string (gmap string S))
            (averages : gmap string S) (allAp allAp50 : S),
       glob_in (gt_dir (_metadata self)) "_gtFine_instanceIds.png" (gt_tree w) <> []
       /\ Forall2 (fun gt p =>
                     getPrediction cityscapes_eval (files w)
                       (CityscapesInstanceEvaluator.set_args args0 self) gt = Ok p)
                  (glob_in (gt_dir (_metadata self)) "_gtFine_instanceIds.png" (gt_tree w))
                  preds
       /\ evaluateImgLists cityscapes_eval (files w) preds
            (glob_in (gt_dir (_metadata self)) "_gtFine_instanceIds.png" (gt_tree w))
            (CityscapesInstanceEvaluator.set_args args0 self) = (left, Ok all)
       /\ files w' = removed (_working_dir self) left
       /\ all !! "averages" = Some averages
       /\ averages !! "allAp" = Some allAp
       /\ averages !! "allAp50%" = Some allAp50
       /\ ret = {[ "segm" := <["AP" := s_mul allAp (s_of_Z 100)]>
                               {[ "AP50" := s_mul allAp50 (s_of_Z 100) ]} ]}.
Proof.
  unfold CityscapesInstanceEvaluator.evaluate. intros Hrun.
  apply bind_ok_inv in Hrun as (w1 & [] & Hsync & Hrun).
  rewrite emit_run in Hsync. injection Hsync as <-.
  destruct rank as [|rank]; [|cbn in Hrun; discriminate Hrun].
  split; [reflexivity|]. cbn [Nat.ltb Nat.leb] in Hrun.
  apply bind_ok_inv in Hrun as (w2 & [] & Hinfo & Hrun).
  unfold info_evaluating in Hinfo. rewrite emit_run in Hinfo. injection Hinfo as <-.
  cbn zeta in Hrun.
  apply bind_ok_inv in Hrun as (w3 & gts & Hglob & Hrun).
  rewrite glob_run in Hglob. injection Hglob as <- <-.
  apply bind_ok_inv in Hrun as (w4 & [] & Hne & Hrun).
  apply assert_nonempty_ok_inv in Hne as [Hne ->].
  apply bind_ok_inv in Hrun as (w5 & preds & Hpreds & Hrun).
  apply map_M_get_prediction_inv in Hpreds as [Hpreds ->].
  apply bind_ok_inv in Hrun as (w6 & all & Hscore & Hrun).
  apply evaluate_img_lists_ok_inv in Hscore as (left & Hscore & ->).
  apply bind_ok_inv in Hrun as (w7 & averages & H1 & Hrun).
  apply lift_ok_inv in H1 as [H1 ->]. apply dict_get_ok_inv in H1.
  apply bind_ok_inv in Hrun as (w7 & allAp & H2 & Hrun).
  apply lift_ok_inv in H2 as [H2 ->]. apply dict_get_ok_inv in H2.
  apply bind_ok_inv in Hrun as (w7 & allAp50 & H3 & Hrun).
  apply lift_ok_inv in H3 as [H3 ->]. apply dict_get_ok_inv in H3.
  apply bind_ok_inv in Hrun as (w7 & [] & Hclean & Hrun).
  apply cleanup_ok_inv in Hclean. cbn [files] in Hclean.
  rewrite ret_run in Hrun. injection Hrun as <- <-.
  exists preds, left, all, averages, allAp, allAp50.
  repeat (rewrite ?files_with_trace, ?gt_tree_with_trace in * ).
  split; [exact Hne|]. split; [exact Hpreds|]. split; [exact Hscore|].
  split; [exact Hclean|].
  split; [exact H1|]. split; [exact H2|]. split; [exact H3|]. reflexivity.
Qed.
End InstanceReturns.

Lemma instance_evaluate_returns_witness :
  0%nat = 0%nat
  /\ exists (preds : list string) (left : gmap string file)
            (all : gmap string (gmap string Q))
            (averages : gmap string Q) (allAp allAp50 : Q),
       glob_in "/gt" "_gtFine_instanceIds.png" (gt_tree demo_round_world) <> []
       /\ Forall2 (fun gt p =>
                     getPrediction demo_instance_scorer (files demo_round_world)
                       (CityscapesInstanceEvaluator.set_args no_args (demo_self "cityscapes")) gt
                     = Ok p)
                  (glob_in "/gt" "_gtFine_instanceIds.png" (gt_tree demo_round_world)) preds
       /\ evaluateImgLists demo_instance_scorer (files demo_round_world) preds
            (glob_in "/gt" "_gtFine_instanceIds.png" (gt_tree demo_round_world))
            (CityscapesInstanceEvaluator.set_args no_args (demo_self "cityscapes"))
          = (left, Ok all)
       /\ files (CityscapesInstanceEvaluator.evaluate demo_instance_scorer no_args 0
                   (demo_self "cityscapes") demo_round_world).1
          = removed (_working_dir (demo_self "cityscapes")) left
       /\ all !! "averages" = Some averages
       /\ averages !! "allAp" = Some allAp
       /\ averages !! "allAp50%" = Some allAp50
       /\ demo_instance_ret
          = {[ "segm" := <["AP" := s_mul allAp (s_of_Z 100)]>
                           {[ "AP50" := s_mul allAp50 (s_of_Z 100) ]} ]}.
Proof.
  apply (instance_evaluate_returns demo_instance_scorer no_args 0 (demo_self "cityscapes")
           demo_round_world
           (CityscapesInstanceEvaluator.evaluate demo_instance_scorer no_args 0
              (demo_self "cityscapes") demo_round_world).1
           demo_instance_ret).
  vm_compute. reflexivity.
Defined.

(** ** The scratch directory after [reset] *)

(** The directories after [reset] has bound the new object and, where
    the adopted name is another one, cleaned it up. *)
Lemma reset_dirs (old : option CityscapesEvaluator.tempdir) (fresh first d : string)
    (ds : gset string) :
  fresh ∉ ds ->
  (forall td, old = Some td -> CityscapesEvaluator.td_armed td = true ->
              CityscapesEvaluator.td_name td <> fresh) ->
  d ∈ (if negb (String.eqb first fresh)
       then CityscapesEvaluator.finalize old ({[ fresh ]} ∪ ds) ∖ {[ fresh ]}
       else CityscapesEvaluator.finalize old ({[ fresh ]} ∪ ds))
  <-> (d = fresh /\ first = fresh)
      \/ (d ∈ ds /\ old <> Some (CityscapesEvaluator.TempDir d true)).
Proof.
  intros Hfresh Hold. unfold CityscapesEvaluator.finalize.
  destruct (String.eqb first fresh) eqn:E;
    [apply String.eqb_eq in E|apply String.eqb_neq in E];
    (destruct old as [[name [|]]|];
      [specialize (Hold _ eq_refl eq_refl); cbn in Hold| |]); cbn;
    rewrite ?elem_of_difference, ?elem_of_union, ?elem_of_singleton;
    naive_solver.
Qed.

(** X15.  [reset] on a worker whose fresh directory did not exist before.
    The evaluator adopts the first gathered name as [_temp_dir] and keeps
    the fresh name as [_working_dir]; its other fields are unchanged.
    Afterwards the fresh directory exists exactly when it is the adopted
    one (and then its object stays armed); the directory of the previous
    round is gone if its object was never cleaned up; every other
    directory is there exactly if it was there before. *)
Theorem reset_adopts_first (self : evaluator) (old : option CityscapesEvaluator.tempdir)
    (fresh first : string) (others : list string) (st : CityscapesEvaluator.scratch) :
  fresh ∉ CityscapesEvaluator.dirs st ->
  (forall td, old = Some td -> CityscapesEvaluator.td_armed td = true ->
              CityscapesEvaluator.td_name td <> fresh) ->
  exists (st' : CityscapesEvaluator.scratch) (self' : evaluator),
    CityscapesEvaluator.reset self old fresh (first :: others) st
      = ((st', self', CityscapesEvaluator.TempDir fresh (String.eqb first fresh)), Ok tt)
    /\ _temp_dir self' = first
    /\ _working_dir self' = fresh
    /\ (forall d : string,
          d ∈ CityscapesEvaluator.dirs st'
          <-> (d = fresh /\ first = fresh)
              \/ (d ∈ CityscapesEvaluator.dirs st
                  /\ old <> Some (CityscapesEvaluator.TempDir d true)))
    /\ CityscapesEvaluator.infos st'
       = (CityscapesEvaluator.infos st
          ++ ["Writing cityscapes results to temporary directory " +:+ first +:+ " ..."])%list
    /\ dataset_type self' = dataset_type self
    /\ _metadata self' = _metadata self
    /\ inf_start self' = inf_start self
    /\ skip_interv self' = skip_interv self.
Proof.
  intros Hfresh Hold. unfold CityscapesEvaluator.reset. rewrite getitem_0.
  eexists _, _. split; [rewrite negb_involutive; reflexivity|].
  cbn [_temp_dir _working_dir dataset_type _metadata inf_start skip_interv
       CityscapesEvaluator.dirs CityscapesEvaluator.infos].
  split; [reflexivity|]. split; [reflexivity|].
  split; [|repeat split].
  intros d. apply reset_dirs; assumption.
Qed.

Lemma reset_adopts_first_witness :
  exists (st' : CityscapesEvaluator.scratch) (self' : evaluator),
    CityscapesEvaluator.reset (demo_self "viper") (Some demo_stale_dir)
      "/tmp/cityscapes_eval_b" ("/tmp/cityscapes_eval_b" :: ["/tmp/cityscapes_eval_c"])
      (CityscapesEvaluator.Scratch {[ "/tmp/cityscapes_eval_a"; "/tmp/other" ]} [])
      = ((st', self',
          CityscapesEvaluator.TempDir "/tmp/cityscapes_eval_b"
            (String.eqb "/tmp/cityscapes_eval_b" "/tmp/cityscapes_eval_b")), Ok tt)
    /\ _temp_dir self' = "/tmp/cityscapes_eval_b"
    /\ _working_dir self' = "/tmp/cityscapes_eval_b"
    /\ (forall d : string,
          d ∈ CityscapesEvaluator.dirs st'
          <-> (d = "/tmp/cityscapes_eval_b"
               /\ "/tmp/cityscapes_eval_b" = "/tmp/cityscapes_eval_b")
              \/ (d ∈ CityscapesEvaluator.dirs
                        (CityscapesEvaluator.Scratch
                           {[ "/tmp/cityscapes_eval_a"; "/tmp/other" ]} [])
                  /\ Some demo_stale_dir <> Some (CityscapesEvaluator.TempDir d true)))
    /\ CityscapesEvaluator.infos st'
       = (CityscapesEvaluator.infos
            (CityscapesEvaluator.Scratch {[ "/tmp/cityscapes_eval_a"; "/tmp/other" ]} [])
          ++ ["Writing cityscapes results to temporary directory "
              +:+ "/tmp/cityscapes_eval_b" +:+ " ..."])%list
    /\ dataset_type self' = dataset_type (demo_self "viper")
    /\ _metadata self' = _metadata (demo_self "viper")
    /\ inf_start self' = inf_start (demo_self "viper")
    /\ skip_interv self' = skip_interv (demo_self "viper").
Proof.
  apply (reset_adopts_first (demo_self "viper") (Some demo_stale_dir)
           "/tmp/cityscapes_eval_b" "/tmp/cityscapes_eval_b" ["/tmp/cityscapes_eval_c"]
           (CityscapesEvaluator.Scratch {[ "/tmp/cityscapes_eval_a"; "/tmp/other" ]} [])).
  - cbn. rewrite elem_of_union, !elem_of_singleton. intros [E|E]; discriminate E.
  - intros td [= <-] _. discriminate.
Defined.

(** ** Failures of the model factory *)

Section BuildFailures.
Variables Net Device : Type.
Variable EXTRA_NECK_REGISTRY : gmap string (ExtraNeck.constructor Net Device).
Variable torch_device : string -> result Device.

(** X16.  Whenever [build_model] returns a module, the variant name is
    registered, the registered constructor was called once on the
    configuration and succeeded, the device name was accepted, and the
    module is what the constructor built with only its device changed. *)
Theorem build_model_returns (c : ExtraNeck.cfg) (log log' : list (ExtraNeck.build_event Device))
    (m : ExtraNeck.module Net Device) :
  ExtraNeck.build_model Net Device EXTRA_NECK_REGISTRY torch_device c log = (log', Ok m) ->
  exists (ctor : ExtraNeck.constructor Net Device) (built : ExtraNeck.module Net Device)
         (d : Device),
    EXTRA_NECK_REGISTRY !! ExtraNeck.MODEL_EXTRA_NECK c = Some ctor
    /\ ctor c = Ok built
    /\ torch_device (ExtraNeck.MODEL_DEVICE c) = Ok d
    /\ m = ExtraNeck.Module_ Net Device (ExtraNeck.net Net Device built) d
    /\ log' = (log ++ [ExtraNeck.Constructed Device (ExtraNeck.MODEL_EXTRA_NECK c);
                       ExtraNeck.Moved Device d])%list.
Proof.
  unfold ExtraNeck.build_model, ExtraNeck.Registry_get, dict_get.
  destruct (EXTRA_NECK_REGISTRY !! ExtraNeck.MODEL_EXTRA_NECK c) as [ctor|] eqn:Er;
    [|discriminate].
  destruct (ctor c) as [built|e] eqn:Ec; [|discriminate].
  destruct (torch_device (ExtraNeck.MODEL_DEVICE c)) as [d|e] eqn:Ed; [|discriminate].
  intros [= <- <-]. exists ctor, built, d. rewrite <- app_assoc.
  repeat split; first [reflexivity | assumption].
Qed.

(** X17.  When the registered constructor raises, or the device name is
    rejected after the constructor succeeded, [build_model] raises the
    same exception after exactly one constructor call and moves
    nothing. *)
Theorem build_model_propagates (c : ExtraNeck.cfg) (log : list (ExtraNeck.build_event Device))
    (ctor : ExtraNeck.constructor Net Device) (e : exn) :
  EXTRA_NECK_REGISTRY !! ExtraNeck.MODEL_EXTRA_NECK c = Some ctor ->
  ctor c = Raise e
  \/ (exists built, ctor c = Ok built)
     /\ torch_device (ExtraNeck.MODEL_DEVICE c) = Raise e ->
  ExtraNeck.build_model Net Device EXTRA_NECK_REGISTRY torch_device c log
    = ((log ++ [ExtraNeck.Constructed Device (ExtraNeck.MODEL_EXTRA_NECK c)])%list, Raise e).
Proof.
  intros Hr Hfail.
  unfold ExtraNeck.build_model, ExtraNeck.Registry_get, dict_get. rewrite Hr.
  destruct Hfail as [Hc|[[built Hc] Hd]]; rewrite Hc; [reflexivity|].
  rewrite Hd. reflexivity.
Qed.
End BuildFailures.

Lemma build_model_returns_witness :
  exists (ctor : ExtraNeck.constructor string string) (built : ExtraNeck.module string string)
         (d : string),
    demo_registry !! ExtraNeck.MODEL_EXTRA_NECK (ExtraNeck.Cfg "FPNNeck" "cuda") = Some ctor
    /\ ctor (ExtraNeck.Cfg "FPNNeck" "cuda") = Ok built
    /\ demo_torch_device (ExtraNeck.MODEL_DEVICE (ExtraNeck.Cfg "FPNNeck" "cuda")) = Ok d
    /\ ExtraNeck.Module_ string string "fpn neck, fresh parameters" "cuda"
       = ExtraNeck.Module_ string string (ExtraNeck.net string string built) d
    /\ [ExtraNeck.Constructed string "FPNNeck"; ExtraNeck.Moved string "cuda"]
       = ([] ++ [ExtraNeck.Constructed string
                   (ExtraNeck.MODEL_EXTRA_NECK (ExtraNeck.Cfg "FPNNeck" "cuda"));
                 ExtraNeck.Moved string d])%list.
Proof.
  apply (build_model_returns string string demo_registry demo_torch_device
           (ExtraNeck.Cfg "FPNNeck" "cuda") []
           [ExtraNeck.Constructed string "FPNNeck"; ExtraNeck.Moved string "cuda"]
           (ExtraNeck.Module_ string string "fpn neck, fresh parameters" "cuda")).
  reflexivity.
Defined.

Lemma build_model_propagates_witness :
  ExtraNeck.build_model string string demo_registry demo_cpu_only
    (ExtraNeck.Cfg "FPNNeck" "cuda:9") []
  = (([] ++ [ExtraNeck.Constructed string
               (ExtraNeck.MODEL_EXTRA_NECK (ExtraNeck.Cfg "FPNNeck" "cuda:9"))])%list,
     Raise (External "device")).
Proof.
  apply (build_model_propagates string string demo_registry demo_cpu_only
           (ExtraNeck.Cfg "FPNNeck" "cuda:9") []
           (fun c => Ok (ExtraNeck.Module_ string string "fpn neck, fresh parameters" "cpu"))
           (External "device")).
  - reflexivity.
  - right. split; [eexists; reflexivity|reflexivity].
Defined.

(** ** A round of the instance evaluator *)

Section InstanceRound.
Context {S : Type} `{Scalar S}.
Variables (name2label : gmap string label) (str_of_score : S -> string)
          (cityscapes_eval : scorer (gmap string (gmap string S))) (args0 : scorer_args)
          (self : evaluator).

Local Abbreviation instance := (@CityscapesInstanceEvaluator.instance S).

(** Whatever the instances are, the loop writes to the manifest and to
    mask files of the input only. *)
Lemma write_instances_frame (file_name : string) (output : list instance) :
  forall (i : nat) (w : world) (p : string),
    files (CityscapesInstanceEvaluator.write_instances name2label str_of_score self
             (splitext_root (basename file_name)) (pred_txt_of self file_name)
             i output w).1 !! p = files w !! p
    \/ p = pred_txt_of self file_name
    \/ exists k classes, p = png_of self file_name k classes.
Proof.
  induction output as [|inst rest IH]; intros i w p; [left; reflexivity|].
  cbn [CityscapesInstanceEvaluator.write_instances].
  rewrite bind_run, lift_run.
  destruct (getitem _ _) as [classes|e]; [|left; reflexivity].
  cbn beta iota. rewrite bind_run, lift_run.
  destruct (dict_get name2label classes) as [lab|e]; [|left; reflexivity].
  cbn beta iota zeta. rewrite bind_run, write_file_run. cbn beta iota.
  rewrite bind_run. unfold append_chunk at 1. cbn beta iota zeta. cbn [files gt_tree trace].
  match goal with
  | |- context [CityscapesInstanceEvaluator.write_instances _ _ _ _ _ _ _ ?w1] =>
      destruct (IH (Datatypes.S i) w1 p) as [E|[E|E]]
  end.
  - cbn [files] in E.
    destruct (decide (pred_txt_of self file_name = p)) as [<-|Hp1];
      [right; left; reflexivity|].
    destruct (decide (png_of self file_name i classes = p)) as [<-|Hp2];
      [right; right; exists i, classes; reflexivity|].
    left. rewrite E, lookup_insert_ne by exact Hp1. apply lookup_insert_ne. exact Hp2.
  - right. left. exact E.
  - right. right. exact E.
Qed.

Lemma process_frame (batch : list (string * list instance)) :
  forall (w : world) (p : string),
    files (for_each batch
             (CityscapesInstanceEvaluator.process_one name2label str_of_score self) w).1 !! p
      = files w !! p
    \/ exists file_name,
         p = pred_txt_of self file_name
         \/ exists k classes, p = png_of self file_name k classes.
Proof.
  induction batch as [|[file_name output] rest IH]; intros w p; [left; reflexivity|].
  cbn [for_each]. rewrite bind_run, process_one_run.
  pose proof (write_instances_frame file_name output 0%nat
                (World (<[pred_txt_of self file_name := TextFile []]> (files w))
                       (gt_tree w) (trace w)) p) as Hw.
  destruct (CityscapesInstanceEvaluator.write_instances _ _ _ _ _ _ _ _) as [w1 [[]|e]].
  - cbn [fst] in Hw. destruct (IH w1 p) as [E|E]; [|right; exact E].
    destruct Hw as [Hw|[Hw|Hw]].
    + cbn [files] in Hw.
      destruct (decide (pred_txt_of self file_name = p)) as [<-|Hp];
        [right; exists file_name; left; reflexivity|].
      left. rewrite E, Hw. apply lookup_insert_ne. exact Hp.
    + right. exists file_name. left. exact Hw.
    + right. exists file_name. right. exact Hw.
  - cbn [fst] in *. destruct Hw as [Hw|[Hw|Hw]].
    + cbn [files] in Hw.
      destruct (decide (pred_txt_of self file_name = p)) as [<-|Hp];
        [right; exists file_name; left; reflexivity|].
      left. rewrite Hw. apply lookup_insert_ne. exact Hp.
    + right. exists file_name. left. exact Hw.
    + right. exists file_name. right. exact Hw.
Qed.

(** [process] of the instance evaluator, whether it succeeds or stops at
    an instance it cannot write, changes files below the scratch
    directory only. *)
Lemma instance_process_outside (inputs : list string) (outputs : list (list instance))
    (w : world) :
  _temp_dir self <> EmptyString ->
  endswith (_temp_dir self) "/" = false ->
  removed (_temp_dir self)
    (files (CityscapesInstanceEvaluator.process name2label str_of_score self
              inputs outputs w).1)
  = removed (_temp_dir self) (files w).
Proof.
  intros Hne Hslash. apply map_eq. intros p. rewrite !removed_lookup.
  destruct (startswith p (_temp_dir self +:+ "/")) eqn:E; [reflexivity|].
  unfold CityscapesInstanceEvaluator.process.
  destruct (process_frame (zip inputs outputs) w p) as [Hp|[fn [Hp|[k [c Hp]]]]];
    [exact Hp| |]; exfalso; subst p.
  - unfold pred_txt_of in E. rewrite scratch_path in E by (assumption || reflexivity).
    discriminate E.
  - unfold png_of, CityscapesInstanceEvaluator.png_name in E.
    rewrite scratch_path in E by (assumption || reflexivity). discriminate E.
Qed.

(** The file the instance scorer is handed to write lies below the
    scratch directory. *)
Lemma instances_file_in_scratch :
  _temp_dir self <> EmptyString ->
  endswith (_temp_dir self) "/" = false ->
  startswith (gtInstancesFile (CityscapesInstanceEvaluator.set_args args0 self))
             (_temp_dir self +:+ "/") = true.
Proof.
  intros Hne Hslash. cbn [CityscapesInstanceEvaluator.set_args gtInstancesFile].
  unfold path_join. replace (startswith "gtInstances.json" "/") with false by reflexivity.
  destruct (String.eqb (_temp_dir self) "") eqn:E;
    [apply String.eqb_eq in E; contradiction|].
  rewrite Hslash, <- append_assoc. apply startswith_app.
Qed.

(** X18.  When the scorer's comparison writes no file but the one it is
    handed as [gtInstancesFile], a round of the instance evaluator on the
    coordinator, [process] on a batch (whether it succeeded or not) and
    then an [evaluate] that returns a mapping, leaves the files as they
    were before the round, less the scratch directory: [evaluate] names a
    file of the scratch directory as [gtInstancesFile], so manifests,
    masks and the scorer's file are gone and no other file is touched. *)
Theorem instance_round_leaves_no_files (inputs : list string)
    (outputs : list (list instance)) (w w' : world) (ret : metrics S) :
  _working_dir self = _temp_dir self ->
  _temp_dir self <> EmptyString ->
  endswith (_temp_dir self) "/" = false ->
  writes_instances_file cityscapes_eval ->
  CityscapesInstanceEvaluator.evaluate cityscapes_eval args0 0 self
    (CityscapesInstanceEvaluator.process name2label str_of_score self inputs outputs w).1
    = (w', Ok (Some ret)) ->
  files w' = removed (_temp_dir self) (files w).
Proof.
  intros Hdir Hne Hslash Hwrites Hrun.
  pose proof (instance_evaluate_disciplined cityscapes_eval args0 self
                (CityscapesInstanceEvaluator.process name2label str_of_score self
                   inputs outputs w).1) as Hd.
  rewrite Hrun in Hd. cbn [fst snd] in Hd. destruct Hd as (preds & gts & Hd).
  rewrite Hd, Hdir, <- (instance_process_outside inputs outputs w Hne Hslash).
  apply map_eq. intros p. rewrite !removed_lookup.
  destruct (startswith p (_temp_dir self +:+ "/")) eqn:E; [reflexivity|].
  apply Hwrites. intros ->.
  rewrite (instances_file_in_scratch Hne Hslash) in E. discriminate E.
Qed.
End InstanceRound.

Lemma instance_round_leaves_no_files_witness :
  files (CityscapesInstanceEvaluator.evaluate demo_instance_scorer no_args 0
           (demo_self "cityscapes")
           (CityscapesInstanceEvaluator.process demo_name2label demo_str_of_score
              (demo_self "cityscapes") ["val/aachen/aachen_000000_000019_leftImg8bit.png"]
              [demo_instances] demo_round_world).1).1
  = removed (_temp_dir (demo_self "cityscapes")) (files demo_round_world).
Proof.
  apply (instance_round_leaves_no_files demo_name2label demo_str_of_score
           demo_instance_scorer no_args (demo_self "cityscapes")
           ["val/aachen/aachen_000000_000019_leftImg8bit.png"]
           [demo_instances] demo_round_world _ demo_instance_ret).
  - reflexivity.
  - discriminate.
  - reflexivity.
  - intros fs preds gts a p Hp. cbn [demo_instance_scorer evaluateImgLists fst].
    apply lookup_insert_ne. intros E. apply Hp. symmetry. exact E.
  - vm_compute. reflexivity.
Defined.
